(** * Dataset-Management-Toolkit: the label remapper and the sequential renamer

    A shallow embedding of [src/Remap.py] (function [remap_by_name] and its
    helper [read_classes], methods [refresh_list] and [preview_selected] of
    [MinimalApp]) and of [src/rename.py] (functions [rename_images] and
    [main]), with the properties of the specification stated over it.

    Conventions of the embedding.
    - A Python [str] is a [list ascii]; a character is its code point, so the
      development covers the code points 0..255.  Inside that range the only
      decimal digits are '0'..'9', and the white space and line boundary
      characters are the ones listed in [is_space] and [is_linebreak].
    - A Python [int] is a [Z].  The interpreter's configurable limit on the
      number of digits converted by [int()] and [str()] is not modelled.
    - The file system is a finite map from normalised paths (lists of name
      components) to nodes.  Files hold decoded text; text files are written
      with '\n' line ends (POSIX) and read with universal newlines.  There
      are no links and no access rights, and a file name is one component:
      the names of the entries hold no '/' and no NUL character and are
      within the limit below.
    - File names are stored in UTF-8, and a name of more than [NAME_MAX] =
      255 bytes is refused by the system (the limit of the usual Linux file
      systems); Python refuses a name with a NUL character with
      [ValueError].  The limit on the length of a whole path is not
      modelled.
    - Code that touches the file system is a function from the file system
      to the file system it leaves and either an exception or a value.
    - What [rename_images] and [main] print is the list of messages they
      return; the messages of [remap_by_name] go to its [log_fn], which is
      the default one here (it discards them).
    - Of the graphical front end of [src/Remap.py] the embedding has what
      [refresh_list] and [preview_selected] compute: the texts of the entry
      fields and the selection are their arguments, what they put in the
      widgets is their result.  The widgets, the dialogs and the worker
      thread are not part of the embedding.
*)

From Stdlib Require Import ZArith Ascii.
From stdpp Require Import gmap strings list fin_maps sorting.

Local Open Scope Z_scope.

(** ** Python string primitives *)

Module Py.

Abbreviation str := (list ascii).

(** String literals of the development. *)
Definition txt (x : string) : str := String.list_ascii_of_string x.

Definition code (c : ascii) : N := N_of_ascii c.

(** [str.isspace] on one character: the set used by [str.split()],
    [str.strip()] and [int()]. *)
Definition is_space (c : ascii) : bool :=
  let n := code c in
  ((9 <=? n) && (n <=? 13) || (28 <=? n) && (n <=? 31) || (n =? 32)
   || (n =? 133) || (n =? 160))%N.

(** Line boundaries of [str.splitlines()]. *)
Definition is_linebreak (c : ascii) : bool :=
  let n := code c in
  ((10 <=? n) && (n <=? 13) || (28 <=? n) && (n <=? 30) || (n =? 133))%N.

Definition LF : ascii := ascii_of_N 10.
Definition CR : ascii := ascii_of_N 13.
Definition SP : ascii := ascii_of_N 32.

Definition is_lf (c : ascii) : bool := (code c =? 10)%N.
Definition is_cr (c : ascii) : bool := (code c =? 13)%N.

(** [s.splitlines()]: [cur] holds the characters of the line being read, in
    reverse.  A final line without terminator is kept unless it is empty;
    "\r\n" counts as one boundary. *)
Fixpoint splitlines_from (cur : str) (s : str) : list str :=
  match s with
  | [] => match cur with [] => [] | _ => [rev cur] end
  | c :: rest =>
      if is_linebreak c then
        rev cur ::
          (if is_cr c then
             match rest with
             | c' :: rest' =>
                 if is_lf c' then splitlines_from [] rest'
                 else splitlines_from [] rest
             | [] => splitlines_from [] rest
             end
           else splitlines_from [] rest)
      else splitlines_from (c :: cur) rest
  end.

Definition splitlines (s : str) : list str := splitlines_from [] s.

(** [s.split()]: maximal runs of characters that are not white space. *)
Fixpoint split_from (cur : str) (s : str) : list str :=
  match s with
  | [] => match cur with [] => [] | _ => [rev cur] end
  | c :: rest =>
      if is_space c then
        match cur with
        | [] => split_from [] rest
        | _ => rev cur :: split_from [] rest
        end
      else split_from (c :: cur) rest
  end.

Definition split (s : str) : list str := split_from [] s.

(** [s.lstrip()], [s.rstrip()], [s.strip()] with no argument. *)
Fixpoint lstrip (s : str) : str :=
  match s with
  | c :: rest => if is_space c then lstrip rest else s
  | [] => []
  end.

Definition rstrip (s : str) : str := rev (lstrip (rev s)).
Definition strip (s : str) : str := rstrip (lstrip s).

(** [s.rstrip('\n')]. *)
Fixpoint lstrip_lf (s : str) : str :=
  match s with
  | c :: rest => if is_lf c then lstrip_lf rest else s
  | [] => []
  end.

Definition rstrip_lf (s : str) : str := rev (lstrip_lf (rev s)).

(** [sep.join(parts)]. *)
Fixpoint join (sep : str) (parts : list str) : str :=
  match parts with
  | [] => []
  | [p] => p
  | p :: ps => p ++ sep ++ join sep ps
  end.

(** Decimal digits. *)
Definition digit_val (c : ascii) : option Z :=
  let n := code c in
  if ((48 <=? n) && (n <=? 57))%N then Some (Z.of_N n - 48) else None.

Definition is_underscore (c : ascii) : bool := (code c =? 95)%N.
Definition is_plus (c : ascii) : bool := (code c =? 43)%N.
Definition is_minus (c : ascii) : bool := (code c =? 45)%N.

(** The digits of a base 10 literal after its first digit: single
    underscores are allowed between digits.  [us] tells that the previous
    character was an underscore. *)
Fixpoint digits_from (acc : Z) (us : bool) (s : str) : option Z :=
  match s with
  | [] => if us then None else Some acc
  | c :: rest =>
      match digit_val c with
      | Some d => digits_from (10 * acc + d) false rest
      | None =>
          if is_underscore c then
            if us then None else digits_from acc true rest
          else None
      end
  end.

Definition digits (s : str) : option Z :=
  match s with
  | c :: rest =>
      match digit_val c with
      | Some d => digits_from d false rest
      | None => None
      end
  | [] => None
  end.

(** [int(s)] in base 10; [None] stands for [ValueError]. *)
Definition int (s : str) : option Z :=
  match strip s with
  | c :: rest =>
      if is_plus c then digits rest
      else if is_minus c then Z.opp <$> digits rest
      else digits (c :: rest)
  | [] => None
  end.

Definition digit_char (d : Z) : ascii := ascii_of_N (Z.to_N (48 + d)).

(** Most significant digit first, in front of [acc]; [fuel] bounds the
    number of digits. *)
Fixpoint digits_of (fuel : nat) (n : Z) (acc : str) : str :=
  match fuel with
  | O => acc
  | S fuel' =>
      let acc' := digit_char (n mod 10) :: acc in
      if n <? 10 then acc' else digits_of fuel' (n / 10) acc'
  end.

Definition str_of_nonneg (n : Z) : str :=
  digits_of (S (Z.to_nat (Z.log2 n))) n [].

(** [str(z)] for an integer. *)
Definition str_of_int (z : Z) : str :=
  if z <? 0 then ascii_of_N 45 :: str_of_nonneg (- z) else str_of_nonneg z.

(** [s.lower()] on the code points 0..255: A..Z and the Latin-1 capitals. *)
Definition lower_char (c : ascii) : ascii :=
  let n := code c in
  if ((65 <=? n) && (n <=? 90)
      || (192 <=? n) && (n <=? 222) && negb (n =? 215))%N
  then ascii_of_N (n + 32) else c.

Definition lower (s : str) : str := map lower_char s.

(** [s.zfill(width)]: zeros go after a leading sign. *)
Definition zfill (width : nat) (s : str) : str :=
  let pad := replicate (width - length s)%nat (ascii_of_N 48) in
  match s with
  | c :: rest => if is_plus c || is_minus c then c :: pad ++ rest else pad ++ s
  | [] => pad
  end.

End Py.

(** ** Paths and the file system *)

Module Fs.
Import Py.

Inductive node :=
  | File (content : str)
  | Dir.

Abbreviation path := (list str).
Abbreviation fs := (gmap path node).

Inductive exn :=
  | FileNotFoundError
  | FileExistsError
  | NotADirectoryError
  | IsADirectoryError
  | PermissionError
  | DirectoryNotEmpty
  | FileNameTooLong       (* OSError, errno 36 *)
  | ValueError.           (* embedded null byte *)

(** The exceptions caught by [except OSError]. *)
Definition is_OSError (e : exn) : bool :=
  match e with ValueError => false | _ => true end.

(** Code that reads and writes the file system and may raise; the file
    system reached when the exception is raised is kept. *)
Definition io (A : Type) : Type := fs → fs * (exn + A).

Global Instance io_ret : MRet io := λ A x σ, (σ, inr x).
Global Instance io_bind : MBind io := λ A B f m σ,
  match m σ with
  | (σ', inr x) => f x σ'
  | (σ', inl e) => (σ', inl e)
  end.
Definition raise {A} (e : exn) : io A := λ σ, (σ, inl e).
Definition get_fs : io fs := λ σ, (σ, inr σ).

(** [try: m except ...]: the outcome of [m] as a value. *)
Definition try {A} (m : io A) : io (exn + A) := λ σ,
  let '(σ', r) := m σ in (σ', inr r).

(** [p.parent], [p.name] and [p / name] of pathlib. *)
Definition parent (p : path) : path := take (length p - 1)%nat p.
Definition name (p : path) : str := default [] (last p).
Definition child (p : path) (n : str) : path := p ++ [n].

Definition exists_ (σ : fs) (p : path) : bool :=
  match σ !! p with Some _ => true | None => false end.
Definition is_dir (σ : fs) (p : path) : bool :=
  match σ !! p with Some Dir => true | _ => false end.
Definition is_file (σ : fs) (p : path) : bool :=
  match σ !! p with Some (File _) => true | _ => false end.

(** [p.mkdir(parents=True, exist_ok=True)]: walks down from [pre], creating
    what is missing; a file on the way raises. *)
Fixpoint mkdir_from (pre rest : path) (σ : fs) : fs * (exn + unit) :=
  match σ !! pre with
  | Some (File _) =>
      (σ, inl (match rest with [] => FileExistsError | _ => NotADirectoryError end))
  | here =>
      let σ' := match here with None => <[pre := Dir]> σ | _ => σ end in
      match rest with
      | [] => (σ', inr tt)
      | c :: rest' => mkdir_from (pre ++ [c]) rest' σ'
      end
  end.

Definition mkdir_parents (p : path) : io unit := mkdir_from [] p.

(** [shutil.copytree(src, dst)] for a [dst] that does not exist: every node
    at or below [src] is copied to the same place below [dst]. *)
Definition relocate (src dst : path) (kv : path * node) : option (path * node) :=
  if decide (take (length src) kv.1 = src)
  then Some (dst ++ drop (length src) kv.1, kv.2) else None.

Definition copytree (src dst : path) : io unit := λ σ,
  (list_to_map (omap (relocate src dst) (map_to_list σ)) ∪ σ, inr tt).

(** Universal newlines of text mode reading: "\r\n" and "\r" become "\n". *)
Fixpoint universal_newlines (s : str) : str :=
  match s with
  | [] => []
  | c :: rest =>
      if is_cr c then
        match rest with
        | c' :: rest' =>
            if is_lf c' then LF :: universal_newlines rest'
            else LF :: universal_newlines rest
        | [] => [LF]
        end
      else c :: universal_newlines rest
  end.

(** [p.read_text()] / [open(p).read()]. *)
Definition read_text (p : path) : io str := λ σ,
  match σ !! p with
  | Some (File c) => (σ, inr (universal_newlines c))
  | Some Dir => (σ, inl IsADirectoryError)
  | None => (σ, inl FileNotFoundError)
  end.

(** [p.write_text(data)]: creates or replaces the file. *)
Definition write_text (p : path) (data : str) : io unit := λ σ,
  match σ !! p with
  | Some Dir => (σ, inl IsADirectoryError)
  | _ =>
      if is_dir σ (parent p) then (<[p := File data]> σ, inr tt)
      else (σ, inl FileNotFoundError)
  end.

(** Lexicographic order on strings by code point, the order of
    [sorted] and [list.sort]. *)
Fixpoint str_leb (a b : str) : bool :=
  match a, b with
  | [], _ => true
  | _ :: _, [] => false
  | x :: a', y :: b' =>
      if (code x <? code y)%N then true
      else if (code y <? code x)%N then false
      else str_leb a' b'
  end.

Definition str_le (a b : str) : Prop := str_leb a b = true.
Global Instance str_le_dec : RelDecision str_le := λ a b, decide (str_leb a b = true).

Definition sorted (l : list str) : list str := merge_sort str_le l.

(** The names of the entries of directory [dir]. *)
Definition child_name (dir : path) (k : path) : option str :=
  if decide (take (length dir) k = dir)
  then match drop (length dir) k with [n] => Some n | _ => None end
  else None.

Definition listdir (σ : fs) (dir : path) : list str :=
  omap (child_name dir) (map_to_list σ).*1.

(** [PurePath.suffix] of a file name: from the last dot on, when that dot
    is neither the first nor the last character. *)
Fixpoint rfind_dot (i : nat) (s : str) (found : option nat) : option nat :=
  match s with
  | [] => found
  | c :: rest => rfind_dot (S i) rest (if (code c =? 46)%N then Some i else found)
  end.

Definition suffix (nm : str) : str :=
  match rfind_dot 0 nm None with
  | Some i => if ((0 <? i) && (i <? length nm - 1))%nat then drop i nm else []
  | None => []
  end.

End Fs.

(** ** The label remapper ([src/Remap.py]) *)

Module Remap.
Import Py Fs.

(** [f.readlines()]: the lines with their '\n' kept. *)
Fixpoint readlines_from (cur : str) (s : str) : list str :=
  match s with
  | [] => match cur with [] => [] | _ => [rev cur] end
  | c :: rest =>
      if is_lf c then rev (c :: cur) :: readlines_from [] rest
      else readlines_from (c :: cur) rest
  end.

Definition readlines (s : str) : list str := readlines_from [] s.

(** [read_classes(path)]. *)
Definition classes_of_text (s : str) : list str :=
  map rstrip_lf (filter (λ ln, rstrip_lf ln ≠ []) (readlines s)).

Definition read_classes (p : path) : io (list str) :=
  s ← read_text p; mret (classes_of_text s).

(** [enumerate(l)]. *)
Fixpoint enumerate_from {A} (i : Z) (l : list A) : list (Z * A) :=
  match l with
  | [] => []
  | x :: l' => (i, x) :: enumerate_from (i + 1) l'
  end.

Definition enumerate {A} (l : list A) : list (Z * A) := enumerate_from 0 l.

(** A dict comprehension: the pairs are inserted from left to right, so a
    later pair replaces an earlier one with the same key. *)
Definition dict_of `{Countable K} {V} (kvs : list (K * V)) : gmap K V :=
  foldl (λ m kv, <[kv.1 := kv.2]> m) ∅ kvs.

(** [{name: idx for idx, name in enumerate(new)}] *)
Definition name_to_new (new : list str) : gmap str Z :=
  dict_of (map (λ p, (p.2, p.1)) (enumerate new)).

(** [{i: n for i, n in enumerate(old)}] *)
Definition old_index_to_name (old : list str) : gmap Z str :=
  dict_of (enumerate old).

Record stats := Stats {
  files : nat;
  lines : nat;
  changed : nat;
  unchanged : nat
}.

Definition stats0 : stats := Stats 0 0 0 0.

Definition inc_files (st : stats) : stats :=
  Stats (S (files st)) (lines st) (changed st) (unchanged st).
Definition inc_lines (st : stats) : stats :=
  Stats (files st) (S (lines st)) (changed st) (unchanged st).
Definition inc_changed (st : stats) : stats :=
  Stats (files st) (lines st) (S (changed st)) (unchanged st).
Definition inc_unchanged (st : stats) : stats :=
  Stats (files st) (lines st) (changed st) (S (unchanged st)).

(** The body of the loop over the lines of one file (lines 69 to 93):
    [acc] is [(out_lines, stats)]. *)
Definition remap_line (d_old : gmap Z str) (d_new : gmap str Z)
    (acc : list str * stats) (raw : str) : list str * stats :=
  let '(out_lines, st) := acc in
  let ln := rstrip_lf raw in
  if decide (strip ln = []) then acc
  else
    let st := inc_lines st in
    let parts := split ln in
    if (length parts <? 5)%nat then (out_lines ++ [ln], inc_unchanged st)
    else
      match int (hd [] parts) with
      | None => (out_lines ++ [ln], inc_unchanged st)
      | Some old_idx =>
          match d_old !! old_idx with
          | None => (out_lines ++ [ln], inc_unchanged st)
          | Some old_name =>
              match d_new !! old_name with
              | None => (out_lines ++ [ln], inc_unchanged st)
              | Some new_idx =>
                  let new_line := join [SP] (str_of_int new_idx :: tl parts) in
                  (out_lines ++ [new_line],
                   if decide (new_line ≠ ln) then inc_changed st
                   else inc_unchanged st)
              end
          end
      end.

(** The text written for one label file (line 94). *)
Definition file_text (out_lines : list str) : str :=
  join [LF] out_lines ++ (match out_lines with [] => [] | _ => [LF] end).

(** One round of the loop over the directory entries (lines 63 to 94). *)
Definition remap_file (labels_dir out_dir : path)
    (d_old : gmap Z str) (d_new : gmap str Z)
    (st : stats) (f : str) : io stats :=
  σ ← get_fs;
  if negb (is_file σ (child labels_dir f))
     || negb (bool_decide (lower (suffix f) = txt ".txt"))
  then mret st
  else
    let st := inc_files st in
    content ← read_text (child labels_dir f);
    let '(out_lines, st) :=
      foldl (remap_line d_old d_new) ([], st) (splitlines content) in
    _ ← write_text (child out_dir f) (file_text out_lines);
    mret st.

Fixpoint remap_files (labels_dir out_dir : path)
    (d_old : gmap Z str) (d_new : gmap str Z)
    (st : stats) (fs_ : list str) : io stats :=
  match fs_ with
  | [] => mret st
  | f :: rest =>
      st' ← remap_file labels_dir out_dir d_old d_new st f;
      remap_files labels_dir out_dir d_old d_new st' rest
  end.

Definition backup_dir_of (labels_dir : path) : path :=
  child (parent labels_dir) (name labels_dir ++ txt "_backup").

(** [remap_by_name(labels_dir, out_dir, old_classes_path, new_classes_path,
    create_backup)], with the default [log_fn] that discards its messages. *)
Definition remap_by_name (labels_dir out_dir old_classes_path new_classes_path : path)
    (create_backup : bool) : io stats :=
  σ ← get_fs;
  if negb (exists_ σ labels_dir) || negb (is_dir σ labels_dir)
  then raise FileNotFoundError
  else
    _ ← mkdir_parents out_dir;
    _ ← (if create_backup then
           σ ← get_fs;
           if negb (exists_ σ (backup_dir_of labels_dir))
           then copytree labels_dir (backup_dir_of labels_dir)
           else mret tt
         else mret tt);
    old ← read_classes old_classes_path;
    new ← read_classes new_classes_path;
    let d_new := name_to_new new in
    let d_old := old_index_to_name old in
    σ ← get_fs;
    st ← remap_files labels_dir out_dir d_old d_new stats0
           (sorted (listdir σ labels_dir));
    _ ← write_text (child out_dir (txt "classes_mapped.txt"))
          (join [LF] new ++ [LF]);
    mret st.

End Remap.

(** ** The sequential renamer ([src/rename.py]) *)

Module Rename.
Import Py Fs.

(** [os.listdir(directory)]; the model has no access rights, so
    [PermissionError] is never raised here. *)
Definition os_listdir (directory : path) : io (list str) := λ σ,
  match σ !! directory with
  | Some Dir => (σ, inr (listdir σ directory))
  | Some (File _) => (σ, inl NotADirectoryError)
  | None => (σ, inl FileNotFoundError)
  end.

(** A file name with a NUL character: Python refuses it before any call
    of the system. *)
Definition has_nul (n : str) : bool := existsb (λ c, (code c =? 0)%N) n.

(** The length of a file name on disk, encoded in UTF-8: one byte for a
    code point below 128, two bytes for the others of the range 0..255. *)
Definition encoded_length (n : str) : nat :=
  (length n + length (filter (λ c, (128 <=? code c)%N = true) n))%nat.

(** The longest file name the file system takes, in bytes. *)
Definition NAME_MAX : nat := 255.

Definition too_long (n : str) : bool := (NAME_MAX <? encoded_length n)%nat.

(** [os.rename(old, new)] (POSIX): a name with a NUL character raises
    [ValueError], a name of more than [NAME_MAX] bytes is refused by the
    system; a file replaces a file, a directory moves with everything below
    it, onto nothing or onto an empty directory. *)
Definition os_rename (old new : path) : io unit := λ σ,
  if has_nul (name old) || has_nul (name new) then (σ, inl ValueError)
  else
    match σ !! old with
    | None =>
        (σ, inl (if too_long (name old) then FileNameTooLong
                 else FileNotFoundError))
    | Some src =>
        if decide (old = new) then (σ, inr tt)
        else if negb (exists_ σ (parent new)) then (σ, inl FileNotFoundError)
        else if negb (is_dir σ (parent new)) then (σ, inl NotADirectoryError)
        else if too_long (name new) then (σ, inl FileNameTooLong)
        else
          match src, σ !! new with
          | File _, Some Dir => (σ, inl IsADirectoryError)
          | Dir, Some (File _) => (σ, inl NotADirectoryError)
          | File c, _ => (<[new := File c]> (delete old σ), inr tt)
          | Dir, _ =>
              if bool_decide (listdir σ new = [])
              then (list_to_map (omap (relocate old new) (map_to_list σ))
                      ∪ filter (λ kv, take (length old) kv.1 ≠ old) σ, inr tt)
              else (σ, inl DirectoryNotEmpty)
          end
    end.

(** The lines printed on standard output. *)
Inductive msg :=
  | ErrDirectoryNotFound (directory : path)
      (* Error: Directory '...' not found. *)
  | ErrPermissionDenied (directory : path)
      (* Error: Permission denied to access directory '...'. *)
  | NoImageFiles
      (* No image files found in the directory. *)
  | Found (n : nat) (directory : path)
      (* Found n image file(s) in '...' *)
  | WarnExists (new_filename old_filename : str)
      (* Warning: 'new' already exists. Skipping 'old' *)
  | WouldRename (old_filename new_filename : str)
      (* Would rename: 'old' -> 'new' *)
  | Renamed (old_filename new_filename : str)
      (* Renamed: 'old' -> 'new' *)
  | ErrRenaming (old_filename : str) (e : exn)
      (* Error renaming 'old': e *)
  | DryRunComplete (renamed_count : nat)
      (* Dry run complete. Would rename renamed_count file(s). *)
  | RenamingComplete (renamed_count : nat)
      (* Renaming complete. Successfully renamed renamed_count file(s). *)
  | ErrNegativeStart
      (* Error: Start number must be non-negative. *)
  | Banner (directory : path) (start : Z) (prefix : str) (dry_run : bool).
      (* Starting image renaming process... and the four settings *)

(** Line 23. *)
Definition image_extensions : list str :=
  [txt ".jpg"; txt ".jpeg"; txt ".png"; txt ".gif"; txt ".bmp"; txt ".tiff";
   txt ".webp"; txt ".svg"].

Definition is_image (file : str) : bool :=
  bool_decide (lower (suffix file) ∈ image_extensions).

(** [f"{prefix}_{new_number}{file_ext}"] of lines 60 to 63. *)
Definition new_name (prefix : str) (padding : nat) (number : Z) (old_filename : str) : str :=
  prefix ++ txt "_" ++ zfill padding (str_of_int number) ++ suffix old_filename.

(** The loop of lines 58 to 81; [i] is the index given by [enumerate].
    [os.path.join(directory, name)] is [child directory name]: the joined
    path of a name that holds a path separator has several components,
    which the embedding does not follow, and the statements on renaming
    take a prefix without separator ([plain_prefix]).  Only [OSError] is
    caught around [os.rename] (line 80). *)
Fixpoint rename_loop (directory : path) (start_number : Z) (prefix : str)
    (dry_run : bool) (padding : nat) (i : Z) (image_files : list str)
    (renamed_count : nat) (out : list msg) : io (nat * list msg) :=
  match image_files with
  | [] => mret (renamed_count, out)
  | old_filename :: rest =>
      let number := start_number + i in
      let new_filename := new_name prefix padding number old_filename in
      let old_path := child directory old_filename in
      let new_path := child directory new_filename in
      σ ← get_fs;
      if exists_ σ new_path && bool_decide (old_path ≠ new_path) then
        rename_loop directory start_number prefix dry_run padding (i + 1) rest
          renamed_count (out ++ [WarnExists new_filename old_filename])
      else if dry_run then
        rename_loop directory start_number prefix dry_run padding (i + 1) rest
          renamed_count (out ++ [WouldRename old_filename new_filename])
      else
        r ← try (os_rename old_path new_path);
        match r with
        | inr _ =>
            rename_loop directory start_number prefix dry_run padding (i + 1) rest
              (S renamed_count) (out ++ [Renamed old_filename new_filename])
        | inl e =>
            if is_OSError e then
              rename_loop directory start_number prefix dry_run padding (i + 1) rest
                renamed_count (out ++ [ErrRenaming old_filename e])
            else raise e
        end
  end.

(** [rename_images(directory, start_number, prefix, dry_run)]; the result
    is what was printed. *)
Definition rename_images (directory : path) (start_number : Z) (prefix : str)
    (dry_run : bool) : io (list msg) :=
  r ← try (os_listdir directory);
  match r with
  | inl FileNotFoundError => mret [ErrDirectoryNotFound directory]
  | inl PermissionError => mret [ErrPermissionDenied directory]
  | inl e => raise e
  | inr names =>
      σ ← get_fs;
      let files := filter (λ f, is_file σ (child directory f) = true) names in
      let image_files := filter (λ file, is_image file = true) files in
      match image_files with
      | [] => mret [NoImageFiles]
      | _ =>
          let image_files := sorted image_files in
          let total_files := length image_files in
          let max_number := start_number + Z.of_nat total_files - 1 in
          let padding := length (str_of_int max_number) in
          '(renamed_count, out) ←
            rename_loop directory start_number prefix dry_run padding 0
              image_files 0%nat [Found (length image_files) directory];
          if dry_run then mret (out ++ [DryRunComplete renamed_count])
          else mret (out ++ [RenamingComplete renamed_count])
      end
  end.

(** The parsed command line (lines 94 to 125). *)
Record args := Args {
  directory : path;
  start : Z;
  prefix : str;
  dry_run : bool;
  extensions : list str
}.

(** Defaults of the options. *)
Definition default_start : Z := 1.
Definition default_prefix : str := txt "image".
Definition default_extensions : list str :=
  [txt ".jpg"; txt ".jpeg"; txt ".png"; txt ".gif"; txt ".bmp"; txt ".tiff";
   txt ".webp"].

(** [main()] after [parser.parse_args()]. *)
Definition main (a : args) : io (list msg) :=
  if start a <? 0 then mret [ErrNegativeStart]
  else
    out ← rename_images (directory a) (start a) (prefix a) (dry_run a);
    mret (Banner (directory a) (start a) (prefix a) (dry_run a) :: out).

End Rename.

(** ** The window of the remapper ([src/Remap.py], class [MinimalApp]) *)

Module MinimalApp.
Import Py Fs Remap.

(** The text of an entry field after [.get().strip()], read as a path;
    [None] is the empty text. *)
Definition entry := option path.

(** [read_classes] on the text of an entry: [open('')] raises
    [FileNotFoundError]. *)
Definition read_classes_entry (e : entry) : io (list str) :=
  match e with
  | Some p => read_classes p
  | None => raise FileNotFoundError
  end.

(** What [refresh_list] does to the list box (lines 186 to 193). *)
Inductive listing :=
  | NotRefreshed
      (* line 188: the entry is empty, the list box is left as it is *)
  | MissingFolder
      (* line 190: warning 'Labels folder does not exist' *)
  | Listed (files : list str).
      (* lines 192 and 193: the list box holds [files] *)

(** [p.iterdir()]: the entries of a directory. *)
Definition iterdir (p : path) : io (list str) := λ σ,
  match σ !! p with
  | Some Dir => (σ, inr (listdir σ p))
  | Some (File _) => (σ, inl NotADirectoryError)
  | None => (σ, inl FileNotFoundError)
  end.

(** The condition of lines 63 and 191 on a directory entry. *)
Definition is_label_file (σ : fs) (p : path) (f : str) : bool :=
  is_file σ (child p f) && bool_decide (lower (suffix f) = txt ".txt").

Definition refresh_list (labels_e : entry) : io listing :=
  match labels_e with
  | None => mret NotRefreshed
  | Some p =>
      σ ← get_fs;
      if negb (exists_ σ p) then mret MissingFolder
      else
        names ← iterdir p;
        mret (Listed (sorted (filter (λ f, is_label_file σ p f = true) names)))
  end.

(** The counters of the preview (line 211). *)
Record counts := Counts {
  kept : nat;
  dropped : nat;
  changed : nat
}.

Definition counts0 : counts := Counts 0 0 0.

Definition inc_kept (ct : counts) : counts :=
  Counts (S (kept ct)) (dropped ct) (changed ct).
Definition inc_changed (ct : counts) : counts :=
  Counts (kept ct) (dropped ct) (S (changed ct)).

(** The body of the loop of the preview (lines 213 to 232): [acc] is
    [(out_lines, counts)]. *)
Definition preview_line (d_old : gmap Z str) (d_new : gmap str Z)
    (acc : list str * counts) (raw : str) : list str * counts :=
  let '(out_lines, ct) := acc in
  let ln := rstrip_lf raw in
  if decide (strip ln = []) then acc
  else
    let parts := split ln in
    if (length parts <? 5)%nat then (out_lines ++ [ln], inc_kept ct)
    else
      match int (hd [] parts) with
      | None => (out_lines ++ [ln], inc_kept ct)
      | Some old_idx =>
          match d_old !! old_idx with
          | None => (out_lines ++ [ln], inc_kept ct)
          | Some old_name =>
              match d_new !! old_name with
              | None => (out_lines ++ [ln], inc_kept ct)
              | Some new_idx =>
                  let new_line := join [SP] (str_of_int new_idx :: tl parts) in
                  (out_lines ++ [new_line],
                   if decide (new_line ≠ ln) then inc_changed ct
                   else inc_kept ct)
              end
          end
      end.

(** What [preview_selected] shows (lines 195 to 234). *)
Inductive preview :=
  | NoPreview
      (* lines 197 and 200: nothing is selected, or the file is gone *)
  | ClassError (content : str) (e : exn)
      (* lines 202 and 207: the original text and an error box *)
  | Previewed (content remapped : str) (ct : counts).
      (* lines 202, 233 and 234: both texts and the logged counters *)

(** [preview_selected()]: [sel] is the selected item of the list box,
    [labels] the folder of the labels entry. *)
Definition preview_selected (sel : option str) (labels : path)
    (old_e new_e : entry) : io preview :=
  match sel with
  | None => mret NoPreview
  | Some fname =>
      let p := child labels fname in
      σ ← get_fs;
      if negb (exists_ σ p) then mret NoPreview
      else
        content ← read_text p;
        r ← try (old ← read_classes_entry old_e;
                 new ← read_classes_entry new_e;
                 mret (old, new));
        match r with
        | inl e => mret (ClassError content e)
        | inr (old, new) =>
            let d_new := name_to_new new in
            let d_old := old_index_to_name old in
            let '(out_lines, ct) :=
              foldl (preview_line d_old d_new) ([], counts0) (splitlines content) in
            mret (Previewed content (file_text out_lines) ct)
        end
  end.

End MinimalApp.

(** * Properties *)

Import Py Fs Remap Rename.

(** ** Vocabulary of the statements *)

(** A token: not empty and free of white space. *)
Definition token (t : str) : Prop := t ≠ [] ∧ Forall (λ c, is_space c = false) t.

Definition all_digits (ds : str) : Prop := Forall (λ c, is_Some (digit_val c)) ds.

(** The number written by a string of digits. *)
Definition value (ds : str) : Z :=
  foldl (λ a c, 10 * a + default 0 (digit_val c)) 0 ds.

(** The position of the last occurrence of [x] in [l]. *)
Fixpoint last_index (x : str) (l : list str) : option nat :=
  match l with
  | [] => None
  | y :: l' =>
      match last_index x l' with
      | Some k => Some (S k)
      | None => if decide (y = x) then Some 0%nat else None
      end
  end.

(** The counter invariant of the statistics. *)
Definition balanced (st : stats) : Prop :=
  lines st = (changed st + unchanged st)%nat.

(** The line that one round of the loop appends for [raw], if any. *)
Definition emitted (old new : list str) (raw : str) : option str :=
  head (remap_line (old_index_to_name old) (name_to_new new) ([], stats0) raw).1.

(** The round counted [raw] as changed. *)
Definition counted_changed (old new : list str) (raw : str) : Prop :=
  changed (remap_line (old_index_to_name old) (name_to_new new) ([], stats0) raw).2
  = 1%nat.

(** The class index written on a line: its first token read as an integer. *)
Definition class_index (ln : str) : option Z := int (hd [] (split ln)).

(** The validity conditions of a label line: it is rewritten. *)
Definition valid_line (old new : list str) (raw : str) : Prop :=
  ∃ (i : Z) (nm : str),
    (5 ≤ length (split (rstrip_lf raw)))%nat ∧
    int (hd [] (split (rstrip_lf raw))) = Some i ∧
    0 ≤ i ∧ old !! Z.to_nat i = Some nm ∧ nm ∈ new.

(** A line of the output: not empty and free of line boundaries. *)
Definition plain_line (l : str) : Prop :=
  l ≠ [] ∧ Forall (λ c, is_linebreak c = false) l.

(** What the engine does to the text of one label file (lines 66 to 94):
    the text written and the counters, starting from zero. *)
Definition remap_text (old new : list str) (content : str) : str * stats :=
  let r := foldl (remap_line (old_index_to_name old) (name_to_new new))
             ([], stats0) (splitlines content) in
  (file_text r.1, r.2).


(** Remapping the line emitted for [raw] back from [new] to [old] gives a
    line with the class index of [raw]. *)
Definition round_trip_restores (old new : list str) (raw : str) : Prop :=
  ∃ ln1 ln2, emitted old new raw = Some ln1 ∧ emitted new old ln1 = Some ln2 ∧
    class_index ln2 = class_index (rstrip_lf raw) ∧
    tl (split ln2) = tl (split (rstrip_lf raw)).

(** ** Sample file systems *)

Definition nl (ls : list str) : str := concat (map (λ l, l ++ [LF]) ls).

Definition p_labels : path := [txt "data"; txt "labels"].
Definition p_out : path := [txt "data"; txt "out"].
Definition p_back : path := [txt "data"; txt "back"].
Definition p_old : path := [txt "data"; txt "old_classes.txt"].
Definition p_new : path := [txt "data"; txt "new_classes.txt"].

Definition sample_fs (old new : list str) (label_lines : list str) : fs :=
  list_to_map
    [([], Dir); ([txt "data"], Dir); (p_labels, Dir);
     (p_old, File (nl old)); (p_new, File (nl new));
     (child p_labels (txt "a.txt"), File (nl label_lines))].

(** ** Vocabulary of the file system statements *)

(** Where a run may write: the entries of the output directory, the
    missing ancestors of the output directory (and itself), and the backup
    directory when it is requested and absent. *)
Definition written_region (labels_dir out_dir : path) (create_backup : bool)
    (σ : fs) (p : path) : Prop :=
  (∃ f, p = child out_dir f)
  ∨ (σ !! p = None ∧ p `prefix_of` out_dir)
  ∨ (create_backup = true ∧ σ !! backup_dir_of labels_dir = None
     ∧ backup_dir_of labels_dir `prefix_of` p).

(** Every file of the label directory has its original content after the run. *)
Definition source_untouched (labels_dir out_dir old_classes_path new_classes_path : path)
    (create_backup : bool) (σ : fs) : Prop :=
  ∀ f c, σ !! child labels_dir f = Some (File c) →
    (remap_by_name labels_dir out_dir old_classes_path new_classes_path
       create_backup σ).1 !! child labels_dir f = Some (File c).

(** ** Vocabulary of the renamer statements *)

(** The image files of a directory, in the order in which they are renamed
    (lines 27 to 47). *)
Definition image_files (σ : fs) (directory : path) : list str :=
  sorted (filter (λ file, is_image file = true)
            (filter (λ f, is_file σ (child directory f) = true)
               (listdir σ directory))).

(** A prefix that stays inside the directory: no path separator and no
    NUL character, so that the new file name is one path component. *)
Definition plain_prefix (pfx : str) : Prop :=
  forallb (λ c, negb (code c =? 47)%N && negb (code c =? 0)%N) pfx = true.

(** The width of the numbers (lines 52 to 54). *)
Definition width (start_number : Z) (names : list str) : nat :=
  length (str_of_int (start_number + Z.of_nat (length names) - 1)).

(** The new name of the [i]-th image file, for a given width. *)
Definition numbered (pfx : str) (padding : nat) (start_number : Z)
    (i : nat) (f : str) : str :=
  new_name pfx padding (start_number + Z.of_nat i) f.

(** The new name of the [i]-th image file. *)
Definition target (pfx : str) (start_number : Z) (names : list str)
    (i : nat) (f : str) : str :=
  numbered pfx (width start_number names) start_number i f.

(** Loop invariant of the renaming: the files renamed so far are under
    their new names, the rest is as in the initial file system [σ0]. *)
Definition renamed_so_far (directory : path) (start_number : Z) (pfx : str)
    (padding : nat) (σ0 : fs) (done : list str) (σ : fs) : Prop :=
  (∀ i f, done !! i = Some f →
     σ !! child directory (numbered pfx padding start_number i f)
     = σ0 !! child directory f
     ∧ σ !! child directory f = None) ∧
  (∀ q, (∀ i f, done !! i = Some f →
           q ≠ child directory f
           ∧ q ≠ child directory (numbered pfx padding start_number i f)) →
        σ !! q = σ0 !! q).

(** The run renames every image file: the [i]-th file in sorted order is
    found under its new name, numbered [start_number + i] on [width]
    characters, its old name is gone, the new names are pairwise distinct,
    everything else is as before, and the summary counts all of them. *)
Definition renamed_all (directory : path) (start_number : Z) (pfx : str)
    (σ : fs) : Prop :=
  let names := image_files σ directory in
  ∃ σ' out,
    rename_images directory start_number pfx false σ = (σ', inr out) ∧
    (names ≠ [] → last out = Some (RenamingComplete (length names))) ∧
    (∀ i f, names !! i = Some f →
       σ' !! child directory (target pfx start_number names i f)
       = σ !! child directory f
       ∧ σ' !! child directory f = None
       ∧ length (zfill (width start_number names)
                   (str_of_int (start_number + Z.of_nat i)))
         = width start_number names) ∧
    (∀ q, (∀ i f, names !! i = Some f →
             q ≠ child directory f
             ∧ q ≠ child directory (target pfx start_number names i f)) →
          σ' !! q = σ !! q) ∧
    NoDup (imap (target pfx start_number names) names).

Definition p_imgs : path := [txt "data"; txt "imgs"].

(** A directory of files; each file holds its first name as content. *)
Definition images_fs (names : list str) : fs :=
  list_to_map
    ([([], Dir); ([txt "data"], Dir); (p_imgs, Dir)]
     ++ map (λ n, (child p_imgs n, File n)) names).

(** ** Vocabulary of the further properties *)

(** A class name as [read_classes] returns it: not empty, on one line. *)
Definition class_name (n : str) : Prop :=
  n ≠ [] ∧ Forall (λ c, is_lf c = false) n ∧ Forall (λ c, is_cr c = false) n.

(** The text written to classes_mapped.txt (line 97). *)
Definition classes_mapped_text (new : list str) : str := join [LF] new ++ [LF].

(** The backup step of a run (lines 46 to 52). *)
Definition backup_step (labels_dir : path) (create_backup : bool) : io unit :=
  if create_backup then
    σ ← get_fs;
    if negb (exists_ σ (backup_dir_of labels_dir))
    then copytree labels_dir (backup_dir_of labels_dir)
    else mret tt
  else mret tt.

(** Files of a directory moved to free names of the same directory, one
    after the other. *)
Inductive moved (directory : path) : fs → fs → Prop :=
  | moved_refl (σ : fs) : moved directory σ σ
  | moved_step (σ σ' : fs) (f f' : str) (c : str) :
      σ !! child directory f = Some (File c) →
      σ !! child directory f' = None →
      moved directory
        (<[child directory f' := File c]> (delete (child directory f) σ)) σ' →
      moved directory σ σ'.

(** The nodes of a file system, without their paths. *)
Definition nodes (σ : fs) : list node := (map_to_list σ).*2.

(** The file a line of the loop of the renamer is about. *)
Definition subject (m : msg) : option str :=
  match m with
  | WarnExists _ old_filename => Some old_filename
  | WouldRename old_filename _ => Some old_filename
  | Renamed old_filename _ => Some old_filename
  | ErrRenaming old_filename _ => Some old_filename
  | _ => None
  end.

Definition is_renamed (m : msg) : bool :=
  match m with Renamed _ _ => true | _ => false end.

(** The last line of a run (lines 83 to 86). *)
Definition summary (dry_run : bool) (renamed_count : nat) : msg :=
  if dry_run then DryRunComplete renamed_count else RenamingComplete renamed_count.

(** The line emitted for [raw] is not the line read (line 90). *)
Definition differs (old new : list str) (raw : str) : bool :=
  match emitted old new raw with
  | Some ln1 => negb (bool_decide (ln1 = rstrip_lf raw))
  | None => false
  end.

(** The line emitted for [raw] is the line read. *)
Definition same (old new : list str) (raw : str) : bool :=
  match emitted old new raw with
  | Some ln1 => bool_decide (ln1 = rstrip_lf raw)
  | None => false
  end.

(** The file system in which a run reads the class files and lists the
    label directory: after lines 44 to 52. *)
Definition setup (labels_dir out_dir : path) (create_backup : bool) (σ : fs) : fs :=
  (backup_step labels_dir create_backup (mkdir_parents out_dir σ).1).1.

(** The lines of one file, as [read_text] and [splitlines] give them. *)
Definition file_lines (σ : fs) (labels_dir : path) (f : str) : list str :=
  match σ !! child labels_dir f with
  | Some (File c) => splitlines (universal_newlines c)
  | _ => []
  end.

(** The lines a run processes: the lines of the label files of the label
    directory (regular files with suffix ".txt" in any case), file after
    file in sorted order. *)
Definition label_lines (σ : fs) (labels_dir : path) : list str :=
  filter (λ f, MinimalApp.is_label_file σ labels_dir f = true)
    (sorted (listdir σ labels_dir))
  ≫= file_lines σ labels_dir.

(** ** Facts on the string primitives *)

(** Decides the comparisons of character codes in the goal. *)
Ltac by_code :=
  repeat match goal with
    | |- context [N.leb ?a ?b] => destruct (N.leb_spec a b)
    | |- context [N.eqb ?a ?b] => destruct (N.eqb_spec a b)
    | H : context [N.leb ?a ?b] |- _ => destruct (N.leb_spec a b)
    | H : context [N.eqb ?a ?b] |- _ => destruct (N.eqb_spec a b)
    end;
  simpl in *; try done; try lia.

Section tokens.

Lemma lstrip_nil (s : str) : lstrip s = [] ↔ Forall (λ c, is_space c = true) s.
Proof.
  induction s as [|c s IH]; simpl.
  - split; [constructor | done].
  - destruct (is_space c) eqn:E.
    + rewrite IH. split; [by constructor | by inversion 1].
    + split; [done | inversion 1; congruence].
Qed.

Lemma lstrip_idemp (s : str) : lstrip (lstrip s) = lstrip s.
Proof.
  induction s as [|c s IH]; simpl; [done|].
  destruct (is_space c) eqn:E; [done|]. simpl. by rewrite E.
Qed.

Lemma strip_nil (s : str) : strip s = [] ↔ Forall (λ c, is_space c = true) s.
Proof.
  unfold strip, rstrip. split.
  - intros H. apply (f_equal (@rev ascii)) in H. rewrite rev_involutive in H. simpl in H.
    apply lstrip_nil in H. apply Forall_rev in H. rewrite rev_involutive in H.
    apply lstrip_nil in H. rewrite lstrip_idemp in H. by apply lstrip_nil.
  - intros H. apply lstrip_nil in H. by rewrite H.
Qed.

Lemma split_from_blank (s : str) :
  Forall (λ c, is_space c = true) s → split_from [] s = [].
Proof.
  induction 1 as [|c s Hc _ IH]; simpl; [done|]. by rewrite Hc.
Qed.

Lemma split_blank (s : str) : strip s = [] → split s = [].
Proof. intros H. apply split_from_blank. by apply strip_nil. Qed.

Lemma split_from_token (t cur s : str) :
  Forall (λ c, is_space c = false) t →
  split_from cur (t ++ s) = split_from (rev t ++ cur) s.
Proof.
  intros Ht. revert cur. induction Ht as [|c t Hc _ IH]; intros cur; simpl; [done|].
  rewrite Hc, IH. by rewrite <- app_assoc.
Qed.

Lemma split_from_tokens (cur s : str) :
  Forall (λ c, is_space c = false) cur →
  Forall token (split_from cur s).
Proof.
  revert cur. induction s as [|c s IH]; intros cur Hcur; simpl.
  - destruct cur as [|x cur]; [constructor|].
    repeat constructor.
    + intros E. apply (f_equal length) in E. rewrite length_rev in E. done.
    + by apply Forall_rev.
  - destruct (is_space c) eqn:E.
    + destruct cur as [|x cur]; [by apply IH|].
      constructor; [|by apply IH].
      split; [|by apply Forall_rev].
      intros E'. apply (f_equal length) in E'. rewrite length_rev in E'. done.
    + apply IH. by constructor.
Qed.

Lemma split_tokens (s : str) : Forall token (split s).
Proof. by apply split_from_tokens. Qed.

Lemma split_token_sep (t s : str) :
  token t → split (t ++ SP :: s) = t :: split s.
Proof.
  intros [Hne Ht]. unfold split. rewrite split_from_token by done. simpl.
  rewrite app_nil_r. destruct (rev t) as [|x r] eqn:E.
  - apply (f_equal length) in E. rewrite length_rev in E. by destruct t.
  - rewrite <- E, rev_involutive. done.
Qed.

Lemma split_token (t : str) : token t → split t = [t].
Proof.
  intros [Hne Ht]. unfold split.
  rewrite <- (app_nil_r t) at 1. rewrite split_from_token by done. simpl.
  rewrite app_nil_r. destruct (rev t) as [|x r] eqn:E.
  - apply (f_equal length) in E. rewrite length_rev in E. by destruct t.
  - rewrite <- E, rev_involutive. done.
Qed.

Lemma split_join (toks : list str) :
  Forall token toks → split (join [SP] toks) = toks.
Proof.
  induction 1 as [|t toks Ht Htoks IH]; [done|].
  destruct toks as [|t' toks'].
  - simpl. by apply split_token.
  - change (join [SP] (t :: t' :: toks')) with (t ++ SP :: join [SP] (t' :: toks')).
    rewrite split_token_sep by done. by rewrite IH.
Qed.

Lemma lstrip_token (t : str) : token t → lstrip t = t.
Proof.
  intros [Hne Ht]. destruct Ht as [|c t Hc _]; [done|]. simpl. by rewrite Hc.
Qed.

Lemma strip_token (t : str) : token t → strip t = t.
Proof.
  intros Ht. unfold strip, rstrip. rewrite (lstrip_token t) by done.
  rewrite lstrip_token, rev_involutive; [done|].
  destruct Ht as [Hne Ht]. split; [|by apply Forall_rev].
  intros E. apply (f_equal length) in E. rewrite length_rev in E. by destruct t.
Qed.

End tokens.

Section integers.

Lemma digit_not_space c d : digit_val c = Some d → is_space c = false.
Proof. unfold digit_val, is_space. by_code. Qed.

Lemma digit_not_sign c d :
  digit_val c = Some d → is_plus c = false ∧ is_minus c = false.
Proof. unfold digit_val, is_plus, is_minus. by_code. Qed.

Lemma digit_val_char d : 0 ≤ d < 10 → digit_val (digit_char d) = Some d.
Proof.
  intros H.
  assert (d = 0 ∨ d = 1 ∨ d = 2 ∨ d = 3 ∨ d = 4 ∨ d = 5 ∨ d = 6 ∨ d = 7
          ∨ d = 8 ∨ d = 9) as Hd by lia.
  repeat destruct Hd as [-> | Hd]; try subst d; reflexivity.
Qed.

Lemma digits_from_all (ds : str) (a : Z) :
  all_digits ds →
  digits_from a false ds
  = Some (foldl (λ a c, 10 * a + default 0 (digit_val c)) a ds).
Proof.
  intros H. revert a. induction H as [|c ds [d Hd] _ IH]; intros a; simpl; [done|].
  by rewrite Hd, IH.
Qed.

Lemma digits_all (ds : str) : ds ≠ [] → all_digits ds → digits ds = Some (value ds).
Proof.
  intros Hne H. destruct H as [|c ds [d Hd] Hds]; [done|].
  unfold digits, value. simpl. rewrite Hd. simpl.
  rewrite digits_from_all by done. done.
Qed.

Lemma digits_of_spec (fuel : nat) (n : Z) (acc : str) :
  (0 < fuel)%nat → 0 ≤ n < 2 ^ Z.of_nat fuel →
  ∃ ds, digits_of fuel n acc = ds ++ acc ∧ ds ≠ [] ∧ all_digits ds ∧ value ds = n.
Proof.
  revert n acc. induction fuel as [|fuel IH]; intros n acc Hfuel Hn; [lia|].
  simpl. destruct (Z.ltb_spec n 10) as [Hlt|Hge].
  - exists [digit_char (n mod 10)]. rewrite Z.mod_small by lia.
    repeat split; [done| |].
    + repeat constructor. rewrite digit_val_char by lia. by eexists.
    + unfold value. simpl. rewrite digit_val_char by lia. simpl. lia.
  - destruct (IH (n / 10) (digit_char (n mod 10) :: acc)) as (ds & E & Hne & Hall & Hv).
    { destruct fuel; [simpl in Hn|]; lia. }
    { rewrite Nat2Z.inj_succ, Z.pow_succ_r in Hn by lia.
      split; [apply Z.div_pos; lia|].
      apply Z.div_lt_upper_bound; lia. }
    exists (ds ++ [digit_char (n mod 10)]).
    assert (0 ≤ n mod 10 < 10) as Hm by (apply Z.mod_pos_bound; lia).
    repeat split.
    + by rewrite E, <- app_assoc.
    + by destruct ds.
    + apply Forall_app. split; [done|]. repeat constructor.
      rewrite digit_val_char by done. by eexists.
    + unfold value in *. rewrite foldl_app. simpl. rewrite Hv.
      rewrite digit_val_char by done. simpl.
      rewrite (Z.div_mod n 10) at 3 by lia. lia.
Qed.

Lemma str_of_nonneg_spec (n : Z) :
  0 ≤ n →
  str_of_nonneg n ≠ [] ∧ all_digits (str_of_nonneg n) ∧ value (str_of_nonneg n) = n.
Proof.
  intros Hn. unfold str_of_nonneg.
  destruct (digits_of_spec (S (Z.to_nat (Z.log2 n))) n []) as (ds & E & Hne & Hall & Hv).
  { lia. }
  { split; [done|]. rewrite Nat2Z.inj_succ, Z2Nat.id by apply Z.log2_nonneg.
    destruct (decide (n = 0)) as [->|]; [done|].
    apply Z.log2_spec. lia. }
  rewrite E, app_nil_r. done.
Qed.

Lemma all_digits_token (ds : str) : ds ≠ [] → all_digits ds → token ds.
Proof.
  intros Hne H. split; [done|].
  eapply Forall_impl; [exact H|]. intros c [d Hd]. by eapply digit_not_space.
Qed.

Lemma str_of_int_token (z : Z) : token (str_of_int z).
Proof.
  unfold str_of_int. destruct (Z.ltb_spec z 0).
  - destruct (str_of_nonneg_spec (- z)) as (Hne & Hall & _); [lia|].
    split; [done|]. constructor; [done|].
    by apply all_digits_token.
  - destruct (str_of_nonneg_spec z) as (Hne & Hall & _); [done|].
    by apply all_digits_token.
Qed.

(** [int(str(z)) == z]. *)
Lemma int_str_of_int (z : Z) : int (str_of_int z) = Some z.
Proof.
  unfold int. rewrite strip_token by apply str_of_int_token.
  unfold str_of_int. destruct (Z.ltb_spec z 0).
  - destruct (str_of_nonneg_spec (- z)) as (Hne & Hall & Hv); [lia|].
    change (is_plus (ascii_of_N 45)) with false.
    change (is_minus (ascii_of_N 45)) with true. simpl.
    rewrite digits_all, Hv by done. simpl. f_equal. lia.
  - destruct (str_of_nonneg_spec z) as (Hne & Hall & Hv); [done|].
    destruct (str_of_nonneg z) as [|c ds]; [done|].
    destruct (Forall_inv Hall) as [d Hd].
    destruct (digit_not_sign _ _ Hd) as [-> ->].
    rewrite digits_all, Hv by done. done.
Qed.

End integers.

(** ** The two dictionaries *)

Section dicts.

Lemma last_index_Some (x : str) (l : list str) (k : nat) :
  last_index x l = Some k →
  l !! k = Some x ∧ ∀ k', l !! k' = Some x → (k' ≤ k)%nat.
Proof.
  revert k. induction l as [|y l IH]; intros k; simpl; [done|].
  destruct (last_index x l) as [k0|] eqn:E.
  - intros [= <-]. destruct (IH k0 eq_refl) as [H1 H2]. split; [done|].
    intros [|k'] Hk'; [lia|]. apply H2 in Hk'. lia.
  - destruct (decide (y = x)) as [->|]; [|done]. intros [= <-]. split; [done|].
    intros [|k'] Hk'; [done|]. simpl in Hk'.
    assert (last_index x l ≠ None) as Hc; [|done].
    clear -Hk'. revert k' Hk'. induction l as [|z l IHl]; intros k' Hk'; [done|].
    simpl. destruct k' as [|k']; simpl in Hk'.
    + injection Hk' as ->. destruct (last_index x l); [done|]. by rewrite decide_True.
    + specialize (IHl _ Hk'). by destruct (last_index x l).
Qed.

Lemma last_index_None (x : str) (l : list str) : last_index x l = None ↔ x ∉ l.
Proof.
  induction l as [|y l IH]; simpl.
  - split; [intros _; apply not_elem_of_nil | done].
  - rewrite not_elem_of_cons, <- IH. destruct (last_index x l).
    + split; [done | intros [_ ?]; done].
    + destruct (decide (y = x)) as [->|]; split; try done; intros []; done.
Qed.

Lemma last_index_elem (x : str) (l : list str) : x ∈ l → is_Some (last_index x l).
Proof.
  intros H. destruct (last_index x l) eqn:E; [by eexists|].
  by apply last_index_None in E.
Qed.

Lemma last_index_intro (x : str) (l : list str) (k : nat) :
  l !! k = Some x → (∀ k', l !! k' = Some x → (k' ≤ k)%nat) →
  last_index x l = Some k.
Proof.
  intros Hk Hmax.
  destruct (last_index_elem x l) as [k0 E].
  { apply list_elem_of_lookup. eauto. }
  destruct (last_index_Some _ _ _ E) as [H1 H2].
  rewrite E. f_equal. apply Nat.le_antisymm; auto.
Qed.

Lemma last_index_NoDup (x : str) (l : list str) (k : nat) :
  NoDup l → l !! k = Some x → last_index x l = Some k.
Proof.
  intros Hnd Hk. apply last_index_intro; [done|].
  intros k' Hk'. by rewrite (NoDup_lookup l k k' x).
Qed.

Lemma dict_enumerate_lookup (l : list str) (m : gmap Z str) (s i : Z) :
  foldl (λ m kv, <[kv.1 := kv.2]> m) m (enumerate_from s l) !! i
  = if decide (s ≤ i < s + Z.of_nat (length l)) then l !! Z.to_nat (i - s)
    else m !! i.
Proof.
  revert m s. induction l as [|x l IH]; intros m s; simpl.
  - by rewrite decide_False by lia.
  - rewrite IH. simpl. destruct (decide (i = s)) as [->|].
    + rewrite decide_False, lookup_insert_eq, decide_True by lia.
      by rewrite Z.sub_diag.
    + rewrite lookup_insert_ne by done.
      destruct (decide (s + 1 ≤ i < s + 1 + Z.of_nat (length l))).
      * rewrite decide_True by lia.
        replace (Z.to_nat (i - s)) with (S (Z.to_nat (i - (s + 1)))) by lia. done.
      * by rewrite decide_False by lia.
Qed.

(** [old_index_to_name.get(i)] is the name at position [i] of the old list. *)
Lemma old_index_to_name_lookup (old : list str) (i : Z) :
  old_index_to_name old !! i = if decide (0 ≤ i) then old !! Z.to_nat i else None.
Proof.
  unfold old_index_to_name, dict_of, enumerate. rewrite dict_enumerate_lookup.
  rewrite Z.sub_0_r, lookup_empty.
  destruct (decide (0 ≤ i)).
  - destruct (decide (0 ≤ i < 0 + Z.of_nat (length old))); [done|].
    symmetry. apply lookup_ge_None. lia.
  - by rewrite decide_False by lia.
Qed.

Lemma dict_names_lookup (l : list str) (m : gmap str Z) (s : Z) (x : str) :
  foldl (λ m kv, <[kv.1 := kv.2]> m) m
    (map (λ p : Z * str, (p.2, p.1)) (enumerate_from s l)) !! x
  = match last_index x l with
    | Some k => Some (s + Z.of_nat k)
    | None => m !! x
    end.
Proof.
  revert m s. induction l as [|y l IH]; intros m s; simpl; [done|].
  rewrite IH. destruct (last_index x l) as [k|].
  - f_equal. lia.
  - destruct (decide (y = x)) as [->|].
    + rewrite lookup_insert_eq. f_equal. lia.
    + by rewrite lookup_insert_ne.
Qed.

(** [name_to_new.get(x)] is the last position of [x] in the new list. *)
Lemma name_to_new_lookup (new : list str) (x : str) :
  name_to_new new !! x = Z.of_nat <$> last_index x new.
Proof.
  unfold name_to_new, dict_of, enumerate. rewrite dict_names_lookup, lookup_empty.
  by destruct (last_index x new).
Qed.

End dicts.

(** ** Lines *)

Section lines.

Lemma splitlines_from_no_linebreak (n : nat) (s cur : str) :
  (length s ≤ n)%nat →
  Forall (λ c, is_linebreak c = false) cur →
  Forall (Forall (λ c, is_linebreak c = false)) (splitlines_from cur s).
Proof.
  revert s cur. induction n as [|n IH]; intros s cur Hn Hcur.
  - destruct s; [|simpl in Hn; lia]. simpl.
    destruct cur; repeat constructor. by apply Forall_rev.
  - destruct s as [|c rest]; simpl.
    { destruct cur; repeat constructor. by apply Forall_rev. }
    simpl in Hn. destruct (is_linebreak c) eqn:Ec.
    + constructor; [by apply Forall_rev|].
      destruct (is_cr c); [|apply IH; [lia | constructor]].
      destruct rest as [|c' rest']; [by constructor|].
      simpl in Hn.
      destruct (is_lf c'); apply IH; simpl; try lia; constructor.
    + apply IH; [lia | by constructor].
Qed.

Lemma splitlines_no_linebreak (content raw : str) :
  raw ∈ splitlines content → Forall (λ c, is_linebreak c = false) raw.
Proof.
  intros H.
  assert (Forall (Forall (λ c, is_linebreak c = false)) (splitlines content)) as HF
    by (by apply (splitlines_from_no_linebreak (length content))).
  rewrite Forall_forall in HF. by apply HF.
Qed.

Lemma not_linebreak_not_lf c : is_linebreak c = false → is_lf c = false.
Proof. unfold is_linebreak, is_lf. by_code. Qed.

Lemma rstrip_lf_id (raw : str) :
  Forall (λ c, is_lf c = false) raw → rstrip_lf raw = raw.
Proof.
  intros H. unfold rstrip_lf. apply Forall_rev in H.
  rewrite <- (rev_involutive raw) at 2. f_equal.
  destruct H as [|c r Hc _]; simpl; [done|]. by rewrite Hc.
Qed.

(** [raw.rstrip('\n')] does nothing on a line given by [splitlines]. *)
Lemma rstrip_lf_splitlines (content raw : str) :
  raw ∈ splitlines content → rstrip_lf raw = raw.
Proof.
  intros H. apply rstrip_lf_id.
  eapply Forall_impl; [by eapply splitlines_no_linebreak|].
  intros c. apply not_linebreak_not_lf.
Qed.

End lines.

(** ** The remap engine, line by line *)

Lemma remap_line_rewrite (old new : list str) (raw : str)
    (outs : list str) (st : stats) (i : Z) (nm : str) (j : nat) :
  (5 ≤ length (split (rstrip_lf raw)))%nat →
  int (hd [] (split (rstrip_lf raw))) = Some i →
  0 ≤ i → old !! Z.to_nat i = Some nm →
  last_index nm new = Some j →
  remap_line (old_index_to_name old) (name_to_new new) (outs, st) raw
  = let new_line := join [SP] (str_of_int (Z.of_nat j) :: tl (split (rstrip_lf raw))) in
    (outs ++ [new_line],
     if decide (new_line ≠ rstrip_lf raw) then inc_changed (inc_lines st)
     else inc_unchanged (inc_lines st)).
Proof.
  intros Hlen Hint Hi Hnm Hj. unfold remap_line.
  destruct (decide (strip (rstrip_lf raw) = [])) as [Hb|_].
  { apply split_blank in Hb. rewrite Hb in Hlen. simpl in Hlen. lia. }
  destruct (Nat.ltb_spec (length (split (rstrip_lf raw))) 5); [lia|].
  rewrite Hint, old_index_to_name_lookup, decide_True, Hnm by done.
  rewrite name_to_new_lookup, Hj. done.
Qed.

Lemma remap_line_keep (old new : list str) (raw : str)
    (outs : list str) (st : stats) :
  strip (rstrip_lf raw) ≠ [] →
  (length (split (rstrip_lf raw)) < 5)%nat
  ∨ int (hd [] (split (rstrip_lf raw))) = None
  ∨ (∃ i, int (hd [] (split (rstrip_lf raw))) = Some i
          ∧ (i < 0 ∨ (length old ≤ Z.to_nat i)%nat))
  ∨ (∃ i nm, int (hd [] (split (rstrip_lf raw))) = Some i
          ∧ 0 ≤ i ∧ old !! Z.to_nat i = Some nm ∧ nm ∉ new) →
  remap_line (old_index_to_name old) (name_to_new new) (outs, st) raw
  = (outs ++ [rstrip_lf raw], inc_unchanged (inc_lines st)).
Proof.
  intros Hb H. unfold remap_line. rewrite decide_False by done.
  destruct (Nat.ltb_spec (length (split (rstrip_lf raw))) 5) as [|Hge]; [done|].
  destruct H as [H | [H | [(i & H & Hi) | (i & nm & H & Hi & Hnm & Hnew)]]].
  - lia.
  - by rewrite H.
  - rewrite H, old_index_to_name_lookup. destruct (decide (0 ≤ i)); [|done].
    destruct Hi as [|Hi]; [lia|]. by rewrite (lookup_ge_None_2 old) by done.
  - rewrite H, old_index_to_name_lookup, decide_True, Hnm by done.
    apply last_index_None in Hnew. by rewrite name_to_new_lookup, Hnew.
Qed.

(** C1.  A label line with at least five tokens, whose first token parses
    as an integer that is a position of the old class list, and whose name
    occurs in the new class list, is emitted as the decimal text of the last
    position of that name in the new list, followed by the original
    remaining tokens, joined by single spaces; read again, that line has
    exactly these tokens. *)
Theorem remap_valid_line_emitted (old new : list str) (raw : str)
    (outs : list str) (st : stats) (i : Z) (nm : str) :
  (5 ≤ length (split (rstrip_lf raw)))%nat →
  int (hd [] (split (rstrip_lf raw))) = Some i →
  0 ≤ i → old !! Z.to_nat i = Some nm →
  nm ∈ new →
  ∃ j : nat,
    new !! j = Some nm ∧ (∀ k, new !! k = Some nm → (k ≤ j)%nat) ∧
    (remap_line (old_index_to_name old) (name_to_new new) (outs, st) raw).1
    = outs ++ [join [SP] (str_of_int (Z.of_nat j) :: tl (split (rstrip_lf raw)))] ∧
    split (join [SP] (str_of_int (Z.of_nat j) :: tl (split (rstrip_lf raw))))
    = str_of_int (Z.of_nat j) :: tl (split (rstrip_lf raw)).
Proof.
  intros Hlen Hint Hi Hnm Hnew.
  destruct (last_index_elem nm new Hnew) as [j Hj].
  destruct (last_index_Some _ _ _ Hj) as [H1 H2].
  exists j. repeat split; [done..| |].
  - by rewrite (remap_line_rewrite old new raw outs st i nm j).
  - apply split_join. constructor; [apply str_of_int_token|].
    pose proof (split_tokens (rstrip_lf raw)) as HT.
    destruct (split (rstrip_lf raw)); [constructor|]. by inversion HT.
Qed.

Lemma remap_valid_line_emitted_witness :
  ∃ j : nat,
    [txt "dog"; txt "bird"; txt "cat"] !! j = Some (txt "bird") ∧
    (∀ k, [txt "dog"; txt "bird"; txt "cat"] !! k = Some (txt "bird") → (k ≤ j)%nat) ∧
    (remap_line (old_index_to_name [txt "cat"; txt "dog"; txt "bird"])
       (name_to_new [txt "dog"; txt "bird"; txt "cat"]) ([], stats0)
       (txt "2 0.1 0.2  0.3 0.4")).1
    = [] ++ [join [SP] (str_of_int (Z.of_nat j)
                         :: tl (split (rstrip_lf (txt "2 0.1 0.2  0.3 0.4"))))] ∧
    split (join [SP] (str_of_int (Z.of_nat j)
                       :: tl (split (rstrip_lf (txt "2 0.1 0.2  0.3 0.4")))))
    = str_of_int (Z.of_nat j) :: tl (split (rstrip_lf (txt "2 0.1 0.2  0.3 0.4"))).
Proof.
  apply (remap_valid_line_emitted [txt "cat"; txt "dog"; txt "bird"]
           [txt "dog"; txt "bird"; txt "cat"] (txt "2 0.1 0.2  0.3 0.4")
           [] stats0 2 (txt "bird")).
  - vm_compute. lia.
  - reflexivity.
  - lia.
  - reflexivity.
  - apply list_elem_of_In. simpl. auto.
Defined.

(** C2.  A non-blank line of a label file that fails one of the validity
    conditions (fewer than five tokens, first token not an integer, index
    without a name in the old list, name absent from the new list) is
    emitted exactly as it was read, and counted as unchanged. *)
Theorem remap_invalid_line_kept (old new : list str) (content raw : str)
    (outs : list str) (st : stats) :
  raw ∈ splitlines content →
  strip raw ≠ [] →
  (length (split raw) < 5)%nat
  ∨ int (hd [] (split raw)) = None
  ∨ (∃ i, int (hd [] (split raw)) = Some i
          ∧ (i < 0 ∨ (length old ≤ Z.to_nat i)%nat))
  ∨ (∃ i nm, int (hd [] (split raw)) = Some i
          ∧ 0 ≤ i ∧ old !! Z.to_nat i = Some nm ∧ nm ∉ new) →
  remap_line (old_index_to_name old) (name_to_new new) (outs, st) raw
  = (outs ++ [raw], inc_unchanged (inc_lines st)).
Proof.
  intros Hraw Hb H.
  pose proof (rstrip_lf_splitlines _ _ Hraw) as E.
  rewrite <- E at 2. apply remap_line_keep; by rewrite E.
Qed.

Lemma remap_invalid_line_kept_witness :
  remap_line (old_index_to_name [txt "cat"; txt "dog"; txt "bird"])
    (name_to_new [txt "dog"; txt "cat"]) ([], stats0) (txt "2  0.1 0.2 0.3 0.4")
  = ([] ++ [txt "2  0.1 0.2 0.3 0.4"], inc_unchanged (inc_lines stats0)).
Proof.
  apply (remap_invalid_line_kept [txt "cat"; txt "dog"; txt "bird"]
           [txt "dog"; txt "cat"]
           (txt "0 1 2 3 4" ++ [LF] ++ txt "2  0.1 0.2 0.3 0.4" ++ [LF])).
  - apply list_elem_of_In. vm_compute. auto.
  - vm_compute. discriminate.
  - right. right. right. exists 2, (txt "bird").
    split; [reflexivity|]. split; [lia|]. split; [reflexivity|].
    intros H. apply list_elem_of_In in H. vm_compute in H.
    destruct H as [H|[H|[]]]; discriminate H.
Defined.

(** ** The counters *)

Section counters.

Lemma bind_unfold {A B} (m : io A) (f : A → io B) (σ : fs) :
  (m ≫= f) σ
  = match m σ with
    | (σ', inr x) => f x σ'
    | (σ', inl e) => (σ', inl e)
    end.
Proof. reflexivity. Qed.

(** A blank line is skipped; any other line adds one to [lines] and one to
    exactly one of [changed] and [unchanged]. *)
Lemma remap_line_counts (d_old : gmap Z str) (d_new : gmap str Z)
    (outs : list str) (st : stats) (raw : str) :
  let r := remap_line d_old d_new (outs, st) raw in
  if decide (strip (rstrip_lf raw) = []) then r = (outs, st)
  else
    files r.2 = files st ∧ lines r.2 = S (lines st) ∧
    (changed r.2 = S (changed st) ∧ unchanged r.2 = unchanged st
     ∨ changed r.2 = changed st ∧ unchanged r.2 = S (unchanged st)).
Proof.
  unfold remap_line. destruct (decide (strip (rstrip_lf raw) = [])); [done|].
  repeat (case_match; simpl; try (split; [done|]; auto)).
  all: repeat split; auto.
Qed.

Lemma remap_line_balanced (d_old : gmap Z str) (d_new : gmap str Z)
    (acc : list str * stats) (raw : str) :
  balanced acc.2 → balanced (remap_line d_old d_new acc raw).2.
Proof.
  destruct acc as [outs st]. unfold balanced. intros H.
  pose proof (remap_line_counts d_old d_new outs st raw) as Hc.
  cbv zeta in Hc. simpl in H.
  destruct (remap_line d_old d_new (outs, st) raw) as [outs' st'].
  destruct (decide (strip (rstrip_lf raw) = [])).
  - by injection Hc as -> ->.
  - simpl in *. destruct Hc as (_ & Hl & [[Hch Hun] | [Hch Hun]]); lia.
Qed.

Lemma remap_lines_balanced (d_old : gmap Z str) (d_new : gmap str Z)
    (raws : list str) (acc : list str * stats) :
  balanced acc.2 → balanced (foldl (remap_line d_old d_new) acc raws).2.
Proof.
  revert acc. induction raws as [|raw raws IH]; intros acc H; simpl; [done|].
  apply IH. by apply remap_line_balanced.
Qed.

Lemma remap_file_balanced (labels_dir out_dir : path)
    (d_old : gmap Z str) (d_new : gmap str Z) (st st' : stats) (f : str) (σ : fs) :
  balanced st →
  (remap_file labels_dir out_dir d_old d_new st f σ).2 = inr st' →
  balanced st'.
Proof.
  intros Hst. unfold remap_file. rewrite bind_unfold. simpl.
  case_match; [by intros [= <-]|].
  rewrite bind_unfold. destruct (read_text _ σ) as [σ1 [e|content]]; [done|].
  pose proof (remap_lines_balanced d_old d_new (splitlines content)
                ([], inc_files st) Hst) as Hb.
  destruct (foldl _ _ _) as [out_lines st1]. rewrite bind_unfold.
  destruct (write_text _ _ σ1) as [σ2 [e|[]]]; [done|].
  by intros [= <-].
Qed.

Lemma remap_files_balanced (labels_dir out_dir : path)
    (d_old : gmap Z str) (d_new : gmap str Z) (names : list str)
    (st st' : stats) (σ : fs) :
  balanced st →
  (remap_files labels_dir out_dir d_old d_new st names σ).2 = inr st' →
  balanced st'.
Proof.
  revert st σ. induction names as [|f names IH]; intros st σ Hst; simpl.
  - by intros [= <-].
  - rewrite bind_unfold.
    destruct (remap_file _ _ _ _ st f σ) as [σ1 [e|st1]] eqn:E; [done|].
    apply IH. eapply remap_file_balanced; [exact Hst|]. by rewrite E.
Qed.

End counters.

(** ** Second passes over emitted lines *)

Section passes.

Lemma space_not_lf c : is_space c = false → is_lf c = false.
Proof. unfold is_space, is_lf. by_code. Qed.

Lemma join_tokens_no_lf (toks : list str) :
  Forall token toks → Forall (λ c, is_lf c = false) (join [SP] toks).
Proof.
  induction 1 as [|t toks [_ Ht] _ IH]; [constructor|].
  assert (Forall (λ c, is_lf c = false) t) as Ht'.
  { eapply Forall_impl; [exact Ht|]. intros c. apply space_not_lf. }
  destruct toks as [|t' toks']; [done|].
  change (join [SP] (t :: t' :: toks')) with (t ++ SP :: join [SP] (t' :: toks')).
  apply Forall_app. split; [done|]. by constructor.
Qed.


Lemma tl_split_tokens (s : str) : Forall token (tl (split s)).
Proof.
  pose proof (split_tokens s) as HT.
  destruct (split s); [constructor|]. by inversion HT.
Qed.

(** What a second pass does to a line built by the rewriting branch. *)
Lemma remap_line_rebuilt (old new : list str) (j : nat) (toks : list str)
    (nm : str) (k : nat) (outs : list str) (st : stats) :
  Forall token toks → (4 ≤ length toks)%nat →
  old !! j = Some nm → last_index nm new = Some k →
  remap_line (old_index_to_name old) (name_to_new new) (outs, st)
    (join [SP] (str_of_int (Z.of_nat j) :: toks))
  = let new_line := join [SP] (str_of_int (Z.of_nat k) :: toks) in
    (outs ++ [new_line],
     if decide (new_line ≠ join [SP] (str_of_int (Z.of_nat j) :: toks))
     then inc_changed (inc_lines st) else inc_unchanged (inc_lines st)).
Proof.
  intros Htoks Hlen Hnm Hk.
  assert (Forall token (str_of_int (Z.of_nat j) :: toks)) as HT
    by (constructor; [apply str_of_int_token | done]).
  pose proof (rstrip_lf_id _ (join_tokens_no_lf _ HT)) as E.
  pose proof (split_join _ HT) as Es.
  rewrite (remap_line_rewrite old new _ outs st (Z.of_nat j) nm k).
  - by rewrite E, Es.
  - rewrite E, Es. simpl. lia.
  - rewrite E, Es. simpl. apply int_str_of_int.
  - lia.
  - by rewrite Nat2Z.id.
  - done.
Qed.

(** A line counted as changed went through the rewriting branch. *)
Lemma counted_changed_valid (old new : list str) (raw : str) :
  counted_changed old new raw → valid_line old new raw.
Proof.
  unfold counted_changed, valid_line, remap_line.
  destruct (decide (strip (rstrip_lf raw) = [])); [done|].
  destruct (Nat.ltb_spec (length (split (rstrip_lf raw))) 5); [done|].
  destruct (int (hd [] (split (rstrip_lf raw)))) as [i|] eqn:Ei; [|done].
  rewrite old_index_to_name_lookup.
  destruct (decide (0 ≤ i)); [|done].
  destruct (old !! Z.to_nat i) as [nm|] eqn:Enm; [|done].
  rewrite name_to_new_lookup.
  destruct (last_index nm new) as [j|] eqn:Ej; [|done].
  intros _. exists i, nm. repeat split; try done.
  apply last_index_Some in Ej as [Ej _]. apply list_elem_of_lookup. eauto.
Qed.

Lemma emitted_valid (old new : list str) (raw : str) :
  valid_line old new raw →
  ∃ (i : Z) (nm : str) (j : nat),
    (5 ≤ length (split (rstrip_lf raw)))%nat ∧
    int (hd [] (split (rstrip_lf raw))) = Some i ∧ 0 ≤ i ∧
    old !! Z.to_nat i = Some nm ∧ new !! j = Some nm ∧
    last_index nm new = Some j ∧
    emitted old new raw
    = Some (join [SP] (str_of_int (Z.of_nat j) :: tl (split (rstrip_lf raw)))).
Proof.
  intros (i & nm & Hlen & Hint & Hi & Hnm & Hnew).
  destruct (last_index_elem nm new Hnew) as [j Hj].
  exists i, nm, j. repeat split; try done.
  - by apply last_index_Some in Hj as [? _].
  - unfold emitted.
    by rewrite (remap_line_rewrite old new raw [] stats0 i nm j).
Qed.


End passes.

(** ** The file system operations *)

Section fs_steps.

Lemma parent_child (p : path) (n : str) : parent (child p n) = p.
Proof.
  unfold parent, child. rewrite length_app. simpl.
  replace (length p + 1 - 1)%nat with (length p) by lia.
  by rewrite take_app_length.
Qed.

Lemma child_ne (p : path) (n : str) : p ≠ child p n.
Proof.
  intros E. apply (f_equal length) in E. unfold child in E.
  rewrite length_app in E. simpl in E. lia.
Qed.

Lemma mkdir_from_unchanged (rest pre : path) (σ σ1 : fs) (r : exn + unit) (p : path) :
  mkdir_from pre rest σ = (σ1, r) →
  is_Some (σ !! p) ∨ ¬ p `prefix_of` pre ++ rest →
  σ1 !! p = σ !! p.
Proof.
  revert pre σ. induction rest as [|c rest IH]; intros pre σ; simpl.
  - destruct (σ !! pre) as [[data|]|] eqn:E; intros [= <- <-] Hp; try done.
    apply lookup_insert_ne. intros <-. destruct Hp as [[n Hn]|Hp].
    + congruence.
    + apply Hp. by rewrite app_nil_r.
  - destruct (σ !! pre) as [[data|]|] eqn:E; [by intros [= <- <-]| |].
    + intros H Hp. apply (IH _ _ H). by rewrite <- app_assoc.
    + intros H Hp. rewrite (IH _ _ H).
      * apply lookup_insert_ne. intros <-. destruct Hp as [[n Hn]|Hp]; [congruence|].
        apply Hp. by apply prefix_app_r.
      * rewrite <- app_assoc. destruct Hp as [[n Hn]|Hp]; [left|by right].
        rewrite lookup_insert_ne; [by eexists|]. intros <-. congruence.
Qed.

(** A successful [mkdir] leaves a directory at the path and at each of its
    ancestors from [pre] on. *)
Lemma mkdir_from_dirs (rest pre : path) (σ σ1 : fs) (q : path) :
  mkdir_from pre rest σ = (σ1, inr tt) →
  pre `prefix_of` q → q `prefix_of` pre ++ rest →
  σ1 !! q = Some Dir.
Proof.
  revert pre σ. induction rest as [|c rest IH]; intros pre σ; simpl.
  - intros H Hq1 Hq2. rewrite app_nil_r in Hq2.
    assert (q = pre) as -> by (by apply (anti_symm list.prefix)).
    destruct (σ !! pre) as [[data|]|] eqn:E; try done; injection H as <-; [done|].
    apply lookup_insert_eq.
  - intros H Hq1 Hq2.
    assert (∃ σ', mkdir_from (pre ++ [c]) rest σ' = (σ1, inr tt)
                  ∧ σ' !! pre = Some Dir) as (σ' & H' & Hpre).
    { destruct (σ !! pre) as [[data|]|] eqn:E; [done| |]; eexists; split; try exact H; try done.
      apply lookup_insert_eq. }
    destruct (decide (q = pre)) as [->|Hne].
    + rewrite (mkdir_from_unchanged _ _ _ _ _ pre H'); [done|]. left. by eexists.
    + apply (IH _ _ H'); [|by rewrite <- app_assoc].
      destruct Hq1 as [k ->]. destruct k as [|c' k]; [by rewrite app_nil_r in Hne|].
      destruct Hq2 as [k' Hk']. rewrite <- !app_assoc in Hk'.
      apply app_inv_head in Hk'. simpl in Hk'. injection Hk' as -> _.
      exists k. by rewrite <- app_assoc.
Qed.

Lemma relocate_Some (src dst : path) (kv r : path * node) :
  relocate src dst kv = Some r →
  ∃ rel, kv.1 = src ++ rel ∧ r = (dst ++ rel, kv.2).
Proof.
  unfold relocate. destruct (decide _) as [E|]; [|done]. intros [= <-].
  exists (drop (length src) kv.1). split; [|done].
  by rewrite <- E at 1; rewrite take_drop.
Qed.

Lemma relocate_app (src dst rel : path) (n : node) :
  relocate src dst (src ++ rel, n) = Some (dst ++ rel, n).
Proof.
  unfold relocate. simpl. rewrite take_app_length, decide_True by done.
  by rewrite drop_app_length.
Qed.

Lemma relocated_lookup_None (src dst : path) (σ : fs) (p : path) :
  ¬ dst `prefix_of` p →
  (list_to_map (omap (relocate src dst) (map_to_list σ)) : fs) !! p = None.
Proof.
  intros Hp. apply not_elem_of_list_to_map_1. intros H.
  apply list_elem_of_fmap in H as ([p' n] & -> & H).
  apply list_elem_of_omap in H as (kv & _ & H).
  apply relocate_Some in H as (rel & _ & [= -> _]).
  apply Hp. by exists rel.
Qed.

Lemma relocated_lookup_Some (src dst : path) (σ : fs) (rel : path) (n : node) :
  σ !! (src ++ rel) = Some n →
  (list_to_map (omap (relocate src dst) (map_to_list σ)) : fs) !! (dst ++ rel) = Some n.
Proof.
  intros H. apply elem_of_list_to_map_1'.
  - intros n' H'. apply list_elem_of_omap in H' as ([k m] & Hkm & H').
    apply relocate_Some in H' as (rel' & Hk & [= Hrel ->]). simpl in *.
    apply app_inv_head in Hrel. subst rel' k.
    apply elem_of_map_to_list in Hkm. congruence.
  - apply list_elem_of_omap. exists (src ++ rel, n). split.
    + by apply elem_of_map_to_list.
    + apply relocate_app.
Qed.

Lemma copytree_unchanged (src dst : path) (σ : fs) (p : path) :
  ¬ dst `prefix_of` p → (copytree src dst σ).1 !! p = σ !! p.
Proof.
  intros Hp. unfold copytree. simpl.
  by rewrite lookup_union_r by by apply relocated_lookup_None.
Qed.

Lemma copytree_copies (src dst : path) (σ : fs) (rel : path) (n : node) :
  σ !! (src ++ rel) = Some n → (copytree src dst σ).1 !! (dst ++ rel) = Some n.
Proof.
  intros H. unfold copytree. simpl.
  apply lookup_union_Some_l. by apply relocated_lookup_Some.
Qed.

Lemma write_text_unchanged (q : path) (data : str) (σ : fs) (p : path) :
  p ≠ q → (write_text q data σ).1 !! p = σ !! p.
Proof.
  intros Hp. unfold write_text.
  destruct (σ !! q) as [[c|]|]; try done;
    destruct (is_dir σ (parent q)); simpl; try done;
    by rewrite lookup_insert_ne.
Qed.

Lemma read_text_fs (q : path) (σ : fs) : (read_text q σ).1 = σ.
Proof. unfold read_text. by destruct (σ !! q) as [[c|]|]. Qed.

Lemma read_classes_fs (q : path) (σ : fs) : (read_classes q σ).1 = σ.
Proof.
  unfold read_classes. rewrite bind_unfold.
  pose proof (read_text_fs q σ) as H.
  by destruct (read_text q σ) as [σ' [e|s]]; simpl in *; subst.
Qed.

Lemma read_classes_missing (q : path) (σ : fs) :
  is_file σ q = false → ∃ e, read_classes q σ = (σ, inl e).
Proof.
  unfold is_file, read_classes, read_text. rewrite bind_unfold.
  destruct (σ !! q) as [[c|]|]; [done|..]; by eexists.
Qed.

Lemma remap_file_unchanged (labels_dir out_dir : path)
    (d_old : gmap Z str) (d_new : gmap str Z) (st : stats) (f : str)
    (σ : fs) (p : path) :
  p ≠ child out_dir f →
  (remap_file labels_dir out_dir d_old d_new st f σ).1 !! p = σ !! p.
Proof.
  intros Hp. unfold remap_file. rewrite bind_unfold. simpl.
  case_match; [done|]. rewrite bind_unfold.
  pose proof (read_text_fs (child labels_dir f) σ) as Hr.
  destruct (read_text _ σ) as [σ1 [e|content]]; simpl in Hr; subst σ1; [done|].
  destruct (foldl _ _ _) as [out_lines st1]. rewrite bind_unfold.
  pose proof (write_text_unchanged (child out_dir f) (file_text out_lines) σ p Hp) as Hw.
  by destruct (write_text _ _ σ) as [σ2 [e|[]]].
Qed.

Lemma remap_files_unchanged (labels_dir out_dir : path)
    (d_old : gmap Z str) (d_new : gmap str Z) (names : list str) (st : stats)
    (σ : fs) (p : path) :
  (∀ f, p ≠ child out_dir f) →
  (remap_files labels_dir out_dir d_old d_new st names σ).1 !! p = σ !! p.
Proof.
  intros Hp. revert st σ. induction names as [|f names IH]; intros st σ; simpl; [done|].
  rewrite bind_unfold.
  pose proof (remap_file_unchanged labels_dir out_dir d_old d_new st f σ p (Hp f)) as Hf.
  destruct (remap_file _ _ _ _ st f σ) as [σ1 [e|st1]]; [done|].
  by rewrite IH.
Qed.

End fs_steps.

(** ** Whole files: the second run reads what the first run wrote *)

Section texts.

Lemma linebreak_is_space c : is_linebreak c = true → is_space c = true.
Proof. unfold is_linebreak, is_space. by_code. Qed.

Lemma not_linebreak_not_cr c : is_linebreak c = false → is_cr c = false.
Proof. unfold is_linebreak, is_cr. by_code. Qed.

Lemma join_tokens_plain (toks : list str) :
  toks ≠ [] → Forall token toks → plain_line (join [SP] toks).
Proof.
  intros Hne HT. split.
  - destruct HT as [|t toks [Ht _] _]; [done|].
    destruct toks; simpl; [done|]. by destruct t.
  - clear Hne. induction HT as [|t toks [_ Ht] _ IH]; [constructor|].
    assert (Forall (λ c, is_linebreak c = false) t) as Ht'.
    { eapply Forall_impl; [exact Ht|]. intros c Hc.
      destruct (is_linebreak c) eqn:E; [|done].
      apply linebreak_is_space in E. congruence. }
    destruct toks as [|t' toks']; [done|].
    change (join [SP] (t :: t' :: toks')) with (t ++ SP :: join [SP] (t' :: toks')).
    apply Forall_app. split; [done|]. by constructor.
Qed.

Lemma remap_line_emitted (old new : list str) (outs : list str) (st : stats)
    (raw : str) :
  (remap_line (old_index_to_name old) (name_to_new new) (outs, st) raw).1
  = outs ++ option_list (emitted old new raw).
Proof.
  unfold emitted, remap_line.
  repeat (case_match; simpl; rewrite ?app_nil_r; try done).
Qed.

Lemma remap_lines_emitted (old new : list str) (raws : list str)
    (acc : list str * stats) :
  (foldl (remap_line (old_index_to_name old) (name_to_new new)) acc raws).1
  = acc.1 ++ omap (emitted old new) raws.
Proof.
  revert acc. induction raws as [|raw raws IH]; intros [outs st].
  - simpl. by rewrite app_nil_r.
  - cbn [foldl omap list_omap]. rewrite IH, remap_line_emitted.
    cbn [fst]. destruct (emitted old new raw); simpl; by rewrite <- app_assoc.
Qed.

(** Every line emitted for a line of a file is a plain line. *)
Lemma emitted_plain (old new : list str) (content raw ln1 : str) :
  raw ∈ splitlines content → emitted old new raw = Some ln1 → plain_line ln1.
Proof.
  intros Hraw. pose proof (splitlines_no_linebreak _ _ Hraw) as Hlb.
  pose proof (rstrip_lf_splitlines _ _ Hraw) as Er.
  assert (strip raw ≠ [] → plain_line raw) as Hkeep.
  { intros Hb. split; [|done]. intros ->. by apply Hb. }
  unfold emitted, remap_line. rewrite Er.
  destruct (decide (strip raw = [])); [done|].
  repeat case_match; cbn -[join];
    (match goal with
     | |- Some ?x = Some ln1 → _ =>
         intros E; assert (x = ln1) as <- by congruence; clear E
     end); auto.
  all: apply join_tokens_plain; [done|].
  all: constructor; [apply str_of_int_token | apply tl_split_tokens].
Qed.

Lemma universal_newlines_id (s : str) :
  Forall (λ c, is_cr c = false) s → universal_newlines s = s.
Proof. induction 1 as [|c s Hc _ IH]; simpl; [done|]. by rewrite Hc, IH. Qed.

Lemma splitlines_from_plain (l cur s : str) :
  Forall (λ c, is_linebreak c = false) l →
  splitlines_from cur (l ++ s) = splitlines_from (rev l ++ cur) s.
Proof.
  intros Hl. revert cur. induction Hl as [|c l Hc _ IH]; intros cur; simpl; [done|].
  rewrite Hc, IH. by rewrite <- app_assoc.
Qed.

Lemma file_text_lines (outs : list str) :
  file_text outs = concat (map (λ l, l ++ [LF]) outs).
Proof.
  unfold file_text. destruct outs as [|l outs]; [done|].
  revert l. induction outs as [|l' outs IH]; intros l.
  { simpl. by rewrite app_nil_r. }
  change (join [LF] (l :: l' :: outs)) with (l ++ LF :: join [LF] (l' :: outs)).
  change (concat (map (λ l, l ++ [LF]) (l :: l' :: outs)))
    with ((l ++ [LF]) ++ concat (map (λ l, l ++ [LF]) (l' :: outs))).
  rewrite <- (IH l'), <- !app_assoc. done.
Qed.

(** The output file of a run, read back, gives the lines that were written. *)
Lemma splitlines_file_text (outs : list str) :
  Forall plain_line outs →
  splitlines (universal_newlines (file_text outs)) = outs.
Proof.
  intros H. rewrite universal_newlines_id.
  - rewrite file_text_lines. unfold splitlines.
    induction H as [|l outs [Hne Hl] _ IH]; [done|].
    simpl. rewrite <- app_assoc, splitlines_from_plain by done. simpl.
    rewrite app_nil_r, rev_involutive. by rewrite IH.
  - rewrite file_text_lines. induction H as [|l outs [_ Hl] _ IH]; [constructor|].
    simpl. rewrite <- app_assoc. apply Forall_app. split.
    + eapply Forall_impl; [exact Hl|]. intros c. apply not_linebreak_not_cr.
    + by constructor.
Qed.



(** The loop round of a label file writes [remap_text] of what it read. *)
Lemma remap_file_writes_text (labels_dir out_dir : path) (old new : list str)
    (st : stats) (f : str) (σ : fs) (c : str) :
  σ !! child labels_dir f = Some (File c) →
  lower (suffix f) = txt ".txt" →
  is_dir σ out_dir = true →
  σ !! child out_dir f ≠ Some Dir →
  (remap_file labels_dir out_dir (old_index_to_name old) (name_to_new new)
     st f σ).1
  = <[child out_dir f := File (remap_text old new (universal_newlines c)).1]> σ.
Proof.
  intros Hf Hsuf Hout Hnd. unfold remap_file. rewrite bind_unfold. simpl.
  unfold is_file. rewrite Hf, bool_decide_true by done. simpl.
  rewrite bind_unfold. unfold read_text at 1. rewrite Hf.
  pose proof (remap_lines_emitted old new (splitlines (universal_newlines c))
                ([], inc_files st)) as E1.
  pose proof (remap_lines_emitted old new (splitlines (universal_newlines c))
                ([], stats0)) as E2.
  unfold remap_text. cbn [fst]. rewrite E2.
  destruct (foldl _ ([], inc_files st) _) as [out_lines st1].
  simpl in E1. subst out_lines.
  rewrite bind_unfold. unfold write_text.
  assert (parent (child out_dir f) = out_dir) as -> by apply parent_child.
  rewrite Hout. by destruct (σ !! child out_dir f) as [[c'|]|].
Qed.

End texts.

(** ** Idempotence and round trip *)




(** The old list names class "a" twice and both lists hold the same names:
    index 0 becomes 1 in the forward run and 2, not 0, in the run back. *)
Lemma remap_round_trip_duplicate :
  let old := [txt "a"; txt "b"; txt "a"] in
  let new := [txt "b"; txt "a"] in
  let σ0 := sample_fs old new [txt "0 x x x x"] in
  let run1 := remap_by_name p_labels p_out p_old p_new false σ0 in
  let run2 := remap_by_name p_out p_back p_new p_old false run1.1 in
  (∀ n, n ∈ old ↔ n ∈ new) ∧
  run1.2 = inr (Stats 1 1 1 0) ∧
  run1.1 !! child p_out (txt "a.txt") = Some (File (nl [txt "1 x x x x"])) ∧
  run2.1 !! child p_back (txt "a.txt") = Some (File (nl [txt "2 x x x x"])) ∧
  counted_changed old new (txt "0 x x x x") ∧
  ¬ round_trip_restores old new (txt "0 x x x x").
Proof.
  cbv zeta. split; [|split; [|split; [|split; [|split]]]].
  - intros n. rewrite !elem_of_cons, !elem_of_nil. tauto.
  - vm_compute. reflexivity.
  - vm_compute. reflexivity.
  - vm_compute. reflexivity.
  - vm_compute. reflexivity.
  - intros (ln1 & ln2 & H1 & H2 & H3 & _).
    vm_compute in H1. injection H1 as <-.
    vm_compute in H2. injection H2 as <-.
    vm_compute in H3. discriminate H3.
Qed.

(** C7 (amended).  When the old class list has no duplicate name and both
    lists hold the same names, remapping from old to new and then back from
    new to old restores the class index, and keeps the remaining tokens, of
    every line that the forward pass changed. *)
Theorem remap_round_trip (old new : list str) (raw : str) :
  NoDup old → (∀ n, n ∈ old ↔ n ∈ new) →
  counted_changed old new raw →
  round_trip_restores old new raw.
Proof.
  intros Hnd _ Hch. apply counted_changed_valid in Hch.
  destruct (emitted_valid _ _ _ Hch)
    as (i & nm & j & Hlen & Hint & Hi & Hnm & Hj & Hlast & E).
  pose proof (tl_split_tokens (rstrip_lf raw)) as HT.
  assert (4 ≤ length (tl (split (rstrip_lf raw))))%nat as Hlen'.
  { destruct (split (rstrip_lf raw)); simpl in *; lia. }
  assert (Forall token (str_of_int i :: tl (split (rstrip_lf raw)))) as HT'
    by (constructor; [apply str_of_int_token | done]).
  eexists _, (join [SP] (str_of_int i :: tl (split (rstrip_lf raw)))).
  split; [exact E|]. split; [|split].
  - unfold emitted.
    rewrite (remap_line_rebuilt new old j _ nm (Z.to_nat i)); try done.
    + cbv zeta. by rewrite Z2Nat.id.
    + by apply last_index_NoDup.
  - unfold class_index. rewrite split_join by done. simpl.
    by rewrite int_str_of_int.
  - by rewrite split_join.
Qed.

Lemma remap_round_trip_witness :
  round_trip_restores [txt "cat"; txt "dog"; txt "bird"]
    [txt "dog"; txt "bird"; txt "cat"] (txt "2 0.1 0.2 0.3 0.4").
Proof.
  apply remap_round_trip.
  - apply (bool_decide_unpack _). vm_compute. exact I.
  - intros n. rewrite !elem_of_cons, !elem_of_nil. tauto.
  - reflexivity.
Defined.

(** ** What a run writes *)

Section frame.

Lemma mkdir_parents_unchanged (out_dir : path) (σ σ1 : fs) (r : exn + unit) (p : path) :
  mkdir_parents out_dir σ = (σ1, r) →
  is_Some (σ !! p) ∨ ¬ p `prefix_of` out_dir →
  σ1 !! p = σ !! p.
Proof. intros H Hp. by apply (mkdir_from_unchanged out_dir [] σ σ1 r). Qed.

(** The backup step (lines 46 to 52). *)
Lemma backup_step_unchanged (labels_dir : path) (create_backup : bool)
    (σ1 : fs) (p : path) :
  ¬ (create_backup = true ∧ σ1 !! backup_dir_of labels_dir = None
     ∧ backup_dir_of labels_dir `prefix_of` p) →
  ((if create_backup then
      σ ← get_fs;
      if negb (exists_ σ (backup_dir_of labels_dir))
      then copytree labels_dir (backup_dir_of labels_dir)
      else mret tt
    else mret tt) σ1).1 !! p = σ1 !! p.
Proof.
  intros Hp. destruct create_backup; [|done].
  rewrite bind_unfold. simpl. unfold exists_.
  destruct (σ1 !! backup_dir_of labels_dir) eqn:E; simpl; [done|].
  apply copytree_unchanged. intros Hpre. by apply Hp.
Qed.

Lemma backup_step_ok (labels_dir : path) (create_backup : bool) (σ1 : fs) :
  ∃ σ2, (if create_backup then
           σ ← get_fs;
           if negb (exists_ σ (backup_dir_of labels_dir))
           then copytree labels_dir (backup_dir_of labels_dir)
           else mret tt
         else mret tt) σ1 = (σ2, inr tt).
Proof.
  destruct create_backup; [|by eexists].
  rewrite bind_unfold. simpl. destruct (negb _); by eexists.
Qed.

(** Outside the region a run may write, the file system is as before,
    whether the run returns or raises. *)
Lemma remap_by_name_frame
    (labels_dir out_dir old_classes_path new_classes_path : path)
    (create_backup : bool) (σ : fs) (p : path) :
  ¬ written_region labels_dir out_dir create_backup σ p →
  (remap_by_name labels_dir out_dir old_classes_path new_classes_path
     create_backup σ).1 !! p = σ !! p.
Proof.
  intros HW. unfold written_region in HW.
  assert (∀ f, p ≠ child out_dir f) as Hout by (intros f ->; apply HW; eauto).
  unfold remap_by_name. rewrite bind_unfold. simpl.
  case_match; [done|].
  rewrite bind_unfold.
  destruct (mkdir_parents out_dir σ) as [σ1 r1] eqn:Emk.
  assert (∀ q, is_Some (σ !! q) ∨ ¬ q `prefix_of` out_dir → σ1 !! q = σ !! q) as H1
    by (intros q; by apply mkdir_parents_unchanged with r1).
  assert (σ1 !! p = σ !! p) as Hp1.
  { apply H1. destruct (σ !! p) eqn:E; [left; by eexists|].
    right. intros Hpre. apply HW. auto. }
  destruct r1 as [e|[]]; [done|].
  rewrite bind_unfold.
  pose proof (backup_step_unchanged labels_dir create_backup σ1 p) as H2.
  destruct (backup_step_ok labels_dir create_backup σ1) as [σ2 E2].
  rewrite E2 in H2 |- *. simpl in H2.
  assert (σ2 !! p = σ !! p) as Hp2.
  { rewrite H2; [done|]. intros (Hb & Hnone & Hpre). apply HW. right. right.
    repeat split; [done| |done].
    destruct (σ !! backup_dir_of labels_dir) eqn:E; [|done].
    rewrite H1 in Hnone; [congruence|]. left. by eexists. }
  rewrite bind_unfold.
  pose proof (read_classes_fs old_classes_path σ2) as Hro.
  destruct (read_classes old_classes_path σ2) as [σ3 [e|old]];
    simpl in Hro; subst σ3; [done|].
  rewrite bind_unfold.
  pose proof (read_classes_fs new_classes_path σ2) as Hrn.
  destruct (read_classes new_classes_path σ2) as [σ4 [e|new]];
    simpl in Hrn; subst σ4; [done|].
  rewrite bind_unfold. simpl. rewrite bind_unfold.
  pose proof (remap_files_unchanged labels_dir out_dir (old_index_to_name old)
                (name_to_new new) (sorted (listdir σ2 labels_dir)) stats0 σ2 p Hout) as H5.
  destruct (remap_files _ _ _ _ _ _ σ2) as [σ5 [e|st5]]; simpl in H5;
    [simpl; congruence|].
  rewrite bind_unfold.
  pose proof (write_text_unchanged (child out_dir (txt "classes_mapped.txt"))
                (join [LF] new ++ [LF]) σ5 p (Hout _)) as H6.
  destruct (write_text _ _ σ5) as [σ6 [e|[]]]; simpl in *; congruence.
Qed.

Lemma backup_dir_not_above_child (labels_dir : path) (f : str) :
  backup_dir_of labels_dir `prefix_of` child labels_dir f →
  child labels_dir f = backup_dir_of labels_dir.
Proof.
  unfold backup_dir_of, child, parent, name.
  destruct labels_dir as [|x l _] using rev_ind.
  - simpl. intros [k Hk]. destruct k; [done|]. discriminate Hk.
  - rewrite last_snoc, length_app. simpl.
    replace (length l + 1 - 1)%nat with (length l) by lia.
    rewrite take_app_length. intros [k Hk].
    rewrite <- !app_assoc in Hk. apply app_inv_head in Hk. simpl in Hk.
    injection Hk as Hk _. apply (f_equal length) in Hk.
    rewrite length_app in Hk. simpl in Hk. lia.
Qed.

End frame.

(** With the label directory itself as output directory, the run replaces
    the label file by its remapped text. *)
Lemma remap_overwrites_source :
  let σ0 := sample_fs [txt "cat"; txt "dog"; txt "bird"]
              [txt "dog"; txt "bird"; txt "cat"] [txt "2 0.1 0.2 0.3 0.4"] in
  let run := remap_by_name p_labels p_labels p_old p_new true σ0 in
  σ0 !! child p_labels (txt "a.txt") = Some (File (nl [txt "2 0.1 0.2 0.3 0.4"])) ∧
  run.2 = inr (Stats 1 1 1 0) ∧
  run.1 !! child p_labels (txt "a.txt") = Some (File (nl [txt "1 0.1 0.2 0.3 0.4"])) ∧
  ¬ source_untouched p_labels p_labels p_old p_new true σ0.
Proof.
  cbv zeta. split; [vm_compute; reflexivity|]. split; [vm_compute; reflexivity|].
  split; [vm_compute; reflexivity|].
  intros H. specialize (H (txt "a.txt") (nl [txt "2 0.1 0.2 0.3 0.4"]) eq_refl).
  vm_compute in H. discriminate H.
Qed.

(** C8 (amended).  When the output directory is not the label directory,
    every file of the label directory has its original content after the
    run, whether the run returns or raises; and the run changes nothing
    outside the entries of the output directory, the missing ancestors of
    the output directory and the backup directory it creates. *)
Theorem remap_source_untouched
    (labels_dir out_dir old_classes_path new_classes_path : path)
    (create_backup : bool) (σ : fs) :
  out_dir ≠ labels_dir →
  source_untouched labels_dir out_dir old_classes_path new_classes_path
    create_backup σ
  ∧ ∀ p, ¬ written_region labels_dir out_dir create_backup σ p →
      (remap_by_name labels_dir out_dir old_classes_path new_classes_path
         create_backup σ).1 !! p = σ !! p.
Proof.
  intros Hne. split; [|intros p; apply remap_by_name_frame].
  intros f c Hf. rewrite remap_by_name_frame; [done|].
  intros [(f' & E) | [(Hnone & _) | (_ & Hnone & Hpre)]].
  - apply app_inj_tail in E as [E _]. by apply Hne.
  - congruence.
  - apply backup_dir_not_above_child in Hpre. congruence.
Qed.

Lemma remap_source_untouched_witness :
  let σ0 := sample_fs [txt "cat"; txt "dog"; txt "bird"]
              [txt "dog"; txt "bird"; txt "cat"] [txt "2 0.1 0.2 0.3 0.4"] in
  source_untouched p_labels p_out p_old p_new true σ0
  ∧ ∀ p, ¬ written_region p_labels p_out true σ0 p →
      (remap_by_name p_labels p_out p_old p_new true σ0).1 !! p = σ0 !! p.
Proof.
  apply remap_source_untouched. vm_compute. discriminate.
Defined.

(** ** Class file errors *)

Section class_errors.

Lemma mkdir_parents_not_file (out_dir : path) (σ σ1 : fs) (p : path) :
  mkdir_parents out_dir σ = (σ1, inr tt) →
  is_file σ p = false → is_file σ1 p = false.
Proof.
  intros Hmk Hp. unfold is_file in *.
  destruct (decide (p `prefix_of` out_dir)) as [Hpre|Hpre].
  - rewrite (mkdir_from_dirs out_dir [] σ σ1 p Hmk); [done| |done].
    by exists p.
  - by rewrite (mkdir_parents_unchanged out_dir σ σ1 (inr tt) p Hmk) by auto.
Qed.

Lemma backup_step_copies (labels_dir : path) (σ1 : fs) :
  σ1 !! backup_dir_of labels_dir = None →
  (σ ← get_fs;
   if negb (exists_ σ (backup_dir_of labels_dir))
   then copytree labels_dir (backup_dir_of labels_dir)
   else mret tt) σ1
  = ((copytree labels_dir (backup_dir_of labels_dir) σ1).1, inr tt).
Proof. intros H. rewrite bind_unfold. simpl. unfold exists_. by rewrite H. Qed.

End class_errors.

(** With the backup directory itself as output directory and no backup
    before the run, line 44 creates the directory, line 48 finds it and
    nothing is copied: the run fails on the missing class file with an empty
    backup directory, though a backup was requested and none existed. *)
Lemma remap_class_error_without_copy :
  let σ0 := delete p_new (sample_fs [txt "cat"] [] [txt "0 1 2 3 4"]) in
  let run := remap_by_name p_labels (backup_dir_of p_labels) p_old p_new true σ0 in
  is_dir σ0 p_labels = true
  ∧ is_file σ0 p_new = false
  ∧ exists_ σ0 (backup_dir_of p_labels) = false
  ∧ σ0 !! (p_labels ++ [txt "a.txt"]) = Some (File (nl [txt "0 1 2 3 4"]))
  ∧ run.2 = inl FileNotFoundError
  ∧ is_dir run.1 (backup_dir_of p_labels) = true
  ∧ run.1 !! (backup_dir_of p_labels ++ [txt "a.txt"]) = None.
Proof. cbv zeta. repeat split; vm_compute; reflexivity. Qed.

(** C10 (amended).  When the label directory exists and the output
    directory can be created, a class file that is missing or unreadable,
    and not a path inside the backup directory, makes the run raise, and
    the file system it leaves holds the output directory and, when a backup
    is requested, none exists and the backup directory is neither the output
    directory nor one of its ancestors, the copy of the label directory in
    the backup directory: the run did write before it failed. *)
Theorem remap_class_file_error
    (labels_dir out_dir old_classes_path new_classes_path : path)
    (create_backup : bool) (σ : fs) :
  is_dir σ labels_dir = true →
  (mkdir_parents out_dir σ).2 = inr tt →
  is_file σ old_classes_path = false ∨ is_file σ new_classes_path = false →
  ¬ backup_dir_of labels_dir `prefix_of` old_classes_path →
  ¬ backup_dir_of labels_dir `prefix_of` new_classes_path →
  ∃ σ' e,
    remap_by_name labels_dir out_dir old_classes_path new_classes_path
      create_backup σ = (σ', inl e)
    ∧ is_dir σ' out_dir = true
    ∧ (exists_ σ out_dir = false → σ' ≠ σ)
    ∧ (create_backup = true →
       exists_ σ (backup_dir_of labels_dir) = false →
       ¬ backup_dir_of labels_dir `prefix_of` out_dir →
       ∀ rel n, σ !! (labels_dir ++ rel) = Some n →
                σ' !! (backup_dir_of labels_dir ++ rel) = Some n).
Proof.
  intros Hdir Hmk Hmiss Hold Hnew.
  destruct (mkdir_parents out_dir σ) as [σ1 r1] eqn:Emk. simpl in Hmk. subst r1.
  rename Emk into Hmk.
  pose proof (backup_step_unchanged labels_dir create_backup σ1) as H2.
  destruct (backup_step_ok labels_dir create_backup σ1) as [σ2 E2].
  rewrite E2 in H2. simpl in H2.
  assert (σ1 !! out_dir = Some Dir) as Hout1.
  { apply (mkdir_from_dirs out_dir [] σ σ1 out_dir Hmk); [by exists out_dir|done]. }
  assert (σ2 !! out_dir = Some Dir) as Hout2.
  { rewrite H2; [done|]. intros (_ & Hnone & Hpre).
    rewrite (mkdir_from_dirs out_dir [] σ σ1 _ Hmk) in Hnone; [done| |done].
    by eexists. }
  assert (∀ p, is_file σ p = false → ¬ backup_dir_of labels_dir `prefix_of` p →
               is_file σ2 p = false) as Hfile.
  { intros p Hp Hpre. unfold is_file. rewrite H2 by tauto.
    by apply (mkdir_parents_not_file out_dir σ σ1 p Hmk). }
  assert (∃ e, remap_by_name labels_dir out_dir old_classes_path new_classes_path
                 create_backup σ = (σ2, inl e)) as [e He].
  { unfold remap_by_name. rewrite bind_unfold. simpl.
    unfold is_dir, exists_ in *. destruct (σ !! labels_dir) as [[c|]|]; try done.
    simpl. rewrite bind_unfold. unfold io in *. rewrite Hmk, bind_unfold, E2, bind_unfold.
    pose proof (read_classes_fs old_classes_path σ2) as Hro.
    destruct (read_classes old_classes_path σ2) as [σ3 [e|old]] eqn:Eo;
      simpl in Hro; subst σ3; [by eexists|].
    destruct Hmiss as [Hmiss|Hmiss].
    { destruct (read_classes_missing old_classes_path σ2) as [e He]; [by apply Hfile|].
      congruence. }
    rewrite bind_unfold.
    destruct (read_classes_missing new_classes_path σ2) as [e He]; [by apply Hfile|].
    rewrite He. by eexists. }
  exists σ2, e. split; [done|]. split; [|split].
  - unfold is_dir. by rewrite Hout2.
  - unfold exists_. intros Hno ->. by rewrite Hout2 in Hno.
  - intros -> Hback Hpre rel n Hn.
    assert (σ1 !! backup_dir_of labels_dir = None) as Hb1.
    { rewrite (mkdir_parents_unchanged out_dir σ σ1 (inr tt) _ Hmk) by auto.
      unfold exists_ in Hback. by destruct (σ !! backup_dir_of labels_dir). }
    rewrite backup_step_copies in E2 by done. injection E2 as <-.
    apply copytree_copies.
    rewrite (mkdir_parents_unchanged out_dir σ σ1 (inr tt) _ Hmk); [done|].
    left. by eexists.
Qed.

Lemma remap_class_file_error_witness :
  let σ0 := delete p_new (sample_fs [txt "cat"] [] [txt "0 1 2 3 4"]) in
  ∃ σ' e,
    remap_by_name p_labels p_out p_old p_new true σ0 = (σ', inl e)
    ∧ is_dir σ' p_out = true
    ∧ σ' ≠ σ0
    ∧ σ' !! (backup_dir_of p_labels ++ [txt "a.txt"])
      = Some (File (nl [txt "0 1 2 3 4"])).
Proof.
  intros σ0.
  destruct (remap_class_file_error p_labels p_out p_old p_new true σ0)
    as (σ' & e & Hrun & Hout & Hchanged & Hcopy).
  - vm_compute. reflexivity.
  - vm_compute. reflexivity.
  - right. vm_compute. reflexivity.
  - intros [k Hk]. vm_compute in Hk. discriminate Hk.
  - intros [k Hk]. vm_compute in Hk. discriminate Hk.
  - exists σ', e. split; [exact Hrun|]. split; [exact Hout|]. split.
    + apply Hchanged. vm_compute. reflexivity.
    + apply Hcopy.
      * reflexivity.
      * vm_compute. reflexivity.
      * intros [k Hk]. vm_compute in Hk. discriminate Hk.
      * vm_compute. reflexivity.
Defined.

(** ** Numbers in file names *)

Section numbers.

Lemma value_snoc (ds : str) (c : ascii) :
  value (ds ++ [c]) = 10 * value ds + default 0 (digit_val c).
Proof. unfold value. by rewrite foldl_app. Qed.

Lemma digit_val_range c d : digit_val c = Some d → 0 ≤ d < 10.
Proof. unfold digit_val. case_match; [|done]. intros [= <-]. by_code. Qed.

Lemma value_bounds (ds : str) :
  all_digits ds → 0 ≤ value ds < 10 ^ Z.of_nat (length ds).
Proof.
  induction ds as [|c ds IH] using rev_ind; intros H.
  - unfold value. simpl. lia.
  - apply Forall_app in H as [Hds Hc]. apply Forall_inv in Hc as [d Hd].
    rewrite value_snoc, Hd, length_app. simpl.
    pose proof (digit_val_range _ _ Hd). specialize (IH Hds).
    replace (Z.of_nat (length ds + 1)) with (Z.succ (Z.of_nat (length ds))) by lia.
    rewrite Z.pow_succ_r by lia. lia.
Qed.

(** The decimal text of a positive number has no leading zero. *)
Lemma digits_of_lower (fuel : nat) (n : Z) (acc : str) :
  (0 < fuel)%nat → 0 ≤ n < 2 ^ Z.of_nat fuel →
  ∃ ds, digits_of fuel n acc = ds ++ acc ∧ (0 < length ds)%nat ∧
        (length ds = 1%nat ∨ 10 ^ (Z.of_nat (length ds) - 1) ≤ n).
Proof.
  revert n acc. induction fuel as [|fuel IH]; intros n acc Hfuel Hn; [lia|].
  simpl. destruct (Z.ltb_spec n 10) as [Hlt|Hge].
  - exists [digit_char (n mod 10)]. split; [done|]. split; [simpl; lia|]. by left.
  - destruct (IH (n / 10) (digit_char (n mod 10) :: acc)) as (ds & E & Hpos & Hlow).
    { destruct fuel; [simpl in Hn|]; lia. }
    { rewrite Nat2Z.inj_succ, Z.pow_succ_r in Hn by lia.
      split; [apply Z.div_pos; lia|].
      apply Z.div_lt_upper_bound; lia. }
    exists (ds ++ [digit_char (n mod 10)]). split; [by rewrite E, <- app_assoc|].
    rewrite length_app. simpl. split; [lia|]. right.
    replace (Z.of_nat (length ds + 1) - 1) with (Z.succ (Z.of_nat (length ds) - 1)) by lia.
    assert (10 * (n / 10) ≤ n) by (apply Z.mul_div_le; lia).
    destruct Hlow as [Hlen|Hlow].
    + rewrite Hlen. simpl. lia.
    + rewrite Z.pow_succ_r; lia.
Qed.

Lemma str_of_nonneg_lower (n : Z) :
  0 ≤ n →
  length (str_of_nonneg n) = 1%nat
  ∨ 10 ^ (Z.of_nat (length (str_of_nonneg n)) - 1) ≤ n.
Proof.
  intros Hn. unfold str_of_nonneg.
  destruct (digits_of_lower (S (Z.to_nat (Z.log2 n))) n []) as (ds & E & _ & H).
  { lia. }
  { split; [done|]. rewrite Nat2Z.inj_succ, Z2Nat.id by apply Z.log2_nonneg.
    destruct (decide (n = 0)) as [->|]; [done|].
    apply Z.log2_spec. lia. }
  by rewrite E, app_nil_r.
Qed.

(** A larger number has at least as many digits. *)
Lemma str_of_nonneg_length_mono (n m : Z) :
  0 ≤ n ≤ m → (length (str_of_nonneg n) ≤ length (str_of_nonneg m))%nat.
Proof.
  intros Hnm.
  destruct (str_of_nonneg_spec n) as (Hne & Hall & Hv); [lia|].
  destruct (str_of_nonneg_spec m) as (Hne' & Hall' & Hv'); [lia|].
  pose proof (value_bounds _ Hall') as Hb. rewrite Hv' in Hb.
  destruct (str_of_nonneg_lower n) as [H1|Hlow]; [lia| |].
  - rewrite H1. destruct (str_of_nonneg m); simpl; [done|lia].
  - apply Nat.nlt_ge. intros Hlt.
    assert (10 ^ Z.of_nat (length (str_of_nonneg m))
            ≤ 10 ^ (Z.of_nat (length (str_of_nonneg n)) - 1)).
    { apply Z.pow_le_mono_r; lia. }
    lia.
Qed.

Lemma str_of_int_nonneg (n : Z) : 0 ≤ n → str_of_int n = str_of_nonneg n.
Proof. intros H. unfold str_of_int. by destruct (Z.ltb_spec n 0); [lia|]. Qed.

Lemma value_zeros (k : nat) (ds : str) :
  value (replicate k (ascii_of_N 48) ++ ds) = value ds.
Proof.
  unfold value. rewrite foldl_app. f_equal.
  induction k as [|k IH]; [done|]. by rewrite replicate_S_end, foldl_app, IH.
Qed.

(** [str(n).zfill(width)] for [n >= 0]. *)
Lemma zfill_nonneg (width : nat) (n : Z) :
  0 ≤ n →
  zfill width (str_of_int n)
  = replicate (width - length (str_of_int n)) (ascii_of_N 48) ++ str_of_int n.
Proof.
  intros Hn. rewrite str_of_int_nonneg by done.
  destruct (str_of_nonneg_spec n) as (Hne & Hall & _); [done|].
  unfold zfill. destruct (str_of_nonneg n) as [|c ds]; [done|].
  destruct (Forall_inv Hall) as [d Hd].
  by destruct (digit_not_sign _ _ Hd) as [-> ->].
Qed.

Lemma zfill_length (width : nat) (n : Z) :
  0 ≤ n → (length (str_of_int n) ≤ width)%nat →
  length (zfill width (str_of_int n)) = width.
Proof.
  intros Hn Hlen. rewrite zfill_nonneg by done.
  rewrite length_app, length_replicate. lia.
Qed.

Lemma zfill_value (width : nat) (n : Z) :
  0 ≤ n → value (zfill width (str_of_int n)) = n.
Proof.
  intros Hn. rewrite zfill_nonneg, value_zeros, str_of_int_nonneg by done.
  by destruct (str_of_nonneg_spec n) as (_ & _ & Hv).
Qed.

End numbers.

(** ** Directory listings and their order *)

Section listings.

Lemma child_name_Some (dir k : path) (n : str) :
  child_name dir k = Some n ↔ k = child dir n.
Proof.
  unfold child_name, child. split.
  - destruct (decide _) as [E|]; [|done].
    destruct (drop (length dir) k) as [|n' [|]] eqn:Ed; try done.
    intros [= ->]. by rewrite <- (take_drop (length dir) k), E, Ed.
  - intros ->. rewrite take_app_length, decide_True, drop_app_length by done. done.
Qed.

Lemma elem_of_listdir (σ : fs) (dir : path) (n : str) :
  n ∈ listdir σ dir ↔ is_Some (σ !! child dir n).
Proof.
  unfold listdir. rewrite list_elem_of_omap. split.
  - intros (k & Hk & Hn). apply child_name_Some in Hn as ->.
    apply list_elem_of_fmap in Hk as ([k v] & -> & Hkv).
    apply elem_of_map_to_list in Hkv. by eexists.
  - intros [v Hv]. exists (child dir n). split; [|by apply child_name_Some].
    apply list_elem_of_fmap. exists (child dir n, v). split; [done|].
    by apply elem_of_map_to_list.
Qed.

Lemma NoDup_omap_inj {A B} (f : A → option B) (l : list A) :
  (∀ x y z, f x = Some z → f y = Some z → x = y) →
  NoDup l → NoDup (omap f l).
Proof.
  intros Hinj. induction 1 as [|x l Hx _ IH]; simpl; [constructor|].
  destruct (f x) as [z|] eqn:E; [|done]. constructor; [|done].
  intros Hz. apply list_elem_of_omap in Hz as (y & Hy & Ey).
  by rewrite (Hinj x y z E Ey) in Hx.
Qed.

Lemma NoDup_listdir (σ : fs) (dir : path) : NoDup (listdir σ dir).
Proof.
  apply NoDup_omap_inj; [|apply NoDup_fst_map_to_list].
  intros x y z Hx Hy. apply child_name_Some in Hx, Hy. congruence.
Qed.

Lemma str_leb_total (a b : str) : str_leb a b = true ∨ str_leb b a = true.
Proof.
  revert b. induction a as [|x a IH]; intros [|y b]; simpl; auto.
  destruct (N.ltb_spec (code x) (code y)), (N.ltb_spec (code y) (code x));
    auto; lia.
Qed.

Global Instance str_le_total : Total str_le.
Proof. intros a b. apply str_leb_total. Qed.

(** [sorted] puts its argument in order and keeps its elements. *)
Lemma sorted_Sorted (l : list str) : Sorted str_le (sorted l).
Proof. apply Sorted_merge_sort. apply _. Qed.

Lemma sorted_Permutation (l : list str) : sorted l ≡ₚ l.
Proof. apply merge_sort_Permutation. Qed.

(** The files that are renamed: the image files of the directory, each
    once, in lexicographic order. *)
Lemma image_files_spec (σ : fs) (directory : path) :
  Sorted str_le (image_files σ directory)
  ∧ NoDup (image_files σ directory)
  ∧ ∀ f, f ∈ image_files σ directory
         ↔ is_file σ (child directory f) = true ∧ is_image f = true.
Proof.
  unfold image_files. split; [apply sorted_Sorted|]. split.
  - rewrite sorted_Permutation. do 2 apply NoDup_filter. apply NoDup_listdir.
  - intros f. rewrite sorted_Permutation, !list_elem_of_filter, elem_of_listdir.
    unfold is_file. destruct (σ !! child directory f) as [[c|]|]; split;
      try tauto; try (intros (? & ? & ?); done); try (intros [? ?]; done);
      intros [? ?]; repeat split; try done; by eexists.
Qed.

End listings.

(** ** New file names *)

Section new_names.

Lemma new_name_inj (pfx : str) (padding : nat) (n m : Z) (f g : str) :
  0 ≤ n → 0 ≤ m →
  (length (str_of_int n) ≤ padding)%nat → (length (str_of_int m) ≤ padding)%nat →
  new_name pfx padding n f = new_name pfx padding m g → n = m.
Proof.
  intros Hn Hm Hln Hlm E. unfold new_name in E.
  apply app_inv_head in E. apply app_inv_head in E.
  apply app_inj_1 in E as [E _].
  - rewrite <- (zfill_value padding n), <- (zfill_value padding m) by done.
    by rewrite E.
  - by rewrite !zfill_length.
Qed.

End new_names.

(** ** The renamer *)

Section dry_run.

Lemma rename_loop_dry (directory : path) (start_number : Z) (pfx : str)
    (padding : nat) (names : list str) (i : Z) (count : nat) (out : list msg)
    (σ : fs) :
  ∃ msgs,
    rename_loop directory start_number pfx true padding i names count out σ
    = (σ, inr (count, out ++ msgs))
    ∧ Forall (λ m, ∀ n, m ≠ DryRunComplete n) msgs.
Proof.
  revert i out. induction names as [|f names IH]; intros i out; simpl.
  - exists []. by rewrite app_nil_r.
  - rewrite bind_unfold. simpl.
    destruct (exists_ σ _ && bool_decide _).
    + destruct (IH (i + 1) (out ++ [WarnExists (new_name pfx padding (start_number + i) f) f]))
        as (msgs & -> & Hm).
      eexists (_ :: msgs). rewrite <- app_assoc. split; [done|]. by constructor.
    + destruct (IH (i + 1) (out ++ [WouldRename f (new_name pfx padding (start_number + i) f)]))
        as (msgs & -> & Hm).
      eexists (_ :: msgs). rewrite <- app_assoc. split; [done|]. by constructor.
Qed.

End dry_run.

(** C4.  A dry run leaves the file system as it is, but its summary always
    counts zero files: [renamed_count] is only incremented in the branch
    that renames.  On a directory holding a.jpg the dry run announces the
    renaming and then reports 0, where the real run reports 1. *)
Theorem dry_run_reports_zero :
  (∀ directory start_number pfx σ,
     (rename_images directory start_number pfx true σ).1 = σ ∧
     ∀ out n, (rename_images directory start_number pfx true σ).2 = inr out →
              DryRunComplete n ∈ out → n = 0%nat) ∧
  let σ0 := images_fs [txt "a.jpg"] in
  (rename_images p_imgs 1 (txt "image") true σ0).2
  = inr [Found 1 p_imgs; WouldRename (txt "a.jpg") (txt "image_1.jpg");
         DryRunComplete 0] ∧
  (rename_images p_imgs 1 (txt "image") false σ0).2
  = inr [Found 1 p_imgs; Renamed (txt "a.jpg") (txt "image_1.jpg");
         RenamingComplete 1].
Proof.
  split; [|cbv zeta; split; vm_compute; reflexivity].
  intros directory start_number pfx σ.
  unfold rename_images. rewrite bind_unfold. unfold try, os_listdir.
  destruct (σ !! directory) as [[c|]|]; simpl.
  - split; [done|]. intros out n [=].
  - rewrite bind_unfold. simpl.
    destruct (filter _ (filter _ _)) as [|f l] eqn:El; simpl.
    { split; [done|]. intros out n [= <-]. rewrite list_elem_of_singleton. done. }
    rewrite bind_unfold.
    edestruct (rename_loop_dry directory start_number pfx) as (msgs & -> & Hm).
    simpl. split; [done|]. intros out n [= <-].
    rewrite elem_of_cons, elem_of_app, list_elem_of_singleton.
    intros [H|[H|H]]; [done| |congruence].
    rewrite Forall_forall in Hm. by destruct (Hm _ H n).
  - split; [done|]. intros out n [= <-]. rewrite list_elem_of_singleton. done.
Qed.

(** C3.  [main] never passes the extension list to [rename_images], which
    filters with the built-in set only: the result of [main] does not depend
    on the list, and a file x.heic is not renamed when ".heic" is given.
    Files with an extension of the built-in set, in any case, are taken. *)
Theorem main_ignores_extensions :
  (∀ d s p dr e1 e2 σ, main (Args d s p dr e1) σ = main (Args d s p dr e2) σ) ∧
  (∀ σ d f, is_file σ (child d f) = true →
            lower (suffix f) ∈ image_extensions → f ∈ image_files σ d) ∧
  is_image (txt "x.heic") = false ∧
  let σ0 := images_fs [txt "x.heic"] in
  (main (Args p_imgs default_start default_prefix false [txt ".heic"]) σ0).2
  = inr [Banner p_imgs 1 (txt "image") false; NoImageFiles] ∧
  (main (Args p_imgs default_start default_prefix false [txt ".heic"]) σ0).1
    !! child p_imgs (txt "x.heic") = Some (File (txt "x.heic")).
Proof.
  split; [done|]. split; [|split; [vm_compute; reflexivity|]].
  - intros σ d f Hf Hext. unfold image_files. rewrite sorted_Permutation.
    apply list_elem_of_filter. split; [by apply bool_decide_eq_true|].
    apply list_elem_of_filter. split; [done|].
    apply elem_of_listdir. unfold is_file in Hf.
    destruct (σ !! child d f); [by eexists | done].
  - cbv zeta. split; vm_compute; reflexivity.
Qed.

(** ** Names the system takes *)

Section valid_names.

Lemma name_child (p : path) (n : str) : name (child p n) = n.
Proof. unfold name, child. by rewrite last_snoc. Qed.

Lemma has_nul_app (a b : str) : has_nul (a ++ b) = has_nul a || has_nul b.
Proof. apply existsb_app. Qed.

Lemma has_nul_plain_prefix (pfx : str) : plain_prefix pfx → has_nul pfx = false.
Proof.
  unfold plain_prefix, has_nul. induction pfx as [|c pfx IH]; [done|]. simpl.
  intros [[_ Hc]%andb_true_iff H]%andb_true_iff.
  rewrite IH by done. by destruct (code c =? 0)%N.
Qed.

Lemma has_nul_digits (ds : str) : all_digits ds → has_nul ds = false.
Proof.
  induction 1 as [|c ds [d Hc] _ IH]; [done|]. simpl. rewrite IH, orb_false_r.
  unfold digit_val in Hc. by_code.
Qed.

Lemma has_nul_str_of_int (n : Z) : has_nul (str_of_int n) = false.
Proof.
  unfold str_of_int. destruct (n <? 0) eqn:E.
  - simpl. apply has_nul_digits, str_of_nonneg_spec. lia.
  - apply has_nul_digits, str_of_nonneg_spec. lia.
Qed.

Lemma has_nul_zfill (width : nat) (s : str) : has_nul (zfill width s) = has_nul s.
Proof.
  unfold has_nul.
  assert (∀ k, existsb (λ c, (code c =? 0)%N) (replicate k (ascii_of_N 48)) = false)
    as Hz.
  { induction k as [|k IH]; [done|]. exact IH. }
  unfold zfill. destruct s as [|c s]; [apply Hz|].
  destruct (is_plus c || is_minus c).
  - cbn [existsb]. by rewrite existsb_app, Hz.
  - by rewrite existsb_app, Hz.
Qed.

Lemma has_nul_lower (s : str) : has_nul (lower s) = has_nul s.
Proof.
  unfold has_nul, lower. induction s as [|c s IH]; [done|].
  cbn [map existsb]. rewrite IH. f_equal. unfold lower_char.
  destruct (_ || _) eqn:E; [|done].
  pose proof (N_ascii_bounded c) as Hb. fold (code c) in Hb.
  unfold code at 1. rewrite N_ascii_embedding.
  - destruct (code c =? 0)%N eqn:E0; [|by_code].
    apply N.eqb_eq in E0. rewrite E0 in E. done.
  - revert E. by_code.
Qed.

Lemma has_nul_image_suffix (f : str) : is_image f = true → has_nul (suffix f) = false.
Proof.
  unfold is_image. intros H%bool_decide_eq_true.
  rewrite <- has_nul_lower. unfold image_extensions in H.
  repeat (apply elem_of_cons in H as [->|H]; [done|]).
  by apply elem_of_nil in H.
Qed.

(** The new name of an image file holds no NUL when the prefix holds none. *)
Lemma has_nul_new_name (pfx : str) (padding : nat) (n : Z) (f : str) :
  plain_prefix pfx → is_image f = true →
  has_nul (new_name pfx padding n f) = false.
Proof.
  intros Hp Hf. unfold new_name.
  rewrite !has_nul_app, has_nul_plain_prefix, has_nul_zfill, has_nul_str_of_int,
    has_nul_image_suffix by done.
  done.
Qed.

End valid_names.

Section rename_loop.

Variables (directory : path) (start_number : Z) (pfx : str) (padding : nat).
Variables (σ0 : fs) (names : list str).

Local Abbreviation tgt := (numbered pfx padding start_number).
Local Abbreviation inv := (renamed_so_far directory start_number pfx padding σ0).

Hypothesis Hdir : σ0 !! directory = Some Dir.
Hypothesis Hstart : 0 ≤ start_number.
Hypothesis Hnodup : NoDup names.
Hypothesis Hfiles : ∀ f, f ∈ names → is_file σ0 (child directory f) = true.
Hypothesis Hfresh :
  ∀ i f, names !! i = Some f → σ0 !! child directory (tgt i f) = None.
Hypothesis Hpad :
  ∀ i f, names !! i = Some f →
    (length (str_of_int (start_number + Z.of_nat i)) ≤ padding)%nat.
Hypothesis Hnul : ∀ f, f ∈ names → has_nul f = false.
Hypothesis Hvalid :
  ∀ i f, names !! i = Some f →
    has_nul (tgt i f) = false ∧ too_long (tgt i f) = false.

Lemma source_is_file (f : str) :
  f ∈ names → ∃ c, σ0 !! child directory f = Some (File c).
Proof.
  intros H. apply Hfiles in H. unfold is_file in H.
  destruct (σ0 !! child directory f) as [[c|]|]; try done. by eexists.
Qed.

Lemma tgt_inj (i k : nat) (f g : str) :
  names !! i = Some f → names !! k = Some g → tgt i f = tgt k g → i = k.
Proof.
  intros Hi Hk E. unfold numbered in E. apply new_name_inj in E; [lia|lia|lia|by eapply Hpad..].
Qed.

Lemma source_ne_target (f g : str) (k : nat) :
  f ∈ names → names !! k = Some g →
  child directory f ≠ child directory (tgt k g).
Proof.
  intros Hf Hk E. destruct (source_is_file f Hf) as [c Hc].
  rewrite E, (Hfresh k g Hk) in Hc. done.
Qed.

Lemma rename_loop_fresh (rest done : list str) (σ : fs)
    (count : nat) (out : list msg) :
  names = done ++ rest →
  inv done σ →
  ∃ σ' out',
    rename_loop directory start_number pfx false padding
      (Z.of_nat (length done)) rest count out σ
    = (σ', inr ((count + length rest)%nat, out'))
    ∧ inv names σ'.
Proof.
  revert done σ count out.
  induction rest as [|f rest IH]; intros done σ count out Hnames [Hdone Hother].
  { simpl. exists σ, out. rewrite app_nil_r in Hnames. subst done.
    by rewrite Nat.add_0_r. }
  assert (names !! length done = Some f) as Hf.
  { by rewrite Hnames, list_lookup_middle. }
  assert (f ∈ names) as Hfin by (apply list_elem_of_lookup; eauto).
  assert (∀ k g, done !! k = Some g → names !! k = Some g ∧ (k < length done)%nat)
    as Hprev.
  { intros k g Hk. split; [|by eapply lookup_lt_Some].
    rewrite Hnames. by apply lookup_app_l_Some. }
  set (i := length done) in *.
  set (old_path := child directory f).
  set (new_path := child directory (tgt i f)).
  assert (σ !! new_path = None) as Hnew.
  { rewrite Hother; [by apply Hfresh|]. intros k g Hk.
    destruct (Hprev k g Hk) as [Hk' Hlt]. split.
    - intros E. symmetry in E. revert E. apply source_ne_target; [|done].
      apply list_elem_of_lookup. eauto.
    - intros E. apply app_inj_tail in E as [_ E].
      apply (tgt_inj i k f g Hf Hk') in E. lia. }
  destruct (source_is_file f Hfin) as [c Hc].
  assert (σ !! old_path = Some (File c)) as Hold.
  { rewrite Hother; [done|]. intros k g Hk.
    destruct (Hprev k g Hk) as [Hk' Hlt]. split.
    - intros E. apply app_inj_tail in E as [_ ->].
      pose proof (NoDup_lookup _ _ _ _ Hnodup Hf Hk'). lia.
    - by apply source_ne_target. }
  assert (σ !! directory = Some Dir) as Hd.
  { rewrite Hother; [done|]. intros k g _. split; apply child_ne. }
  assert (old_path ≠ new_path) as Hne by (intros E; congruence).
  assert (rename_loop directory start_number pfx false padding
            (Z.of_nat i) (f :: rest) count out σ
          = rename_loop directory start_number pfx false padding
              (Z.of_nat (length (done ++ [f]))) rest (S count)
              (out ++ [Renamed f (tgt i f)])
              (<[new_path := File c]> (delete old_path σ))) as ->.
  { simpl. rewrite bind_unfold. simpl.
    fold (tgt i f). fold old_path. fold new_path.
    unfold exists_. rewrite Hnew. simpl.
    rewrite bind_unfold. unfold try, os_rename.
    unfold old_path at 1, new_path at 1. rewrite !name_child.
    destruct (Hvalid i f Hf) as [-> Hshort]. rewrite (Hnul f Hfin). simpl.
    rewrite Hold, decide_False by done.
    assert (parent new_path = directory) as -> by apply parent_child.
    unfold is_dir, exists_. rewrite Hd. simpl.
    unfold new_path at 1. rewrite name_child, Hshort, Hnew. simpl.
    rewrite length_app. simpl. by rewrite Nat2Z.inj_add. }
  destruct (IH (done ++ [f]) (<[new_path := File c]> (delete old_path σ))
              (S count) (out ++ [Renamed f (tgt i f)])) as (σ' & out' & E & Hinv).
  { by rewrite <- app_assoc. }
  { split.
    - intros k g Hk. apply lookup_app_Some in Hk as [Hk|[Hge Hk]].
      + destruct (Hprev k g Hk) as [Hk' Hlt]. destruct (Hdone k g Hk) as [H1 H2].
        assert (g ∈ names) as Hgin by (apply list_elem_of_lookup; eauto).
        split.
        * rewrite lookup_insert_ne, lookup_delete_ne; [done| |].
          -- by apply source_ne_target.
          -- intros E. apply app_inj_tail in E as [_ E].
             apply (tgt_inj i k f g Hf Hk') in E. lia.
        * rewrite lookup_insert_ne.
          -- destruct (decide (old_path = child directory g)) as [<-|].
             ++ apply lookup_delete_eq.
             ++ by rewrite lookup_delete_ne.
          -- intros E. symmetry in E. revert E. by apply source_ne_target.
      + apply list_lookup_singleton_Some in Hk as [Hk <-].
        replace k with i by lia. fold new_path. fold old_path. split.
        * by rewrite lookup_insert_eq.
        * by rewrite lookup_insert_ne, lookup_delete_eq.
    - intros q Hq.
      destruct (Hq i f) as [Hq1 Hq2]; [by apply list_lookup_middle|].
      rewrite lookup_insert_ne, lookup_delete_ne by done.
      apply Hother. intros k g Hk. apply Hq. by apply lookup_app_l_Some. }
  exists σ', out'. split; [|done]. rewrite E. do 3 f_equal. simpl. lia.
Qed.

End rename_loop.

(** A directory holding a.jpg and image_1.jpg: the first file cannot take
    the name image_1.jpg, which exists, and is skipped; the second becomes
    image_2.jpg.  Of the two image files one is renamed. *)
Lemma rename_skips_existing :
  let σ0 := images_fs [txt "a.jpg"; txt "image_1.jpg"] in
  let run := rename_images p_imgs 1 (txt "image") false σ0 in
  image_files σ0 p_imgs = [txt "a.jpg"; txt "image_1.jpg"] ∧
  run.2 = inr [Found 2 p_imgs; WarnExists (txt "image_1.jpg") (txt "a.jpg");
               Renamed (txt "image_1.jpg") (txt "image_2.jpg");
               RenamingComplete 1] ∧
  run.1 !! child p_imgs (txt "a.jpg") = Some (File (txt "a.jpg")) ∧
  run.1 !! child p_imgs (txt "image_1.jpg") = None ∧
  run.1 !! child p_imgs (txt "image_2.jpg") = Some (File (txt "image_1.jpg")) ∧
  ¬ renamed_all p_imgs 1 (txt "image") σ0.
Proof.
  cbv zeta. split; [vm_compute; reflexivity|]. split; [vm_compute; reflexivity|].
  split; [vm_compute; reflexivity|]. split; [vm_compute; reflexivity|].
  split; [vm_compute; reflexivity|].
  intros (σ' & out & E & _ & Hfiles & _).
  apply (f_equal fst) in E. cbn [fst] in E. subst σ'.
  destruct (Hfiles 0%nat (txt "a.jpg")) as [H _]; [vm_compute; reflexivity|].
  vm_compute in H. discriminate H.
Qed.

(** A prefix of 300 characters: the new name is longer than the system
    takes, [os.rename] fails, the error is printed and nothing is renamed. *)
Lemma rename_long_name_fails :
  let σ0 := images_fs [txt "a.jpg"] in
  let run := rename_images p_imgs 1 (replicate 300 (ascii_of_N 97)) false σ0 in
  run.2 = inr [Found 1 p_imgs; ErrRenaming (txt "a.jpg") FileNameTooLong;
               RenamingComplete 0] ∧
  run.1 !! child p_imgs (txt "a.jpg") = Some (File (txt "a.jpg")).
Proof. cbv zeta. split; vm_compute; reflexivity. Qed.

(** A prefix with a NUL character: [os.rename] raises [ValueError], which
    is not an [OSError], and the run stops there. *)
Lemma rename_nul_raises :
  let σ0 := images_fs [txt "a.jpg"] in
  let run := rename_images p_imgs 1 [ascii_of_N 0] false σ0 in
  run.2 = inl ValueError ∧
  run.1 !! child p_imgs (txt "a.jpg") = Some (File (txt "a.jpg")).
Proof. cbv zeta. split; vm_compute; reflexivity. Qed.

(** C5 (amended).  In an existing directory, with a start number that is
    not negative and a prefix without path separator and without NUL
    character, when the names of the image files hold no NUL character,
    none of the new names exists before the run and every new name is at
    most [NAME_MAX] bytes long, a non-dry run renames every recognized image
    file: the i-th file in sorted order gets the name prefix_n.ext with
    n = start + i written on as many characters as start + N - 1 has
    digits, the new names are pairwise distinct, nothing else changes, and
    the summary counts N. *)
Theorem rename_images_renames_all (directory : path) (start_number : Z)
    (pfx : str) (σ : fs) :
  is_dir σ directory = true →
  0 ≤ start_number →
  plain_prefix pfx →
  (∀ f, f ∈ image_files σ directory → has_nul f = false) →
  (∀ i f, image_files σ directory !! i = Some f →
     σ !! child directory (target pfx start_number (image_files σ directory) i f)
     = None) →
  (∀ i f, image_files σ directory !! i = Some f →
     (encoded_length (target pfx start_number (image_files σ directory) i f)
      ≤ NAME_MAX)%nat) →
  renamed_all directory start_number pfx σ.
Proof.
  intros Hdir Hstart Hplain Hnul Hfresh Hshort. unfold renamed_all. cbv zeta.
  assert (σ !! directory = Some Dir) as Hd.
  { unfold is_dir in Hdir. by destruct (σ !! directory) as [[c|]|]. }
  set (names := image_files σ directory) in *.
  assert (NoDup names) as Hnd.
  { unfold names, image_files. rewrite sorted_Permutation.
    do 2 apply NoDup_filter. apply NoDup_listdir. }
  assert (∀ f, f ∈ names → is_file σ (child directory f) = true) as Hfiles.
  { intros f. unfold names, image_files. rewrite sorted_Permutation.
    rewrite !list_elem_of_filter. tauto. }
  assert (∀ i f, names !! i = Some f →
            (length (str_of_int (start_number + Z.of_nat i))
             ≤ width start_number names)%nat) as Hpad.
  { intros i f Hi. apply lookup_lt_Some in Hi. unfold width.
    rewrite !str_of_int_nonneg by lia. apply str_of_nonneg_length_mono. lia. }
  assert (∀ i k f g, names !! i = Some f → names !! k = Some g →
            target pfx start_number names i f = target pfx start_number names k g →
            i = k) as Hinj.
  { intros i k f g Hi Hk E.
    by apply (tgt_inj start_number pfx (width start_number names) names
                Hstart Hpad i k f g). }
  assert (NoDup (imap (target pfx start_number names) names)) as Hnd'.
  { apply NoDup_alt. intros i k t. rewrite !list_lookup_imap.
    destruct (names !! i) as [f|] eqn:Ei; [|done].
    destruct (names !! k) as [g|] eqn:Ek; [|done].
    simpl. intros [= <-] [= E]. by apply (Hinj i k f g). }
  assert (∀ i f, names !! i = Some f →
            length (zfill (width start_number names)
                      (str_of_int (start_number + Z.of_nat i)))
            = width start_number names) as Hlen.
  { intros i f Hi. apply zfill_length; [lia|by eapply Hpad]. }
  unfold rename_images. rewrite bind_unfold. unfold try, os_listdir.
  rewrite Hd. simpl. rewrite bind_unfold. simpl.
  fold (image_files σ directory). fold names.
  destruct (filter (λ file, is_image file = true)
              (filter (λ f, is_file σ (child directory f) = true)
                 (listdir σ directory))) as [|f0 l] eqn:El.
  { assert (names = []) as Hn.
    { unfold names, image_files. rewrite El. reflexivity. }
    exists σ, [NoImageFiles]. rewrite Hn. repeat split; try done.
    constructor. }
  assert (∀ i f, names !! i = Some f →
            has_nul (target pfx start_number names i f) = false
            ∧ too_long (target pfx start_number names i f) = false) as Hvalid.
  { intros i f Hi. split.
    - apply has_nul_new_name; [done|].
      assert (f ∈ names) as Hf by (apply list_elem_of_lookup; eauto).
      revert Hf. unfold names, image_files. rewrite sorted_Permutation.
      rewrite !list_elem_of_filter. tauto.
    - unfold too_long. apply Nat.ltb_ge. by apply Hshort. }
  destruct (rename_loop_fresh directory start_number pfx
              (width start_number names) σ names Hd Hstart Hnd Hfiles Hfresh Hpad
              Hnul Hvalid
              names [] σ 0%nat [Found (length names) directory])
    as (σ' & out' & E & Hdone & Hother).
  { done. }
  { split; [intros i f Hi; by rewrite lookup_nil in Hi | done]. }
  simpl in E. change (Z.of_nat 0) with 0 in E.
  rewrite bind_unfold. fold (width start_number names).
  unfold io in *. rewrite E. simpl.
  exists σ', (out' ++ [RenamingComplete (length names)]).
  split; [done|]. split; [intros _; apply last_snoc|].
  split; [|split; [exact Hother | exact Hnd']].
  intros i f Hi. destruct (Hdone i f Hi) as [H1 H2].
  split; [exact H1|]. split; [exact H2|]. by eapply Hlen.
Qed.

Lemma rename_images_renames_all_witness :
  renamed_all p_imgs 1 (txt "img") (images_fs [txt "c.png"; txt "a.jpg"; txt "b.gif"]).
Proof.
  assert (image_files (images_fs [txt "c.png"; txt "a.jpg"; txt "b.gif"]) p_imgs
          = [txt "a.jpg"; txt "b.gif"; txt "c.png"]) as E
    by (vm_compute; reflexivity).
  apply rename_images_renames_all.
  - vm_compute. reflexivity.
  - lia.
  - reflexivity.
  - intros f Hf. rewrite E in Hf.
    apply list_elem_of_lookup in Hf as [i Hi].
    destruct i as [|[|[|i]]]; simpl in Hi; try discriminate Hi;
      injection Hi as <-; reflexivity.
  - intros i f Hi. rewrite E in Hi |- *.
    destruct i as [|[|[|i]]]; simpl in Hi; try discriminate Hi;
      injection Hi as <-; vm_compute; reflexivity.
  - intros i f Hi. rewrite E in Hi |- *.
    destruct i as [|[|[|i]]]; simpl in Hi; try discriminate Hi;
      injection Hi as <-; vm_compute; lia.
Defined.

(** * Further properties of the code *)

(** ** Class files *)

Section class_files.

Lemma filter_all {A} (P : A → Prop) `{∀ x, Decision (P x)} (l : list A) :
  Forall P l → filter P l = l.
Proof.
  induction 1 as [|x l Hx _ IH]; [done|]. by rewrite filter_cons_True, IH.
Qed.

Lemma readlines_from_plain (l cur s : str) :
  Forall (λ c, is_lf c = false) l →
  readlines_from cur (l ++ s) = readlines_from (rev l ++ cur) s.
Proof.
  intros Hl. revert cur. induction Hl as [|c l Hc _ IH]; intros cur; simpl; [done|].
  rewrite Hc, IH. by rewrite <- app_assoc.
Qed.

Lemma readlines_line (l rest : str) :
  Forall (λ c, is_lf c = false) l →
  readlines (l ++ LF :: rest) = (l ++ [LF]) :: readlines rest.
Proof.
  intros Hl. unfold readlines. rewrite readlines_from_plain by done. simpl.
  by rewrite app_nil_r, rev_involutive.
Qed.

Lemma readlines_last (l : str) :
  Forall (λ c, is_lf c = false) l →
  readlines l = match l with [] => [] | _ => [l] end.
Proof.
  intros Hl. unfold readlines. rewrite <- (app_nil_r l) at 1.
  rewrite readlines_from_plain by done. simpl. rewrite app_nil_r.
  destruct l as [|c l]; [done|]. destruct (rev (c :: l)) eqn:E.
  - apply (f_equal length) in E. rewrite length_rev in E. done.
  - by rewrite <- E, rev_involutive.
Qed.

Lemma rstrip_lf_snoc (l : str) : rstrip_lf (l ++ [LF]) = rstrip_lf l.
Proof. unfold rstrip_lf. by rewrite rev_app_distr. Qed.

Lemma classes_of_text_line (l rest : str) :
  Forall (λ c, is_lf c = false) l →
  classes_of_text (l ++ LF :: rest)
  = match l with [] => [] | _ => [l] end ++ classes_of_text rest.
Proof.
  intros Hl. unfold classes_of_text. rewrite readlines_line by done.
  rewrite filter_cons, rstrip_lf_snoc, rstrip_lf_id by done.
  destruct (decide (l ≠ [])) as [Hne|He].
  - simpl. rewrite rstrip_lf_snoc, rstrip_lf_id by done. by destruct l.
  - destruct l; [done|]. by destruct He.
Qed.

Lemma classes_of_text_last (l : str) :
  Forall (λ c, is_lf c = false) l →
  classes_of_text l = match l with [] => [] | _ => [l] end.
Proof.
  intros Hl. unfold classes_of_text. rewrite readlines_last by done.
  destruct l as [|c l]; [done|]. rewrite filter_cons, rstrip_lf_id by done.
  rewrite decide_True by done. simpl. by rewrite rstrip_lf_id.
Qed.

(** Reading lines joined by '\n' gives the non-empty ones, as they are. *)
Lemma classes_of_text_join (ls : list str) :
  Forall (Forall (λ c, is_lf c = false)) ls →
  classes_of_text (join [LF] ls) = filter (λ l, l ≠ []) ls.
Proof.
  induction 1 as [|l ls Hl Hls IH]; [done|].
  destruct ls as [|l' ls'].
  - simpl. rewrite classes_of_text_last by done. destruct l; [done|].
    by rewrite filter_cons, decide_True.
  - change (join [LF] (l :: l' :: ls')) with (l ++ LF :: join [LF] (l' :: ls')).
    rewrite classes_of_text_line, IH by done. rewrite (filter_cons _ l).
    destruct l; [by rewrite decide_False by (by intros [])|].
    by rewrite decide_True.
Qed.

Lemma universal_newlines_no_cr (s : str) :
  Forall (λ c, is_cr c = false) (universal_newlines s).
Proof.
  remember (length s) as n eqn:Hn.
  assert (length s ≤ n)%nat as Hle by lia. clear Hn.
  revert s Hle. induction n as [|n IH]; intros s Hle.
  - destruct s; [constructor | simpl in Hle; lia].
  - destruct s as [|c rest]; [constructor|]. simpl in Hle. simpl.
    destruct (is_cr c) eqn:Ec.
    + destruct rest as [|c' rest']; [by repeat constructor|].
      simpl in Hle. destruct (is_lf c'); constructor; try done;
        apply IH; simpl; lia.
    + constructor; [done|]. apply IH. lia.
Qed.

Lemma readlines_from_chars (P : ascii → Prop) (s cur : str) :
  Forall P s → Forall P cur → Forall (Forall P) (readlines_from cur s).
Proof.
  intros Hs. revert cur. induction Hs as [|c s Hc _ IH]; intros cur Hcur; simpl.
  - destruct cur; repeat constructor. by apply Forall_rev.
  - destruct (is_lf c).
    + constructor; [|by apply IH].
      apply Forall_app. split; [by apply Forall_rev | by constructor].
    + apply IH. by constructor.
Qed.

(** In a line given by [readlines] only the last character can be '\n'. *)
Lemma readlines_from_body (s cur : str) :
  Forall (λ c, is_lf c = false) cur →
  Forall (λ l, Forall (λ c, is_lf c = false) (rstrip_lf l)) (readlines_from cur s).
Proof.
  revert cur. induction s as [|c s IH]; intros cur Hcur; simpl.
  - destruct cur as [|x cur]; repeat constructor.
    rewrite rstrip_lf_id; by apply Forall_rev.
  - destruct (is_lf c) eqn:Ec.
    + constructor; [|by apply IH].
      unfold rstrip_lf. simpl. rewrite rev_app_distr, rev_involutive. simpl.
      rewrite Ec. apply Forall_rev.
      destruct Hcur as [|x cur Hx Hcur]; simpl; [constructor|].
      rewrite Hx. by constructor.
    + apply IH. by constructor.
Qed.

Lemma rstrip_lf_chars (P : ascii → Prop) (l : str) :
  Forall P l → Forall P (rstrip_lf l).
Proof.
  intros H. unfold rstrip_lf. apply Forall_rev. apply Forall_rev in H.
  induction H as [|c r Hc Hr IH]; simpl; [constructor|].
  destruct (is_lf c); [done | by constructor].
Qed.

(** The names read from a class file are class names. *)
Lemma classes_of_text_names (c : str) :
  Forall class_name (classes_of_text (universal_newlines c)).
Proof.
  unfold classes_of_text. apply Forall_fmap, Forall_forall.
  intros l Hl. apply list_elem_of_filter in Hl as [Hne Hl].
  pose proof (readlines_from_body (universal_newlines c) [] (Forall_nil_2 _)) as Hb.
  pose proof (readlines_from_chars _ (universal_newlines c) []
                (universal_newlines_no_cr c) (Forall_nil_2 _)) as Hc.
  rewrite Forall_forall in Hb, Hc.
  split; [done|]. split; [by apply Hb|]. by apply rstrip_lf_chars, Hc.
Qed.

Lemma join_snoc_empty (ls : list str) :
  ls ≠ [] → join [LF] ls ++ [LF] = join [LF] (ls ++ [[]]).
Proof.
  induction ls as [|l ls IH]; [done|]. intros _.
  destruct ls as [|l' ls']; [done|].
  change (join [LF] (l :: l' :: ls')) with (l ++ LF :: join [LF] (l' :: ls')).
  change (join [LF] ((l :: l' :: ls') ++ [[]]))
    with (l ++ LF :: join [LF] ((l' :: ls') ++ [[]])).
  rewrite <- IH by done. by rewrite <- app_assoc.
Qed.

(** Reading back what is written to classes_mapped.txt. *)
Lemma classes_mapped_read_back (new : list str) :
  Forall class_name new →
  classes_of_text (universal_newlines (classes_mapped_text new)) = new.
Proof.
  intros H. unfold classes_mapped_text.
  destruct new as [|n new]; [done|].
  rewrite universal_newlines_id.
  - rewrite join_snoc_empty by done. rewrite classes_of_text_join.
    + rewrite filter_app. rewrite (filter_cons _ []), decide_False by (by intros []).
      rewrite filter_nil, app_nil_r. apply filter_all.
      eapply Forall_impl; [exact H|]. by intros l [? _].
    + apply Forall_app. split; [|by repeat constructor].
      eapply Forall_impl; [exact H|]. by intros l (_ & ? & _).
  - rewrite join_snoc_empty by done.
    assert (Forall (Forall (λ c, is_cr c = false)) ((n :: new) ++ [[]])) as Hcr.
    { apply Forall_app. split; [|by repeat constructor].
      eapply Forall_impl; [exact H|]. by intros l (_ & _ & ?). }
    clear H. induction Hcr as [|l ls Hl _ IH]; [constructor|].
    destruct ls as [|l' ls']; [done|].
    change (join [LF] (l :: l' :: ls')) with (l ++ LF :: join [LF] (l' :: ls')).
    apply Forall_app. split; [done|]. by constructor.
Qed.

End class_files.

Section line_ends.

Lemma universal_newlines_plain (l s : str) :
  Forall (λ c, is_cr c = false) l →
  universal_newlines (l ++ s) = l ++ universal_newlines s.
Proof. induction 1 as [|c l Hc _ IH]; simpl; [done|]. by rewrite Hc, IH. Qed.

Lemma universal_newlines_cr (r : str) :
  head r ≠ Some LF → universal_newlines (CR :: r) = LF :: universal_newlines r.
Proof.
  intros H. change (universal_newlines (CR :: r))
    with (match r with
          | c' :: rest' =>
              if is_lf c' then LF :: universal_newlines rest'
              else LF :: universal_newlines r
          | [] => [LF]
          end).
  destruct r as [|c' rest']; [done|]. destruct (is_lf c') eqn:E; [|done].
  exfalso. apply H. simpl. f_equal. unfold is_lf, code in E.
  apply N.eqb_eq in E. rewrite <- (ascii_N_embedding c'), E. done.
Qed.

Lemma head_not_lf (l rest : str) :
  Forall (λ c, is_lf c = false) l → head (l ++ CR :: rest) ≠ Some LF.
Proof. intros [|c l' Hc _]; simpl; [done|]. by intros [= ->]. Qed.

Lemma head_join_cr_not_lf (ls : list str) :
  Forall (Forall (λ c, is_lf c = false)) ls → head (join [CR] ls) ≠ Some LF.
Proof.
  intros [|l ls0 Hl Hls]; [done|]. destruct ls0 as [|l' ls'].
  - simpl. destruct Hl as [|c l0 Hc _]; simpl; [done|]. by intros [= ->].
  - change (join [CR] (l :: l' :: ls')) with (l ++ CR :: join [CR] (l' :: ls')).
    by apply head_not_lf.
Qed.

(** Text mode reading turns "\r\n" and "\r" line ends into '\n'. *)
Lemma universal_newlines_join (sep : str) (ls : list str) :
  sep = [LF] ∨ sep = [CR; LF] ∨ sep = [CR] →
  Forall (λ l, Forall (λ c, is_lf c = false) l ∧ Forall (λ c, is_cr c = false) l) ls →
  universal_newlines (join sep ls) = join [LF] ls.
Proof.
  intros Hsep Hls. induction Hls as [|l ls [Hlf Hcr] Hls IH]; [done|].
  destruct ls as [|l' ls'].
  - simpl. by apply universal_newlines_id.
  - change (join sep (l :: l' :: ls')) with (l ++ sep ++ join sep (l' :: ls')).
    change (join [LF] (l :: l' :: ls')) with (l ++ LF :: join [LF] (l' :: ls')).
    rewrite universal_newlines_plain by done. f_equal.
    destruct Hsep as [-> | [-> | ->]].
    + change ([LF] ++ ?r) with (LF :: r). simpl in *. by rewrite IH.
    + change (universal_newlines ([CR; LF] ++ join [CR; LF] (l' :: ls')))
        with (LF :: universal_newlines (join [CR; LF] (l' :: ls'))).
      by rewrite IH.
    + change ([CR] ++ ?r) with (CR :: r). rewrite universal_newlines_cr, IH; [done|].
      apply head_join_cr_not_lf. eapply Forall_impl; [exact Hls|]. by intros ? [? _].
Qed.

End line_ends.

(** X1.  [read_classes] returns the non-empty lines of the class file, in
    order and as they are (nothing is stripped or merged), whether the lines
    end in "\n", "\r\n" or "\r"; empty lines do not count for the index. *)
Theorem read_classes_nonempty_lines (p : path) (σ : fs) (sep : str) (ls : list str) :
  sep = [LF] ∨ sep = [CR; LF] ∨ sep = [CR] →
  Forall (λ l, Forall (λ c, is_lf c = false) l ∧ Forall (λ c, is_cr c = false) l) ls →
  σ !! p = Some (File (join sep ls)) →
  read_classes p σ = (σ, inr (filter (λ l, l ≠ []) ls)).
Proof.
  intros Hsep Hls Hp. unfold read_classes. rewrite bind_unfold.
  unfold read_text. rewrite Hp. simpl. unfold mret, io_ret. do 2 f_equal.
  rewrite (universal_newlines_join sep ls) by done. apply classes_of_text_join.
  eapply Forall_impl; [exact Hls|]. by intros ? [? _].
Qed.

Lemma read_classes_nonempty_lines_witness :
  read_classes [txt "c.txt"]
    {[ [txt "c.txt"] := File (join [CR; LF] [txt "cat "; txt ""; txt "dog"; txt ""]) ]}
  = ({[ [txt "c.txt"] := File (join [CR; LF] [txt "cat "; txt ""; txt "dog"; txt ""]) ]},
     inr (filter (λ l, l ≠ []) [txt "cat "; txt ""; txt "dog"; txt ""])).
Proof.
  apply (read_classes_nonempty_lines _ _ [CR; LF]).
  - right. left. reflexivity.
  - repeat constructor.
  - apply lookup_singleton_eq.
Defined.


(** The steps of a run that returns (lines 42 to 98), one by one. *)
Lemma remap_by_name_returns
    (labels_dir out_dir old_classes_path new_classes_path : path)
    (create_backup : bool) (σ : fs) (st : stats) :
  (remap_by_name labels_dir out_dir old_classes_path new_classes_path
     create_backup σ).2 = inr st →
  ∃ σ1 σ2 σ5 old new,
    is_dir σ labels_dir = true
    ∧ mkdir_parents out_dir σ = (σ1, inr tt)
    ∧ backup_step labels_dir create_backup σ1 = (σ2, inr tt)
    ∧ read_classes old_classes_path σ2 = (σ2, inr old)
    ∧ read_classes new_classes_path σ2 = (σ2, inr new)
    ∧ remap_files labels_dir out_dir (old_index_to_name old) (name_to_new new)
        stats0 (sorted (listdir σ2 labels_dir)) σ2 = (σ5, inr st)
    ∧ (remap_by_name labels_dir out_dir old_classes_path new_classes_path
         create_backup σ).1
      = <[child out_dir (txt "classes_mapped.txt") := File (classes_mapped_text new)]> σ5.
Proof.
  unfold remap_by_name. rewrite bind_unfold. simpl.
  destruct (is_dir σ labels_dir) eqn:Hd;
    [|rewrite orb_true_r; done].
  case_match; [done|].
  rewrite bind_unfold.
  destruct (mkdir_parents out_dir σ) as [σ1 [e|[]]] eqn:Emk; [done|].
  rewrite bind_unfold.
  destruct (backup_step_ok labels_dir create_backup σ1) as [σ2 E2].
  rewrite E2.
  rewrite bind_unfold.
  pose proof (read_classes_fs old_classes_path σ2) as Hro.
  destruct (read_classes old_classes_path σ2) as [σ3 [e|old]] eqn:Eo;
    simpl in Hro; subst σ3; [done|].
  rewrite bind_unfold.
  pose proof (read_classes_fs new_classes_path σ2) as Hrn.
  destruct (read_classes new_classes_path σ2) as [σ4 [e|new]] eqn:En;
    simpl in Hrn; subst σ4; [done|].
  rewrite bind_unfold. simpl. rewrite bind_unfold.
  destruct (remap_files _ _ _ _ _ _ σ2) as [σ5 [e|st5]] eqn:E5; [done|].
  rewrite bind_unfold. unfold write_text.
  intros Hst. exists σ1, σ2, σ5, old, new.
  destruct (σ5 !! _) as [[c|]|]; try done;
    destruct (is_dir σ5 _); try done; simpl in Hst;
    assert (st5 = st) as -> by congruence; by repeat split.
Qed.

(** X2.  After a run that returns, the file classes_mapped.txt of the output
    directory reads back, with [read_classes], as the class list of the new
    class file (for a new class file outside the places the run writes). *)
Theorem classes_mapped_reads_back
    (labels_dir out_dir old_classes_path new_classes_path : path)
    (create_backup : bool) (σ : fs) (st : stats) :
  ¬ written_region labels_dir out_dir create_backup σ new_classes_path →
  (remap_by_name labels_dir out_dir old_classes_path new_classes_path
     create_backup σ).2 = inr st →
  ∃ new,
    (read_classes new_classes_path σ).2 = inr new ∧
    (read_classes (child out_dir (txt "classes_mapped.txt"))
       (remap_by_name labels_dir out_dir old_classes_path new_classes_path
          create_backup σ).1).2 = inr new.
Proof.
  intros HW Hst.
  destruct (remap_by_name_returns _ _ _ _ _ _ _ Hst)
    as (σ1 & σ2 & σ5 & old & new & Hd & Emk & E2 & Eo & En & E5 & ->).
  unfold written_region in HW.
  assert (σ2 !! new_classes_path = σ !! new_classes_path) as Hnew.
  { pose proof (backup_step_unchanged labels_dir create_backup σ1 new_classes_path) as H2.
    fold (backup_step labels_dir create_backup) in H2. rewrite E2 in H2.
    simpl in H2. rewrite H2.
    - apply (mkdir_parents_unchanged out_dir σ σ1 (inr tt)); [done|].
      destruct (σ !! new_classes_path) eqn:E; [left; by eexists|].
      right. intros Hpre. apply HW. auto.
    - intros (Hb & Hnone & Hpre). apply HW. right. right.
      repeat split; [done| |done].
      destruct (σ !! backup_dir_of labels_dir) eqn:E; [|done].
      rewrite (mkdir_parents_unchanged out_dir σ σ1 (inr tt)) in Hnone;
        [congruence|done|]. left. by eexists. }
  exists new. unfold read_classes in En |- *. rewrite bind_unfold in En.
  rewrite !bind_unfold. unfold read_text in *. rewrite Hnew in En.
  rewrite lookup_insert_eq.
  destruct (σ !! new_classes_path) as [[c|]|]; try done.
  simpl in En. assert (classes_of_text (universal_newlines c) = new) as <-
    by (unfold mret, io_ret in En; congruence).
  split; [done|]. cbn [snd]. unfold mret, io_ret. cbn [snd]. f_equal.
  apply classes_mapped_read_back, classes_of_text_names.
Qed.

Lemma classes_mapped_reads_back_witness :
  let σ0 := sample_fs [txt "cat"; txt "dog"] [txt "dog"; txt "cat"]
              [txt "1 0.1 0.2 0.3 0.4"] in
  ∃ new,
    (read_classes p_new σ0).2 = inr new ∧
    (read_classes (child p_out (txt "classes_mapped.txt"))
       (remap_by_name p_labels p_out p_old p_new true σ0).1).2 = inr new.
Proof.
  apply (classes_mapped_reads_back p_labels p_out p_old p_new true _ (Stats 1 1 1 0)).
  - intros [(f & E) | [(E & _) | (_ & _ & [k E])]]; vm_compute in E; discriminate E.
  - vm_compute. reflexivity.
Defined.

(** ** The preview *)

Section preview.

(** The loop of the preview and the loop of the engine build the same lines
    and count alike: kept is unchanged, dropped stays 0. *)
Lemma preview_line_remap_line (d_old : gmap Z str) (d_new : gmap str Z)
    (out_lines : list str) (ct : MinimalApp.counts) (st : stats) (raw : str) :
  MinimalApp.kept ct = unchanged st →
  MinimalApp.changed ct = changed st →
  MinimalApp.dropped ct = 0%nat →
  let a := MinimalApp.preview_line d_old d_new (out_lines, ct) raw in
  let b := remap_line d_old d_new (out_lines, st) raw in
  a.1 = b.1 ∧ MinimalApp.kept a.2 = unchanged b.2
  ∧ MinimalApp.changed a.2 = changed b.2 ∧ MinimalApp.dropped a.2 = 0%nat.
Proof.
  intros Hk Hc Hd. unfold MinimalApp.preview_line, remap_line.
  repeat case_match; simpl; repeat split; congruence.
Qed.

Lemma preview_lines_remap_lines (d_old : gmap Z str) (d_new : gmap str Z)
    (raws : list str) (out_lines : list str) (ct : MinimalApp.counts) (st : stats) :
  MinimalApp.kept ct = unchanged st →
  MinimalApp.changed ct = changed st →
  MinimalApp.dropped ct = 0%nat →
  let a := foldl (MinimalApp.preview_line d_old d_new) (out_lines, ct) raws in
  let b := foldl (remap_line d_old d_new) (out_lines, st) raws in
  a.1 = b.1 ∧ MinimalApp.kept a.2 = unchanged b.2
  ∧ MinimalApp.changed a.2 = changed b.2 ∧ MinimalApp.dropped a.2 = 0%nat.
Proof.
  revert out_lines ct st. induction raws as [|raw raws IH]; intros out_lines ct st Hk Hc Hd.
  - by simpl.
  - cbn [foldl].
    pose proof (preview_line_remap_line d_old d_new out_lines ct st raw Hk Hc Hd) as H.
    destruct (MinimalApp.preview_line d_old d_new (out_lines, ct) raw) as [o1 c1].
    destruct (remap_line d_old d_new (out_lines, st) raw) as [o2 s2].
    simpl in H. destruct H as (-> & H1 & H2 & H3). by apply IH.
Qed.

(** What a preview that shows a remapped text has read and computed. *)
Lemma preview_selected_shown (sel : option str) (labels : path)
    (old_e new_e : MinimalApp.entry) (σ : fs) (content remapped : str)
    (ct : MinimalApp.counts) :
  (MinimalApp.preview_selected sel labels old_e new_e σ).2
  = inr (MinimalApp.Previewed content remapped ct) →
  ∃ fname old new,
    sel = Some fname
    ∧ (MinimalApp.preview_selected sel labels old_e new_e σ).1 = σ
    ∧ read_text (child labels fname) σ = (σ, inr content)
    ∧ MinimalApp.read_classes_entry old_e σ = (σ, inr old)
    ∧ MinimalApp.read_classes_entry new_e σ = (σ, inr new)
    ∧ ct
      = (foldl (MinimalApp.preview_line (old_index_to_name old) (name_to_new new))
           ([], MinimalApp.counts0) (splitlines content)).2
    ∧ remapped
      = file_text
          (foldl (MinimalApp.preview_line (old_index_to_name old) (name_to_new new))
             ([], MinimalApp.counts0) (splitlines content)).1.
Proof.
  unfold MinimalApp.preview_selected. destruct sel as [fname|]; [|done].
  rewrite bind_unfold. simpl. case_match; [done|].
  rewrite bind_unfold.
  pose proof (read_text_fs (child labels fname) σ) as Hrt.
  destruct (read_text (child labels fname) σ) as [σ1 [e|c]] eqn:Ert;
    simpl in Hrt; subst σ1; [done|].
  rewrite bind_unfold. unfold try. rewrite bind_unfold.
  assert (∀ e, (MinimalApp.read_classes_entry e σ).1 = σ) as Hfs.
  { intros [q|]; [apply read_classes_fs|done]. }
  pose proof (Hfs old_e) as Ho.
  destruct (MinimalApp.read_classes_entry old_e σ) as [σ2 [e|old]] eqn:Eo;
    simpl in Ho; subst σ2; [done|].
  rewrite bind_unfold.
  pose proof (Hfs new_e) as Hn.
  destruct (MinimalApp.read_classes_entry new_e σ) as [σ3 [e|new]] eqn:En;
    simpl in Hn; subst σ3; [done|].
  cbn [mret io_ret].
  destruct (foldl (MinimalApp.preview_line _ _) _ _) as [o1 c1] eqn:Ea.
  simpl. intros E.
  assert (c = content ∧ file_text o1 = remapped ∧ c1 = ct) as (-> & <- & ->)
    by (repeat split; congruence).
  exists fname, old, new. rewrite Ea. by repeat split.
Qed.

End preview.

(** X3.  What the preview shows is what the engine computes: the remapped
    text is the text a run writes for this content with the same class
    lists, "changed" and "kept" are the engine's changed and unchanged
    counters, "dropped" is always 0, and the file system is not touched. *)
Theorem preview_agrees_with_engine (sel : option str) (labels : path)
    (old_e new_e : MinimalApp.entry) (σ : fs) (content remapped : str)
    (ct : MinimalApp.counts) :
  (MinimalApp.preview_selected sel labels old_e new_e σ).2
  = inr (MinimalApp.Previewed content remapped ct) →
  ∃ fname old new,
    sel = Some fname
    ∧ (MinimalApp.preview_selected sel labels old_e new_e σ).1 = σ
    ∧ read_text (child labels fname) σ = (σ, inr content)
    ∧ MinimalApp.read_classes_entry old_e σ = (σ, inr old)
    ∧ MinimalApp.read_classes_entry new_e σ = (σ, inr new)
    ∧ remapped = (remap_text old new content).1
    ∧ MinimalApp.changed ct = changed (remap_text old new content).2
    ∧ MinimalApp.kept ct = unchanged (remap_text old new content).2
    ∧ MinimalApp.dropped ct = 0%nat.
Proof.
  intros Hshown.
  destruct (preview_selected_shown _ _ _ _ _ _ _ _ Hshown)
    as (fname & old & new & -> & Hfs & Hread & Ho & Hn & Hct & ->).
  exists fname, old, new.
  pose proof (preview_lines_remap_lines (old_index_to_name old) (name_to_new new)
                (splitlines content) [] MinimalApp.counts0 stats0
                eq_refl eq_refl eq_refl) as HL.
  cbv zeta in HL. rewrite <- Hct in HL.
  destruct HL as (Hlines & Hkept & Hchanged & Hdropped).
  unfold remap_text. cbn [fst snd]. rewrite Hlines.
  by repeat split.
Qed.

Lemma preview_agrees_with_engine_witness :
  let σ0 := sample_fs [txt "cat"; txt "dog"] [txt "dog"; txt "cat"]
              [txt "1 0.1 0.2 0.3 0.4"; txt ""; txt "x"] in
  let content := nl [txt "1 0.1 0.2 0.3 0.4"; txt ""; txt "x"] in
  let remapped := nl [txt "0 0.1 0.2 0.3 0.4"; txt "x"] in
  ∃ fname old new,
    Some (txt "a.txt") = Some fname
    ∧ (MinimalApp.preview_selected (Some (txt "a.txt")) p_labels
         (Some p_old) (Some p_new) σ0).1 = σ0
    ∧ read_text (child p_labels fname) σ0 = (σ0, inr content)
    ∧ MinimalApp.read_classes_entry (Some p_old) σ0 = (σ0, inr old)
    ∧ MinimalApp.read_classes_entry (Some p_new) σ0 = (σ0, inr new)
    ∧ remapped = (remap_text old new content).1
    ∧ MinimalApp.changed (MinimalApp.Counts 1 0 1)
      = changed (remap_text old new content).2
    ∧ MinimalApp.kept (MinimalApp.Counts 1 0 1)
      = unchanged (remap_text old new content).2
    ∧ MinimalApp.dropped (MinimalApp.Counts 1 0 1) = 0%nat.
Proof.
  intros σ0 content remapped.
  apply (preview_agrees_with_engine (Some (txt "a.txt")) p_labels
           (Some p_old) (Some p_new) σ0 content remapped (MinimalApp.Counts 1 0 1)).
  vm_compute. reflexivity.
Defined.

(** ** The files counter *)

Section label_files.

Lemma remap_lines_files (d_old : gmap Z str) (d_new : gmap str Z)
    (raws : list str) (outs : list str) (st : stats) :
  files (foldl (remap_line d_old d_new) (outs, st) raws).2 = files st.
Proof.
  revert outs st. induction raws as [|raw raws IH]; intros outs st; [done|].
  cbn [foldl].
  pose proof (remap_line_counts d_old d_new outs st raw) as H. cbv zeta in H.
  destruct (remap_line d_old d_new (outs, st) raw) as [o1 s1].
  rewrite IH. simpl in H. destruct (decide _); [congruence|]. by destruct H as [-> _].
Qed.

(** One round of the loop counts the entry when it is a label file. *)
Lemma remap_file_files (labels_dir out_dir : path)
    (d_old : gmap Z str) (d_new : gmap str Z) (st st' : stats) (f : str) (σ : fs) :
  (remap_file labels_dir out_dir d_old d_new st f σ).2 = inr st' →
  files st'
  = (files st + if MinimalApp.is_label_file σ labels_dir f then 1 else 0)%nat.
Proof.
  unfold remap_file, MinimalApp.is_label_file. rewrite bind_unfold. simpl.
  destruct (is_file σ (child labels_dir f)); simpl;
    [|intros [= <-]; lia].
  destruct (bool_decide _); simpl; [|intros [= <-]; lia].
  rewrite bind_unfold.
  destruct (read_text (child labels_dir f) σ) as [σ1 [e|c]]; [done|].
  pose proof (remap_lines_files d_old d_new (splitlines c) [] (inc_files st)) as H.
  destruct (foldl _ _ _) as [out_lines st1]. simpl in H.
  rewrite bind_unfold.
  destruct (write_text _ _ σ1) as [σ2 [e|[]]]; [done|].
  intros [= <-]. lia.
Qed.

(** A round never turns an entry of the label directory into a file, or a
    file into something else. *)
Lemma remap_file_is_file (labels_dir out_dir : path)
    (d_old : gmap Z str) (d_new : gmap str Z) (st : stats) (f g : str) (σ : fs) :
  is_file (remap_file labels_dir out_dir d_old d_new st f σ).1 (child labels_dir g)
  = is_file σ (child labels_dir g).
Proof.
  destruct (decide (child labels_dir g = child out_dir f)) as [E|E].
  - apply app_inj_tail in E as [<- ->].
    unfold remap_file. rewrite bind_unfold. simpl.
    destruct (is_file σ (child labels_dir f)) eqn:Hf; simpl; [|by rewrite Hf].
    destruct (bool_decide _); simpl; [|by rewrite Hf].
    rewrite bind_unfold. unfold read_text, is_file in *.
    destruct (σ !! child labels_dir f) as [[c|]|] eqn:Ef; try done.
    destruct (foldl _ _ _) as [out_lines st1].
    rewrite bind_unfold. unfold write_text. rewrite Ef.
    destruct (is_dir σ _); simpl; [by rewrite lookup_insert_eq|by rewrite Ef].
  - unfold is_file. by rewrite remap_file_unchanged.
Qed.

Lemma remap_files_files (labels_dir out_dir : path)
    (d_old : gmap Z str) (d_new : gmap str Z) (names : list str)
    (st st' : stats) (σ : fs) :
  (remap_files labels_dir out_dir d_old d_new st names σ).2 = inr st' →
  files st'
  = (files st
     + length (filter (λ f, MinimalApp.is_label_file σ labels_dir f = true) names))%nat.
Proof.
  revert st σ. induction names as [|f names IH]; intros st σ.
  - simpl. intros [= <-]. lia.
  - cbn [remap_files]. rewrite bind_unfold.
    pose proof (λ st1, remap_file_files labels_dir out_dir d_old d_new st st1 f σ) as H1.
    pose proof (λ g, remap_file_is_file labels_dir out_dir d_old d_new st f g σ) as H2.
    destruct (remap_file labels_dir out_dir d_old d_new st f σ) as [σ1 [e|st1]];
      [done|].
    intros H. apply IH in H. rewrite H, (H1 st1 eq_refl).
    rewrite filter_cons.
    assert (filter (λ f0, MinimalApp.is_label_file σ1 labels_dir f0 = true) names
            = filter (λ f0, MinimalApp.is_label_file σ labels_dir f0 = true) names) as ->.
    { apply list_filter_iff. intros g. unfold MinimalApp.is_label_file.
      simpl in H2. by rewrite H2. }
    destruct (MinimalApp.is_label_file σ labels_dir f); simpl; lia.
Qed.

(** Creating the output directory and the backup makes no entry of the
    label directory a file, and leaves its files in place. *)
Lemma setup_is_file (labels_dir out_dir : path) (create_backup : bool)
    (σ σ1 σ2 : fs) (g : str) :
  is_dir σ labels_dir = true →
  mkdir_parents out_dir σ = (σ1, inr tt) →
  backup_step labels_dir create_backup σ1 = (σ2, inr tt) →
  is_file σ2 (child labels_dir g) = is_file σ (child labels_dir g).
Proof.
  intros Hd Emk E2.
  assert (is_file σ1 (child labels_dir g) = is_file σ (child labels_dir g)) as H1.
  { destruct (is_file σ (child labels_dir g)) eqn:Hf.
    - unfold is_file in *.
      rewrite (mkdir_parents_unchanged out_dir σ σ1 (inr tt)); [done|done|].
      left. by destruct (σ !! child labels_dir g).
    - by apply (mkdir_parents_not_file out_dir σ). }
  rewrite <- H1.
  assert (σ1 !! labels_dir = Some Dir) as Hd1.
  { rewrite (mkdir_parents_unchanged out_dir σ σ1 (inr tt)); [|done|].
    - unfold is_dir in Hd. by destruct (σ !! labels_dir) as [[c|]|].
    - left. unfold is_dir in Hd. by destruct (σ !! labels_dir). }
  destruct (decide (create_backup = true ∧ σ1 !! backup_dir_of labels_dir = None
                    ∧ backup_dir_of labels_dir `prefix_of` child labels_dir g))
    as [(-> & Hnone & Hpre)|Hn].
  - apply backup_dir_not_above_child in Hpre.
    unfold backup_step in E2. rewrite backup_step_copies in E2 by done.
    assert (σ2 = (copytree labels_dir (backup_dir_of labels_dir) σ1).1) as ->
      by congruence.
    unfold is_file. rewrite Hpre, Hnone.
    pose proof (copytree_copies labels_dir (backup_dir_of labels_dir) σ1 [] Dir) as Hc.
    rewrite !app_nil_r in Hc. by rewrite (Hc Hd1).
  - pose proof (backup_step_unchanged labels_dir create_backup σ1
                  (child labels_dir g) Hn) as H2.
    fold (backup_step labels_dir create_backup) in H2. rewrite E2 in H2.
    unfold is_file. simpl in H2. by rewrite H2.
Qed.

Lemma label_files_Permutation (σ σ' : fs) (labels_dir : path) :
  (∀ g, is_file σ' (child labels_dir g) = is_file σ (child labels_dir g)) →
  filter (λ f, MinimalApp.is_label_file σ' labels_dir f = true) (listdir σ' labels_dir)
  ≡ₚ filter (λ f, MinimalApp.is_label_file σ labels_dir f = true) (listdir σ labels_dir).
Proof.
  intros H. apply NoDup_Permutation.
  - apply NoDup_filter, NoDup_listdir.
  - apply NoDup_filter, NoDup_listdir.
  - intros f. rewrite !list_elem_of_filter, !elem_of_listdir.
    unfold MinimalApp.is_label_file. rewrite H.
    split; intros [Hl _]; (split; [done|]);
      apply andb_true_iff in Hl as [Hl _]; [|rewrite <- H in Hl];
      unfold is_file in Hl.
    + by destruct (σ !! child labels_dir f).
    + by destruct (σ' !! child labels_dir f).
Qed.

End label_files.

(** X4.  The files counter of a run that returns is the number of label
    files of the label directory before the run (regular files whose
    lower-cased suffix is ".txt"): the entries [refresh_list] puts in the
    list box. *)
Theorem files_counter_is_listing
    (labels_dir out_dir old_classes_path new_classes_path : path)
    (create_backup : bool) (σ : fs) (st : stats) :
  (remap_by_name labels_dir out_dir old_classes_path new_classes_path
     create_backup σ).2 = inr st →
  ∃ shown,
    MinimalApp.refresh_list (Some labels_dir) σ = (σ, inr (MinimalApp.Listed shown))
    ∧ files st = length shown
    ∧ ∀ f, f ∈ shown ↔ is_file σ (child labels_dir f) = true
                        ∧ lower (suffix f) = txt ".txt".
Proof.
  intros Hst.
  destruct (remap_by_name_returns _ _ _ _ _ _ _ Hst)
    as (σ1 & σ2 & σ5 & old & new & Hd & Emk & E2 & Eo & En & E5 & _).
  eexists. split; [|split].
  - unfold MinimalApp.refresh_list. rewrite bind_unfold. simpl.
    unfold is_dir in Hd. unfold exists_, MinimalApp.iterdir.
    destruct (σ !! labels_dir) as [[c|]|] eqn:El; try done. simpl.
    rewrite bind_unfold, El. reflexivity.
  - pose proof (remap_files_files labels_dir out_dir (old_index_to_name old)
                  (name_to_new new) (sorted (listdir σ2 labels_dir)) stats0 st σ2) as H.
    rewrite E5 in H. rewrite (H eq_refl). simpl.
    rewrite !sorted_Permutation.
    apply Permutation_length, label_files_Permutation.
    intros g. by apply (setup_is_file labels_dir out_dir create_backup σ σ1 σ2).
  - intros f. rewrite sorted_Permutation, list_elem_of_filter, elem_of_listdir.
    unfold MinimalApp.is_label_file. rewrite andb_true_iff, bool_decide_eq_true.
    split; [by intros [? _]|]. intros [Hf Hs]. split; [done|].
    unfold is_file in Hf. by destruct (σ !! child labels_dir f).
Qed.

Lemma files_counter_is_listing_witness :
  let σ0 := sample_fs [txt "cat"; txt "dog"] [txt "dog"; txt "cat"]
              [txt "1 0.1 0.2 0.3 0.4"] in
  ∃ shown,
    MinimalApp.refresh_list (Some p_labels) σ0 = (σ0, inr (MinimalApp.Listed shown))
    ∧ files (Stats 1 1 1 0) = length shown
    ∧ ∀ f, f ∈ shown ↔ is_file σ0 (child p_labels f) = true
                        ∧ lower (suffix f) = txt ".txt".
Proof.
  apply (files_counter_is_listing p_labels p_out p_old p_new true).
  vm_compute. reflexivity.
Defined.

(** ** Lines *)

Section lines.

(** The line emitted for [raw] is [raw] itself or the rebuilt line. *)
Lemma emitted_cases (old new : list str) (raw ln1 : str) :
  emitted old new raw = Some ln1 →
  strip (rstrip_lf raw) ≠ [] ∧
  (ln1 = rstrip_lf raw
   ∨ ∃ i nm j,
       (5 ≤ length (split (rstrip_lf raw)))%nat
       ∧ int (hd [] (split (rstrip_lf raw))) = Some i
       ∧ old_index_to_name old !! i = Some nm
       ∧ name_to_new new !! nm = Some j
       ∧ ln1 = join [SP] (str_of_int j :: tl (split (rstrip_lf raw)))).
Proof.
  unfold emitted, remap_line.
  destruct (decide (strip (rstrip_lf raw) = [])) as [|Hne]; [done|].
  destruct (length (split (rstrip_lf raw)) <? 5)%nat eqn:Hlen;
    [intros [= <-]; auto|].
  apply Nat.ltb_ge in Hlen.
  destruct (int (hd [] (split (rstrip_lf raw)))) as [i|] eqn:Hi;
    [|intros [= <-]; auto].
  destruct (old_index_to_name old !! i) as [nm|] eqn:Hnm; [|intros [= <-]; auto].
  destruct (name_to_new new !! nm) as [j|] eqn:Hj; [|intros [= <-]; auto].
  cbn -[join]. intros E. split; [done|]. right. exists i, nm, j.
  repeat split; try done. congruence.
Qed.

Lemma emitted_None (old new : list str) (raw : str) :
  emitted old new raw = None ↔ strip (rstrip_lf raw) = [].
Proof.
  unfold emitted, remap_line.
  destruct (decide (strip (rstrip_lf raw) = [])) as [|Hne]; [done|].
  split; [|done]. repeat case_match; cbn -[join]; done.
Qed.

Lemma split_rebuilt (j : Z) (parts : list str) :
  Forall token parts →
  split (join [SP] (str_of_int j :: tl parts)) = str_of_int j :: tl parts.
Proof.
  intros H. apply split_join. constructor; [apply str_of_int_token|].
  destruct parts; [done|]. by apply Forall_inv_tail in H.
Qed.

(** The lines counter counts the lines that are not blank. *)
Lemma remap_lines_lines (d_old : gmap Z str) (d_new : gmap str Z)
    (raws : list str) (outs : list str) (st : stats) :
  lines (foldl (remap_line d_old d_new) (outs, st) raws).2
  = (lines st + length (filter (λ raw, strip (rstrip_lf raw) ≠ []) raws))%nat.
Proof.
  revert outs st. induction raws as [|raw raws IH]; intros outs st; [simpl; lia|].
  cbn [foldl].
  pose proof (remap_line_counts d_old d_new outs st raw) as H. cbv zeta in H.
  destruct (remap_line d_old d_new (outs, st) raw) as [o1 s1].
  rewrite IH, filter_cons. simpl in H.
  destruct (decide (strip (rstrip_lf raw) = [])) as [E|E].
  - rewrite decide_False by (by intros ?). congruence.
  - rewrite decide_True by done. destruct H as (_ & -> & _). simpl. lia.
Qed.

Lemma omap_emitted_length (old new : list str) (raws : list str) :
  length (omap (emitted old new) raws)
  = length (filter (λ raw, strip (rstrip_lf raw) ≠ []) raws).
Proof.
  induction raws as [|raw raws IH]; [done|].
  rewrite filter_cons.
  change (omap (emitted old new) (raw :: raws))
    with (match emitted old new raw with
          | Some y => y :: omap (emitted old new) raws
          | None => omap (emitted old new) raws
          end).
  destruct (emitted old new raw) as [ln1|] eqn:E.
  - apply emitted_cases in E as [Hne _]. rewrite decide_True by done.
    cbn [length]. by rewrite IH.
  - apply emitted_None in E. rewrite decide_False by (by intros ?). done.
Qed.

End lines.

(** X5.  Every line the engine emits, rewritten or kept, has the tokens of
    the input line after the first one, and as many tokens: only the first
    token of a line can change. *)
Theorem remap_keeps_payload (old new : list str) (raw ln1 : str) :
  emitted old new raw = Some ln1 →
  tl (split ln1) = tl (split (rstrip_lf raw))
  ∧ length (split ln1) = length (split (rstrip_lf raw)).
Proof.
  intros E. apply emitted_cases in E as [_ [->|(i & nm & j & Hlen & _ & _ & _ & ->)]];
    [done|].
  rewrite split_rebuilt by apply split_tokens. split; [done|].
  destruct (split (rstrip_lf raw)); simpl in *; lia.
Qed.

Lemma remap_keeps_payload_witness :
  tl (split (txt "0 0.1 0.2 0.3 0.4 extra"))
  = tl (split (rstrip_lf (txt "  1 0.1   0.2 0.3 0.4 extra ")))
  ∧ length (split (txt "0 0.1 0.2 0.3 0.4 extra"))
    = length (split (rstrip_lf (txt "  1 0.1   0.2 0.3 0.4 extra "))).
Proof.
  apply (remap_keeps_payload [txt "cat"; txt "dog"] [txt "dog"; txt "cat"]).
  vm_compute. reflexivity.
Defined.

(** X6.  With a class list without duplicates used as both lists, every
    emitted line has the class index and the remaining tokens of the input
    line: the identity remap moves no box to another class. *)
Theorem remap_identity_keeps_class (old : list str) (raw ln1 : str) :
  NoDup old →
  emitted old old raw = Some ln1 →
  class_index ln1 = class_index (rstrip_lf raw)
  ∧ tl (split ln1) = tl (split (rstrip_lf raw)).
Proof.
  intros Hnd E.
  apply emitted_cases in E as [_ [->|(i & nm & j & Hlen & Hi & Hnm & Hj & ->)]];
    [done|].
  unfold class_index. rewrite split_rebuilt by apply split_tokens.
  split; [|done]. cbn [hd]. rewrite int_str_of_int, Hi. f_equal.
  rewrite old_index_to_name_lookup in Hnm.
  destruct (decide (0 ≤ i)) as [Hi0|]; [|done].
  rewrite name_to_new_lookup, (last_index_NoDup nm old (Z.to_nat i)) in Hj by done.
  simpl in Hj. injection Hj as <-. lia.
Qed.

Lemma remap_identity_keeps_class_witness :
  class_index (txt "1 0.1 0.2 0.3 0.4")
  = class_index (rstrip_lf (txt "+01  0.1 0.2 0.3 0.4"))
  ∧ tl (split (txt "1 0.1 0.2 0.3 0.4"))
    = tl (split (rstrip_lf (txt "+01  0.1 0.2 0.3 0.4"))).
Proof.
  apply (remap_identity_keeps_class [txt "cat"; txt "dog"]).
  - apply (bool_decide_unpack _). vm_compute. reflexivity.
  - vm_compute. reflexivity.
Defined.

(** X7.  The text written for a label file has one line for each line of
    the input that is not blank, in the same order, and nothing else: read
    back, it splits into exactly the emitted lines, none of them blank, and
    their number is the lines counter. *)
Theorem remap_text_drops_blank_lines (old new : list str) (content : str) :
  let written := (remap_text old new content).1 in
  let not_blank := filter (λ raw, strip (rstrip_lf raw) ≠ []) (splitlines content) in
  splitlines (universal_newlines written) = omap (emitted old new) (splitlines content)
  ∧ length (splitlines (universal_newlines written)) = length not_blank
  ∧ lines (remap_text old new content).2 = length not_blank
  ∧ Forall (λ ln, strip ln ≠ []) (splitlines (universal_newlines written)).
Proof.
  cbv zeta. unfold remap_text. cbn [fst snd].
  assert (Forall plain_line (omap (emitted old new) (splitlines content))) as Hplain.
  { apply Forall_forall. intros ln1 (raw & Hraw & E)%list_elem_of_omap.
    by apply (emitted_plain old new content raw). }
  rewrite (remap_lines_emitted old new (splitlines content) ([], stats0)).
  cbn [fst app]. rewrite splitlines_file_text by done.
  split; [done|]. split; [apply omap_emitted_length|]. split.
  - by rewrite remap_lines_lines.
  - apply Forall_forall. intros ln1 (raw & Hraw & E)%list_elem_of_omap.
    pose proof (rstrip_lf_splitlines content raw Hraw) as Hr.
    apply emitted_cases in E as [Hne [->|(i & nm & j & Hlen & _ & _ & _ & ->)]].
    + done.
    + intros Hb. apply split_blank in Hb.
      rewrite split_rebuilt in Hb by apply split_tokens. done.
Qed.

(** ** The backup *)

Section backup.

(** Writing a text never replaces a directory. *)
Lemma write_text_keeps_dir (q : path) (data : str) (σ : fs) (p : path) :
  σ !! p = Some Dir → (write_text q data σ).1 !! p = Some Dir.
Proof.
  intros Hp. destruct (decide (p = q)) as [->|Hne].
  - unfold write_text. by rewrite Hp.
  - by rewrite write_text_unchanged.
Qed.

Lemma remap_file_keeps_dir (labels_dir out_dir : path)
    (d_old : gmap Z str) (d_new : gmap str Z) (st : stats) (f : str)
    (σ : fs) (p : path) :
  σ !! p = Some Dir →
  (remap_file labels_dir out_dir d_old d_new st f σ).1 !! p = Some Dir.
Proof.
  intros Hp. unfold remap_file. rewrite bind_unfold. simpl.
  case_match; [done|]. rewrite bind_unfold.
  pose proof (read_text_fs (child labels_dir f) σ) as Hrt.
  destruct (read_text (child labels_dir f) σ) as [σ1 [e|c]];
    simpl in Hrt; subst σ1; [done|].
  destruct (foldl _ _ _) as [out_lines st1]. rewrite bind_unfold.
  pose proof (write_text_keeps_dir (child out_dir f) (file_text out_lines) σ p Hp) as Hw.
  by destruct (write_text _ _ σ) as [σ2 [e|[]]].
Qed.

Lemma remap_files_keeps_dir (labels_dir out_dir : path)
    (d_old : gmap Z str) (d_new : gmap str Z) (names : list str) (st : stats)
    (σ : fs) (p : path) :
  σ !! p = Some Dir →
  (remap_files labels_dir out_dir d_old d_new st names σ).1 !! p = Some Dir.
Proof.
  revert st σ. induction names as [|f names IH]; intros st σ Hp; [done|].
  cbn [remap_files]. rewrite bind_unfold.
  pose proof (remap_file_keeps_dir labels_dir out_dir d_old d_new st f σ p Hp) as H1.
  destruct (remap_file _ _ _ _ _ _ σ) as [σ1 [e|st1]]; [done|]. by apply IH.
Qed.

(** What the run does after the backup step (lines 54 to 98) keeps the
    entries that are not entries of the output directory, and the
    directories. *)
Lemma after_backup_keeps
    (labels_dir out_dir old_classes_path new_classes_path : path)
    (σ2 : fs) (p : path) (n : node) :
  (∀ f, p ≠ child out_dir f) ∨ n = Dir →
  σ2 !! p = Some n →
  ((old ← read_classes old_classes_path;
    new ← read_classes new_classes_path;
    let d_new := name_to_new new in
    let d_old := old_index_to_name old in
    σ ← get_fs;
    st ← remap_files labels_dir out_dir d_old d_new stats0
           (sorted (listdir σ labels_dir));
    _ ← write_text (child out_dir (txt "classes_mapped.txt"))
          (join [LF] new ++ [LF]);
    mret st) σ2).1 !! p = Some n.
Proof.
  intros Hp H2. rewrite bind_unfold.
  pose proof (read_classes_fs old_classes_path σ2) as Hro.
  destruct (read_classes old_classes_path σ2) as [σ3 [e|old]];
    simpl in Hro; subst σ3; [done|].
  rewrite bind_unfold.
  pose proof (read_classes_fs new_classes_path σ2) as Hrn.
  destruct (read_classes new_classes_path σ2) as [σ4 [e|new]];
    simpl in Hrn; subst σ4; [done|].
  rewrite bind_unfold. simpl. rewrite bind_unfold.
  assert ((remap_files labels_dir out_dir (old_index_to_name old) (name_to_new new)
             stats0 (sorted (listdir σ2 labels_dir)) σ2).1 !! p = Some n) as H5.
  { destruct Hp as [Hp| ->].
    - by rewrite remap_files_unchanged.
    - by apply remap_files_keeps_dir. }
  destruct (remap_files _ _ _ _ _ _ σ2) as [σ5 [e|st5]]; simpl in H5; [done|].
  rewrite bind_unfold.
  assert ((write_text (child out_dir (txt "classes_mapped.txt"))
             (join [LF] new ++ [LF]) σ5).1 !! p = Some n) as H6.
  { destruct Hp as [Hp| ->].
    - by rewrite write_text_unchanged.
    - by apply write_text_keeps_dir. }
  by destruct (write_text _ _ σ5) as [σ6 [e|[]]].
Qed.

End backup.

(** X8.  A run that makes the backup leaves, at the end, a copy of every
    entry of the label directory under the backup directory, with the
    content it had before the run, also when the run raises later and also
    when the output directory is the label directory itself. *)
Theorem backup_holds_originals
    (labels_dir out_dir old_classes_path new_classes_path : path) (σ : fs) :
  is_dir σ labels_dir = true →
  (mkdir_parents out_dir σ).2 = inr tt →
  σ !! backup_dir_of labels_dir = None →
  ¬ backup_dir_of labels_dir `prefix_of` out_dir →
  ∀ rel n, σ !! (labels_dir ++ rel) = Some n →
    (remap_by_name labels_dir out_dir old_classes_path new_classes_path true σ).1
      !! (backup_dir_of labels_dir ++ rel) = Some n.
Proof.
  intros Hd Hmk Hnone Hpre rel n Hrel.
  assert (σ !! labels_dir = Some Dir) as El
    by (unfold is_dir in Hd; by destruct (σ !! labels_dir) as [[c|]|]).
  assert (exists_ σ labels_dir = true) as He by (unfold exists_; by rewrite El).
  unfold remap_by_name. rewrite bind_unfold. simpl.
  rewrite Hd, He. simpl.
  rewrite bind_unfold.
  destruct (mkdir_parents out_dir σ) as [σ1 r1] eqn:Emk. simpl in Hmk. subst r1.
  assert (∀ q, is_Some (σ !! q) ∨ ¬ q `prefix_of` out_dir → σ1 !! q = σ !! q) as H1
    by (intros q; by apply mkdir_parents_unchanged with (inr tt)).
  rewrite bind_unfold.
  rewrite backup_step_copies by (rewrite H1; auto).
  apply after_backup_keeps.
  - destruct rel as [|x rel _] using rev_ind.
    + right. rewrite app_nil_r, El in Hrel. congruence.
    + left. intros f E. unfold child in E. rewrite app_assoc in E.
      apply app_inj_tail in E as [E _]. apply Hpre. by exists rel.
  - apply copytree_copies. rewrite H1; [done|]. left. by eexists.
Qed.

Lemma backup_holds_originals_witness :
  (remap_by_name p_labels p_labels p_old p_new true
     (sample_fs [txt "cat"; txt "dog"] [txt "dog"; txt "cat"]
        [txt "1 0.1 0.2 0.3 0.4"])).1
    !! (backup_dir_of p_labels ++ [txt "a.txt"])
  = Some (File (nl [txt "1 0.1 0.2 0.3 0.4"])).
Proof.
  apply backup_holds_originals.
  - vm_compute. reflexivity.
  - vm_compute. reflexivity.
  - vm_compute. reflexivity.
  - intros [k E]. vm_compute in E. discriminate E.
  - vm_compute. reflexivity.
Defined.

(** X9.  An existing backup is left alone: when the backup directory is
    there before the run, asking for a backup makes no difference to the
    result and to the file system. *)
Theorem existing_backup_left_alone
    (labels_dir out_dir old_classes_path new_classes_path : path) (σ : fs) :
  exists_ σ (backup_dir_of labels_dir) = true →
  remap_by_name labels_dir out_dir old_classes_path new_classes_path true σ
  = remap_by_name labels_dir out_dir old_classes_path new_classes_path false σ.
Proof.
  intros Hb. unfold remap_by_name. rewrite !bind_unfold. simpl.
  case_match; [done|]. rewrite !bind_unfold.
  destruct (mkdir_parents out_dir σ) as [σ1 r1] eqn:Emk.
  destruct r1 as [e|[]]; [done|]. rewrite !bind_unfold.
  assert (exists_ σ1 (backup_dir_of labels_dir) = true) as Hb1.
  { unfold exists_ in *.
    rewrite (mkdir_parents_unchanged out_dir σ σ1 (inr tt)); [done|done|].
    left. by destruct (σ !! backup_dir_of labels_dir). }
  simpl. by rewrite Hb1.
Qed.

Lemma existing_backup_left_alone_witness :
  let σ0 := <[backup_dir_of p_labels := Dir]>
              (sample_fs [txt "cat"; txt "dog"] [txt "dog"; txt "cat"]
                 [txt "1 0.1 0.2 0.3 0.4"]) in
  remap_by_name p_labels p_out p_old p_new true σ0
  = remap_by_name p_labels p_out p_old p_new false σ0.
Proof.
  apply existing_backup_left_alone. vm_compute. reflexivity.
Defined.

(** ** The renamer never loses a file *)

Section moved.

Lemma moved_outside (directory : path) (σ σ' : fs) (p : path) :
  moved directory σ σ' → (∀ f, p ≠ child directory f) → σ' !! p = σ !! p.
Proof.
  intros H Hp. induction H as [|σ σ' f f' c Hf Hf' _ IH]; [done|].
  rewrite IH, lookup_insert_ne, lookup_delete_ne; [done|..]; by apply not_eq_sym.
Qed.

Lemma moved_nodes (directory : path) (σ σ' : fs) :
  moved directory σ σ' → nodes σ' ≡ₚ nodes σ.
Proof.
  induction 1 as [|σ σ' f f' c Hf Hf' _ IH]; [done|].
  rewrite IH. unfold nodes.
  assert (child directory f ≠ child directory f') as Hne by congruence.
  rewrite map_to_list_insert by (by rewrite lookup_delete_ne).
  rewrite <- (map_to_list_delete σ (child directory f) (File c)) by done.
  done.
Qed.

Lemma moved_files (directory : path) (σ σ' : fs) (f : str) (c : str) :
  moved directory σ σ' →
  σ !! child directory f = Some (File c) →
  ∃ f', σ' !! child directory f' = Some (File c).
Proof.
  intros H. revert f. induction H as [σ|σ σ' g g' c' Hg Hg' _ IH]; intros f Hf.
  - by exists f.
  - destruct (decide (f = g)) as [->|Hne].
    + assert (c' = c) as -> by congruence.
      apply (IH g'). by rewrite lookup_insert_eq.
    + apply (IH f).
      assert (child directory g ≠ child directory f) as H1
        by (intros E; by apply app_inj_tail in E as [_ ->]).
      assert (child directory g' ≠ child directory f) as H2 by congruence.
      by rewrite lookup_insert_ne, lookup_delete_ne.
Qed.

Lemma moved_dirs (directory : path) (σ σ' : fs) (p : path) :
  moved directory σ σ' → σ' !! p = Some Dir ↔ σ !! p = Some Dir.
Proof.
  induction 1 as [|σ σ' f f' c Hf Hf' _ IH]; [done|].
  rewrite IH.
  destruct (decide (p = child directory f')) as [->|Hne'].
  { rewrite lookup_insert_eq, Hf'. split; congruence. }
  rewrite lookup_insert_ne by done.
  destruct (decide (p = child directory f)) as [->|Hne].
  { rewrite lookup_delete_eq, Hf. split; congruence. }
  by rewrite lookup_delete_ne.
Qed.

(** The loop only moves files of the directory to free names. *)
Lemma rename_loop_moved (directory : path) (start_number : Z) (pfx : str)
    (dry_run : bool) (padding : nat) (names : list str) (i : Z) (count : nat)
    (out : list msg) (σ : fs) :
  Forall (λ f, σ !! child directory f ≠ Some Dir) names →
  moved directory σ
    (rename_loop directory start_number pfx dry_run padding i names count out σ).1.
Proof.
  revert i count out σ.
  induction names as [|f names IH]; intros i count out σ Hnames.
  - apply moved_refl.
  - apply Forall_cons in Hnames as [Hf Hnames].
    cbn [rename_loop]. rewrite bind_unfold. simpl.
    destruct (exists_ σ _ && bool_decide _) eqn:Hguard; [by apply IH|].
    destruct dry_run; [by apply IH|].
    rewrite bind_unfold. unfold try, os_rename.
    set (new_filename := new_name pfx padding (start_number + i) f) in *.
    destruct (has_nul _ || has_nul _); [apply moved_refl|].
    destruct (σ !! child directory f) as [[c|]|] eqn:Eold;
      [|done|destruct (too_long _); by apply IH].
    destruct (decide (child directory f = child directory new_filename)) as [E|E];
      [by apply IH|].
    destruct (negb (exists_ σ (parent (child directory new_filename))));
      [by apply IH|].
    destruct (negb (is_dir σ (parent (child directory new_filename))));
      [by apply IH|].
    destruct (too_long _); [by apply IH|].
    rewrite bool_decide_true, andb_true_r in Hguard by done.
    unfold exists_ in Hguard.
    destruct (σ !! child directory new_filename) eqn:Enew; [done|].
    apply (moved_step directory σ _ f new_filename c Eold Enew).
    apply IH. eapply Forall_impl; [exact Hnames|]. intros g Hg. simpl in Hg.
    destruct (decide (child directory g = child directory new_filename)) as [->|Hn'].
    { by rewrite lookup_insert_eq. }
    rewrite lookup_insert_ne by done.
    destruct (decide (child directory g = child directory f)) as [->|Hn].
    { by rewrite lookup_delete_eq. }
    by rewrite lookup_delete_ne.
Qed.

Lemma rename_images_moved (directory : path) (start_number : Z) (pfx : str)
    (dry_run : bool) (σ : fs) :
  moved directory σ (rename_images directory start_number pfx dry_run σ).1.
Proof.
  unfold rename_images. rewrite bind_unfold. unfold try, os_listdir.
  destruct (σ !! directory) as [[c|]|]; try apply moved_refl.
  rewrite bind_unfold. simpl.
  set (imgs := filter (λ file, is_image file = true)
                 (filter (λ f, is_file σ (child directory f) = true)
                    (listdir σ directory))).
  destruct imgs as [|f0 imgs0] eqn:Eimgs; [apply moved_refl|].
  assert (Forall (λ f, σ !! child directory f ≠ Some Dir) (sorted (f0 :: imgs0)))
    as Hfiles.
  { apply Forall_forall. intros f Hf.
    rewrite sorted_Permutation, <- Eimgs in Hf. unfold imgs in Hf.
    apply list_elem_of_filter in Hf as [_ Hf].
    apply list_elem_of_filter in Hf as [Hf _].
    unfold is_file in Hf. by destruct (σ !! child directory f) as [[?|]|]. }
  rewrite bind_unfold.
  match goal with
  | |- context [rename_loop ?d ?s ?p ?dr ?pad ?i ?l ?n ?o σ] =>
      pose proof (rename_loop_moved d s p dr pad l i n o σ Hfiles) as H;
      destruct (rename_loop d s p dr pad i l n o σ) as [σ' [e|[cnt msgs]]]
  end; [done|].
  by destruct dry_run.
Qed.

End moved.

(** X10.  The renamer never loses or overwrites a file, whatever the start
    number, the names in the directory and the mode: after a run the file
    system holds the same nodes as before (the same files with the same
    contents), every file of the directory is still in the directory,
    possibly under another name, and nothing outside the entries of the
    directory has changed. *)
Theorem rename_images_keeps_files (directory : path) (start_number : Z)
    (pfx : str) (dry_run : bool) (σ : fs) :
  plain_prefix pfx →
  let σ' := (rename_images directory start_number pfx dry_run σ).1 in
  nodes σ' ≡ₚ nodes σ
  ∧ (∀ f c, σ !! child directory f = Some (File c) →
       ∃ f', σ' !! child directory f' = Some (File c))
  ∧ (∀ p, (∀ f, p ≠ child directory f) → σ' !! p = σ !! p).
Proof.
  intros _ σ'.
  pose proof (rename_images_moved directory start_number pfx dry_run σ) as H.
  fold σ' in H. split; [|split].
  - by apply moved_nodes with directory.
  - intros f c. by apply moved_files.
  - intros p. by apply moved_outside.
Qed.

Lemma rename_images_keeps_files_witness :
  let σ0 := images_fs [txt "a.jpg"; txt "image_1.jpg"; txt "notes.txt"] in
  let σ' := (rename_images p_imgs 1 (txt "image") false σ0).1 in
  nodes σ' ≡ₚ nodes σ0
  ∧ (∀ f c, σ0 !! child p_imgs f = Some (File c) →
       ∃ f', σ' !! child p_imgs f' = Some (File c))
  ∧ (∀ p, (∀ f, p ≠ child p_imgs f) → σ' !! p = σ0 !! p).
Proof.
  apply (rename_images_keeps_files p_imgs 1 (txt "image") false).
  vm_compute. reflexivity.
Defined.

(** ** What the renamer prints *)

Section report.

(** Between names without NUL [os.rename] raises nothing but [OSError]. *)
Lemma os_rename_OSError (old new : path) (σ σ' : fs) (e : exn) :
  has_nul (name old) = false → has_nul (name new) = false →
  os_rename old new σ = (σ', inl e) → is_OSError e = true.
Proof.
  unfold os_rename. intros -> ->. simpl.
  repeat case_match; by intros [= <- <-].
Qed.

(** With a prefix and image files whose names hold no NUL the loop does not
    raise; it prints one line for each file, in order, and counts the lines
    "Renamed". *)
Lemma rename_loop_report (directory : path) (start_number : Z) (pfx : str)
    (dry_run : bool) (padding : nat) (names : list str) (i : Z) (count : nat)
    (out : list msg) (σ : fs) :
  plain_prefix pfx →
  Forall (λ f, has_nul f = false ∧ is_image f = true) names →
  ∃ σ' body,
    rename_loop directory start_number pfx dry_run padding i names count out σ
    = (σ', inr ((count + length (filter (λ m, is_renamed m = true) body))%nat,
                out ++ body))
    ∧ subject <$> body = Some <$> names.
Proof.
  intros Hplain Hnames. revert i count out σ.
  induction Hnames as [|f names [Hnul Himg] _ IH]; intros i count out σ.
  - exists σ, []. simpl. rewrite app_nil_r, Nat.add_0_r. done.
  - cbn [rename_loop]. rewrite bind_unfold. simpl.
    set (new_filename := new_name pfx padding (start_number + i) f).
    assert (∀ m c' σ1, subject m = Some f →
              c' = (count + if is_renamed m then 1 else 0)%nat →
              ∃ σ' body,
                rename_loop directory start_number pfx dry_run padding (i + 1)
                  names c' (out ++ [m]) σ1
                = (σ', inr ((count + length (filter (λ m, is_renamed m = true) body))%nat,
                            out ++ body))
                ∧ subject <$> body = Some <$> (f :: names)) as Hstep.
    { intros m c' σ1 Hm ->.
      destruct (IH (i + 1) (count + if is_renamed m then 1 else 0)%nat
                  (out ++ [m]) σ1) as (σ' & body & -> & Hb).
      exists σ', (m :: body). rewrite <- app_assoc. split.
      - rewrite filter_cons. do 3 f_equal.
        destruct (is_renamed m); simpl; lia.
      - rewrite !fmap_cons. by rewrite Hm, Hb. }
    destruct (exists_ σ _ && bool_decide _).
    { apply Hstep; [done|simpl; lia]. }
    destruct dry_run.
    { apply Hstep; [done|simpl; lia]. }
    rewrite bind_unfold. unfold try.
    destruct (os_rename _ _ σ) as [σ1 [e|[]]] eqn:Er.
    + apply os_rename_OSError in Er as ->;
        [|by rewrite name_child|rewrite name_child; by apply has_nul_new_name].
      apply Hstep; [done|simpl; lia].
    + apply Hstep; [done|simpl; lia].
Qed.

End report.

(** X11.  With a prefix that holds neither a path separator nor a NUL
    character and image files whose names hold no NUL character, a run on a
    directory with image files returns, and it prints the number of image
    files found, then exactly one line for each of them, in sorted order
    (skipped, would rename, renamed or error), then the summary, whose count
    is the number of lines "Renamed".  (With a NUL character in a name
    [os.rename] raises [ValueError], which the run does not catch.) *)
Theorem rename_images_report (directory : path) (start_number : Z) (pfx : str)
    (dry_run : bool) (σ : fs) :
  plain_prefix pfx →
  (∀ f, f ∈ image_files σ directory → has_nul f = false) →
  is_dir σ directory = true →
  image_files σ directory ≠ [] →
  ∃ body,
    (rename_images directory start_number pfx dry_run σ).2
    = inr (Found (length (image_files σ directory)) directory
           :: body
           ++ [summary dry_run (length (filter (λ m, is_renamed m = true) body))])
    ∧ subject <$> body = Some <$> image_files σ directory.
Proof.
  intros Hplain Hnul Hd Himgs.
  assert (Forall (λ f, has_nul f = false ∧ is_image f = true)
            (image_files σ directory)) as Hnames.
  { apply Forall_forall. intros f Hf. split; [by apply Hnul|].
    revert Hf. unfold image_files. rewrite sorted_Permutation.
    rewrite !list_elem_of_filter. tauto. }
  revert Himgs Hnames. unfold rename_images. rewrite bind_unfold.
  unfold try, os_listdir. unfold is_dir in Hd.
  destruct (σ !! directory) as [[c|]|]; try done.
  rewrite bind_unfold. simpl. unfold image_files.
  set (imgs := filter (λ file, is_image file = true)
                 (filter (λ f, is_file σ (child directory f) = true)
                    (listdir σ directory))).
  intros Himgs Hnames.
  destruct imgs as [|f0 imgs0] eqn:Eimgs; [done|].
  rewrite bind_unfold.
  match goal with
  | |- context [rename_loop ?d ?s ?p ?dr ?pad ?i ?l ?n ?o σ] =>
      destruct (rename_loop_report d s p dr pad l i n o σ Hplain Hnames)
        as (σ' & body & -> & Hb)
  end.
  exists body. split; [|done]. unfold summary. by destruct dry_run.
Qed.

Lemma rename_images_report_witness :
  let σ0 := images_fs [txt "a.jpg"; txt "image_1.jpg"; txt "notes.txt"] in
  ∃ body,
    (rename_images p_imgs 1 (txt "image") false σ0).2
    = inr (Found (length (image_files σ0 p_imgs)) p_imgs
           :: body
           ++ [summary false (length (filter (λ m, is_renamed m = true) body))])
    ∧ subject <$> body = Some <$> image_files σ0 p_imgs.
Proof.
  assert (image_files (images_fs [txt "a.jpg"; txt "image_1.jpg"; txt "notes.txt"])
            p_imgs = [txt "a.jpg"; txt "image_1.jpg"]) as E
    by (vm_compute; reflexivity).
  apply (rename_images_report p_imgs 1 (txt "image") false).
  - vm_compute. reflexivity.
  - intros f Hf. rewrite E in Hf.
    apply list_elem_of_lookup in Hf as [i Hi].
    destruct i as [|[|i]]; simpl in Hi; try discriminate Hi;
      injection Hi as <-; reflexivity.
  - vm_compute. reflexivity.
  - rewrite E. discriminate.
Defined.

(** X12.  Without a directory to work on the renamer touches nothing: a
    missing directory gives the line "Directory not found"; a path that is
    a regular file raises [NotADirectoryError], which the function does not
    catch. *)
Theorem rename_images_no_directory (directory : path) (start_number : Z)
    (pfx : str) (dry_run : bool) (σ : fs) :
  is_dir σ directory = false →
  rename_images directory start_number pfx dry_run σ
  = (σ, if exists_ σ directory then inl NotADirectoryError
        else inr [ErrDirectoryNotFound directory]).
Proof.
  unfold is_dir, exists_, rename_images. rewrite bind_unfold.
  unfold try, os_listdir. by destruct (σ !! directory) as [[c|]|].
Qed.

Lemma rename_images_no_directory_witness :
  rename_images p_old 1 (txt "image") false
    (sample_fs [txt "cat"] [txt "cat"] [])
  = (sample_fs [txt "cat"] [txt "cat"] [],
     if exists_ (sample_fs [txt "cat"] [txt "cat"] []) p_old
     then inl NotADirectoryError
     else inr [ErrDirectoryNotFound p_old]).
Proof.
  apply rename_images_no_directory. vm_compute. reflexivity.
Defined.

(** X13.  In a directory where no regular file has an image extension the
    renamer prints "No image files found" and changes nothing, in both
    modes; directories with an image extension in their name do not count. *)
Theorem rename_images_no_images (directory : path) (start_number : Z)
    (pfx : str) (dry_run : bool) (σ : fs) :
  is_dir σ directory = true →
  (∀ f, is_file σ (child directory f) = true → is_image f = false) →
  rename_images directory start_number pfx dry_run σ = (σ, inr [NoImageFiles]).
Proof.
  intros Hd Hno. unfold rename_images. rewrite bind_unfold.
  unfold try, os_listdir. unfold is_dir in Hd.
  destruct (σ !! directory) as [[c|]|]; try done.
  rewrite bind_unfold. simpl.
  destruct (filter (λ file, is_image file = true)
              (filter (λ f, is_file σ (child directory f) = true)
                 (listdir σ directory))) as [|f imgs] eqn:E; [done|].
  assert (f ∈ f :: imgs) as Hf by left. rewrite <- E in Hf.
  apply list_elem_of_filter in Hf as [Hi Hf].
  apply list_elem_of_filter in Hf as [Hf _].
  apply Hno in Hf. congruence.
Qed.

Lemma rename_images_no_images_witness :
  rename_images p_imgs 1 (txt "image") false
    (<[child p_imgs (txt "old.png") := Dir]> {[ p_imgs := Dir ]})
  = (<[child p_imgs (txt "old.png") := Dir]> {[ p_imgs := Dir ]},
     inr [NoImageFiles]).
Proof.
  apply rename_images_no_images.
  - vm_compute. reflexivity.
  - intros f Hf. unfold is_file in Hf.
    destruct (decide (child p_imgs (txt "old.png") = child p_imgs f)) as [E|E].
    + rewrite <- E, lookup_insert_eq in Hf. discriminate Hf.
    + rewrite lookup_insert_ne, lookup_singleton_ne in Hf;
        [discriminate Hf|apply child_ne|exact E].
Defined.

(** ** The list box and the preview against the run *)

(** X14.  For an existing folder [refresh_list] fills the list box with the
    label files of the folder (regular files whose lower-cased suffix is
    ".txt"), each once, in sorted order, and does not touch the file
    system. *)
Theorem refresh_list_lists_label_files (p : path) (σ : fs) :
  is_dir σ p = true →
  ∃ shown,
    MinimalApp.refresh_list (Some p) σ = (σ, inr (MinimalApp.Listed shown))
    ∧ Sorted str_le shown ∧ NoDup shown
    ∧ ∀ f, f ∈ shown ↔ is_file σ (child p f) = true ∧ lower (suffix f) = txt ".txt".
Proof.
  intros Hd. eexists. split; [|split; [|split]].
  - unfold MinimalApp.refresh_list. rewrite bind_unfold. simpl.
    unfold is_dir in Hd. unfold exists_, MinimalApp.iterdir.
    destruct (σ !! p) as [[c|]|] eqn:El; try done. simpl.
    rewrite bind_unfold, El. reflexivity.
  - apply sorted_Sorted.
  - rewrite sorted_Permutation. apply NoDup_filter, NoDup_listdir.
  - intros f. rewrite sorted_Permutation, list_elem_of_filter, elem_of_listdir.
    unfold MinimalApp.is_label_file. rewrite andb_true_iff, bool_decide_eq_true.
    split; [by intros [? _]|]. intros [Hf Hs]. split; [done|].
    unfold is_file in Hf. by destruct (σ !! child p f).
Qed.

Lemma refresh_list_lists_label_files_witness :
  let σ0 := sample_fs [txt "cat"] [txt "cat"] [] in
  ∃ shown,
    MinimalApp.refresh_list (Some p_labels) σ0 = (σ0, inr (MinimalApp.Listed shown))
    ∧ Sorted str_le shown ∧ NoDup shown
    ∧ ∀ f, f ∈ shown ↔ is_file σ0 (child p_labels f) = true
                        ∧ lower (suffix f) = txt ".txt".
Proof.
  apply refresh_list_lists_label_files. vm_compute. reflexivity.
Defined.

Section run_writes.

(** A round that returns on a label file has written [remap_text] of what
    it read. *)
Lemma remap_file_returns_writes (labels_dir out_dir : path) (old new : list str)
    (st st' : stats) (f : str) (σ σ' : fs) (c : str) :
  remap_file labels_dir out_dir (old_index_to_name old) (name_to_new new) st f σ
  = (σ', inr st') →
  σ !! child labels_dir f = Some (File c) →
  lower (suffix f) = txt ".txt" →
  σ' = <[child out_dir f := File (remap_text old new (universal_newlines c)).1]> σ.
Proof.
  intros Hret Hf Hsuf. revert Hret. unfold remap_file. rewrite bind_unfold. simpl.
  unfold is_file. rewrite Hf, bool_decide_true by done. simpl.
  rewrite bind_unfold. unfold read_text at 1. rewrite Hf.
  pose proof (remap_lines_emitted old new (splitlines (universal_newlines c))
                ([], inc_files st)) as E1.
  pose proof (remap_lines_emitted old new (splitlines (universal_newlines c))
                ([], stats0)) as E2.
  unfold remap_text. cbn [fst]. rewrite E2.
  destruct (foldl _ ([], inc_files st) _) as [out_lines st1].
  simpl in E1. subst out_lines.
  rewrite bind_unfold. unfold write_text.
  destruct (σ !! child out_dir f) as [[c'|]|]; try done;
    destruct (is_dir σ _); try done; by intros [= <- _].
Qed.

(** A round changes nothing but the entry of the output directory with the
    name it handles. *)
Lemma remap_files_unchanged_names (labels_dir out_dir : path)
    (d_old : gmap Z str) (d_new : gmap str Z) (names : list str) (st : stats)
    (σ : fs) (p : path) :
  (∀ g, g ∈ names → p ≠ child out_dir g) →
  (remap_files labels_dir out_dir d_old d_new st names σ).1 !! p = σ !! p.
Proof.
  revert st σ. induction names as [|g names IH]; intros st σ Hp; [done|].
  cbn [remap_files]. rewrite bind_unfold.
  pose proof (remap_file_unchanged labels_dir out_dir d_old d_new st g σ p) as H1.
  destruct (remap_file _ _ _ _ _ _ σ) as [σ1 [e|st1]]; simpl in H1.
  - apply H1, Hp. left.
  - rewrite IH by (intros g' Hg'; apply Hp; by right). apply H1, Hp. left.
Qed.

(** A loop that returns has written, for each label file of its list, the
    remapped text of this file. *)
Lemma remap_files_writes (labels_dir out_dir : path) (old new : list str)
    (names : list str) (st st' : stats) (σ σ' : fs) (f : str) (c : str) :
  remap_files labels_dir out_dir (old_index_to_name old) (name_to_new new)
    st names σ = (σ', inr st') →
  NoDup names → f ∈ names →
  σ !! child labels_dir f = Some (File c) →
  lower (suffix f) = txt ".txt" →
  σ' !! child out_dir f
  = Some (File (remap_text old new (universal_newlines c)).1).
Proof.
  revert st σ. induction names as [|g names IH]; intros st σ Hret Hnd Hin Hf Hsuf.
  - by apply elem_of_nil in Hin.
  - apply NoDup_cons in Hnd as [Hg Hnd]. revert Hret.
    cbn [remap_files]. rewrite bind_unfold.
    destruct (remap_file _ _ _ _ _ g σ) as [σ1 [e|st1]] eqn:E1; [done|].
    intros Hret. destruct (decide (f = g)) as [->|Hne].
    + apply (remap_file_returns_writes _ _ _ _ _ _ _ _ _ c) in E1; [|done..].
      assert (σ' = (remap_files labels_dir out_dir (old_index_to_name old)
                      (name_to_new new) st1 names σ1).1) as -> by by rewrite Hret.
      rewrite remap_files_unchanged_names.
      * subst σ1. by rewrite lookup_insert_eq.
      * intros g' Hg' E. apply app_inj_tail in E as [_ ->]. done.
    + apply (IH st1 σ1); try done.
      * apply elem_of_cons in Hin as [?|?]; done.
      * pose proof (remap_file_unchanged labels_dir out_dir (old_index_to_name old)
                      (name_to_new new) st g σ (child labels_dir f)) as H1.
        rewrite E1 in H1. simpl in H1. rewrite H1; [done|].
        intros E. apply app_inj_tail in E as [_ ->]. done.
Qed.

End run_writes.

(** X15.  A run writes what the preview shows: when the preview of a label
    file (suffix ".txt", another name than classes_mapped.txt) shows a
    remapped text and a run with the same folders and class files returns,
    the file of the output directory with this name holds exactly the
    previewed text after the run (for class files that are not inside the
    backup directory). *)
Theorem run_writes_the_preview
    (labels_dir out_dir old_classes_path new_classes_path : path)
    (create_backup : bool) (σ : fs) (st : stats)
    (f : str) (content remapped : str) (ct : MinimalApp.counts) :
  (remap_by_name labels_dir out_dir old_classes_path new_classes_path
     create_backup σ).2 = inr st →
  (MinimalApp.preview_selected (Some f) labels_dir
     (Some old_classes_path) (Some new_classes_path) σ).2
  = inr (MinimalApp.Previewed content remapped ct) →
  lower (suffix f) = txt ".txt" →
  f ≠ txt "classes_mapped.txt" →
  ¬ backup_dir_of labels_dir `prefix_of` old_classes_path →
  ¬ backup_dir_of labels_dir `prefix_of` new_classes_path →
  (remap_by_name labels_dir out_dir old_classes_path new_classes_path
     create_backup σ).1 !! child out_dir f = Some (File remapped).
Proof.
  intros Hst Hprev Hsuf Hcm Hbo Hbn.
  destruct (preview_selected_shown _ _ _ _ _ _ _ _ Hprev)
    as (f' & old & new & [= <-] & _ & Hread & Ho & Hn & Hct & ->).
  pose proof (preview_lines_remap_lines (old_index_to_name old) (name_to_new new)
                (splitlines content) [] MinimalApp.counts0 stats0
                eq_refl eq_refl eq_refl) as [Hlines _].
  rewrite Hlines. clear Hct Hlines.
  change (file_text _) with (remap_text old new content).1.
  destruct (remap_by_name_returns _ _ _ _ _ _ _ Hst)
    as (σ1 & σ2 & σ5 & old2 & new2 & Hd & Emk & E2 & Eo & En & E5 & ->).
  unfold read_text in Hread.
  destruct (σ !! child labels_dir f) as [[c|]|] eqn:Ef; try done.
  assert (content = universal_newlines c) as -> by congruence.
  assert (∀ q, is_Some (σ !! q) →
            ¬ (create_backup = true ∧ σ1 !! backup_dir_of labels_dir = None
               ∧ backup_dir_of labels_dir `prefix_of` q) →
            σ2 !! q = σ !! q) as Hsame.
  { intros q Hq Hnb.
    pose proof (backup_step_unchanged labels_dir create_backup σ1 q Hnb) as H2.
    fold (backup_step labels_dir create_backup) in H2. rewrite E2 in H2.
    simpl in H2. rewrite H2.
    apply (mkdir_parents_unchanged out_dir σ σ1 (inr tt)); [done|by left]. }
  assert (∀ q l, read_classes q σ = (σ, inr l) →
            ¬ backup_dir_of labels_dir `prefix_of` q →
            read_classes q σ2 = (σ2, inr l)) as Hrc.
  { intros q l Hq Hb.
    assert (σ2 !! q = σ !! q) as Hq2.
    { apply Hsame; [|by intros (_ & _ & ?)].
      revert Hq. unfold read_classes. rewrite bind_unfold. unfold read_text.
      by destruct (σ !! q) as [[cq|]|]. }
    revert Hq. unfold read_classes. rewrite !bind_unfold.
    unfold read_text. rewrite Hq2.
    destruct (σ !! q) as [[cq|]|]; try done. simpl. unfold mret, io_ret. congruence. }
  simpl in Ho, Hn.
  apply Hrc in Ho; [|done]. apply Hrc in Hn; [|done].
  assert (old2 = old) as -> by congruence.
  assert (new2 = new) as -> by congruence.
  assert (σ2 !! child labels_dir f = Some (File c)) as Ef2.
  { rewrite Hsame; [done|by eexists|].
    intros (_ & Hnone & Hpre). apply backup_dir_not_above_child in Hpre.
    rewrite <- Hpre in Hnone.
    rewrite (mkdir_parents_unchanged out_dir σ σ1 (inr tt)) in Hnone;
      [congruence|done|]. left. by eexists. }
  rewrite lookup_insert_ne
    by (intros E; apply app_inj_tail in E as [_ E]; by apply Hcm).
  apply (remap_files_writes labels_dir out_dir old new
           (sorted (listdir σ2 labels_dir)) stats0 st σ2 σ5 f c); try done.
  - rewrite sorted_Permutation. apply NoDup_listdir.
  - rewrite sorted_Permutation. apply elem_of_listdir. by eexists.
Qed.

Lemma run_writes_the_preview_witness :
  let σ0 := sample_fs [txt "cat"; txt "dog"] [txt "dog"; txt "cat"]
              [txt "1 0.1 0.2 0.3 0.4"; txt ""; txt "x"] in
  (remap_by_name p_labels p_out p_old p_new true σ0).1 !! child p_out (txt "a.txt")
  = Some (File (nl [txt "0 0.1 0.2 0.3 0.4"; txt "x"])).
Proof.
  apply (run_writes_the_preview p_labels p_out p_old p_new true _ (Stats 1 2 1 1)
           (txt "a.txt") (nl [txt "1 0.1 0.2 0.3 0.4"; txt ""; txt "x"])
           (nl [txt "0 0.1 0.2 0.3 0.4"; txt "x"]) (MinimalApp.Counts 1 0 1)).
  - vm_compute. reflexivity.
  - vm_compute. reflexivity.
  - vm_compute. reflexivity.
  - intros E. vm_compute in E. discriminate E.
  - intros [k E]. vm_compute in E. discriminate E.
  - intros [k E]. vm_compute in E. discriminate E.
Defined.

(** ** The changed counter *)

Section changed_counter.

Lemma remap_line_differs (old new : list str) (outs : list str) (st : stats)
    (raw : str) :
  let r := remap_line (old_index_to_name old) (name_to_new new) (outs, st) raw in
  changed r.2 = (changed st + if differs old new raw then 1 else 0)%nat
  ∧ unchanged r.2 = (unchanged st + if same old new raw then 1 else 0)%nat.
Proof.
  cbv zeta. unfold differs, same, emitted, remap_line.
  destruct (decide (strip (rstrip_lf raw) = [])) as [|Hne]; [simpl; lia|].
  destruct (length (split (rstrip_lf raw)) <? 5)%nat;
    [cbn -[join]; rewrite bool_decide_true by done; simpl; lia|].
  destruct (int (hd [] (split (rstrip_lf raw)))) as [i|];
    [|cbn -[join]; rewrite bool_decide_true by done; simpl; lia].
  destruct (old_index_to_name old !! i) as [nm|];
    [|cbn -[join]; rewrite bool_decide_true by done; simpl; lia].
  destruct (name_to_new new !! nm) as [j|];
    [|cbn -[join]; rewrite bool_decide_true by done; simpl; lia].
  cbn -[join].
  set (new_line := join [SP] (str_of_int j :: tl (split (rstrip_lf raw)))).
  destruct (decide _) as [Hd|Hd].
  - rewrite bool_decide_false by done. cbn. lia.
  - apply dec_stable in Hd. rewrite bool_decide_true by done. cbn. lia.
Qed.

Lemma remap_lines_differ (old new : list str) (raws : list str)
    (outs : list str) (st : stats) :
  let r := foldl (remap_line (old_index_to_name old) (name_to_new new))
             (outs, st) raws in
  changed r.2
  = (changed st + length (filter (λ raw, differs old new raw = true) raws))%nat
  ∧ unchanged r.2
    = (unchanged st + length (filter (λ raw, same old new raw = true) raws))%nat.
Proof.
  cbv zeta. revert outs st.
  induction raws as [|raw raws IH]; intros outs st; [simpl; lia|].
  cbn [foldl].
  pose proof (remap_line_differs old new outs st raw) as H. cbv zeta in H.
  destruct (remap_line _ _ (outs, st) raw) as [o1 s1].
  destruct (IH o1 s1) as [-> ->]. simpl in H. destruct H as [-> ->].
  rewrite !filter_cons.
  destruct (differs old new raw), (same old new raw); simpl; lia.
Qed.

End changed_counter.

(** X16.  The changed counter is the number of lines of the input for
    which the emitted line is not the line read, and the unchanged counter
    the number of lines emitted as they were read: a line rewritten with
    the index it already had counts as changed only when its text differs
    (other spacing, another spelling of the index). *)
Theorem changed_counts_differing_lines (old new : list str) (content : str) :
  changed (remap_text old new content).2
  = length (filter (λ raw, differs old new raw = true) (splitlines content))
  ∧ unchanged (remap_text old new content).2
    = length (filter (λ raw, same old new raw = true) (splitlines content)).
Proof.
  unfold remap_text. cbn [snd].
  apply (remap_lines_differ old new (splitlines content) [] stats0).
Qed.

(** ** The order of the new names *)

Section name_order.

Lemma str_leb_app_same (p a b : str) : str_leb (p ++ a) (p ++ b) = str_leb a b.
Proof. induction p as [|x p IH]; [done|]. simpl. by rewrite N.ltb_irrefl. Qed.

Lemma value_cons (c : ascii) (ds : str) :
  value (c :: ds)
  = default 0 (digit_val c) * 10 ^ Z.of_nat (length ds) + value ds.
Proof.
  induction ds as [|x ds IH] using rev_ind.
  - unfold value. simpl. lia.
  - rewrite app_comm_cons, !value_snoc, IH, length_app. simpl.
    replace (Z.of_nat (length ds + 1)) with (Z.of_nat (length ds) + 1) by lia.
    rewrite Z.pow_add_r by lia. lia.
Qed.

(** Digit strings of the same length compare as the numbers they write. *)
Lemma str_leb_digits (d1 d2 s1 s2 : str) :
  all_digits d1 → all_digits d2 → length d1 = length d2 →
  value d1 < value d2 → str_leb (d1 ++ s1) (d2 ++ s2) = true.
Proof.
  revert d2. induction d1 as [|c1 r1 IH]; intros [|c2 r2] H1 H2 Hlen Hv.
  - unfold value in Hv. simpl in Hv. lia.
  - discriminate Hlen.
  - discriminate Hlen.
  - apply Forall_cons in H1 as [[v1 Hc1] H1]. apply Forall_cons in H2 as [[v2 Hc2] H2].
    simpl in Hlen. injection Hlen as Hlen.
    rewrite !value_cons, Hc1, Hc2, Hlen in Hv. simpl in Hv.
    pose proof (value_bounds r1 H1) as B1. pose proof (value_bounds r2 H2) as B2.
    rewrite Hlen in B1.
    pose proof (digit_val_range _ _ Hc1) as R1.
    pose proof (digit_val_range _ _ Hc2) as R2.
    assert (v1 = Z.of_N (code c1) - 48 ∧ v2 = Z.of_N (code c2) - 48) as [E1 E2].
    { unfold digit_val in Hc1, Hc2.
      destruct (_ && _) in Hc1; [|done]. destruct (_ && _) in Hc2; [|done].
      split; congruence. }
    simpl. destruct (N.ltb_spec (code c1) (code c2)) as [|Hge]; [done|].
    destruct (N.ltb_spec (code c2) (code c1)) as [Hlt|Hge'].
    + exfalso. assert (v2 + 1 ≤ v1) as Hv' by lia.
      set (k := 10 ^ Z.of_nat (length r2)) in *. nia.
    + assert (v1 = v2) as -> by lia. apply IH; try done. lia.
Qed.

Lemma zfill_digits (width : nat) (n : Z) :
  0 ≤ n → all_digits (zfill width (str_of_int n)).
Proof.
  intros Hn. rewrite zfill_nonneg by done. apply Forall_app. split.
  - apply Forall_replicate. by eexists.
  - rewrite str_of_int_nonneg by done. by apply str_of_nonneg_spec.
Qed.

(** New names with larger numbers come later in the order of [sorted]. *)
Lemma new_name_lt (pfx : str) (padding : nat) (n m : Z) (f g : str) :
  0 ≤ n < m →
  (length (str_of_int n) ≤ padding)%nat → (length (str_of_int m) ≤ padding)%nat →
  str_le (new_name pfx padding n f) (new_name pfx padding m g)
  ∧ new_name pfx padding n f ≠ new_name pfx padding m g.
Proof.
  intros Hnm Hn Hm. split.
  - unfold str_le, new_name. rewrite !str_leb_app_same.
    apply str_leb_digits.
    + apply zfill_digits. lia.
    + apply zfill_digits. lia.
    + rewrite !zfill_length by (done || lia). done.
    + rewrite !zfill_value by lia. lia.
  - intros E. apply new_name_inj in E; (done || lia).
Qed.

End name_order.

(** X17.  The new names keep the order of the files: for a start number
    that is not negative, the name given to a file that comes earlier in
    the sorted list of image files is strictly before the name given to a
    later one in the order of the directory listing, thanks to the zero
    padding. *)
Theorem new_names_keep_order (pfx : str) (start_number : Z) (names : list str)
    (i j : nat) (f g : str) :
  0 ≤ start_number →
  names !! i = Some f → names !! j = Some g → (i < j)%nat →
  str_le (target pfx start_number names i f) (target pfx start_number names j g)
  ∧ target pfx start_number names i f ≠ target pfx start_number names j g.
Proof.
  intros Hs Hi Hj Hij. unfold target, numbered, width.
  apply lookup_lt_Some in Hj.
  assert (∀ k, (k < length names)%nat →
            (length (str_of_int (start_number + Z.of_nat k))
             ≤ length (str_of_int (start_number + Z.of_nat (length names) - 1)))%nat)
    as Hw.
  { intros k Hk. rewrite !str_of_int_nonneg by lia.
    apply str_of_nonneg_length_mono. lia. }
  apply new_name_lt; [lia|apply Hw; lia|by apply Hw].
Qed.

Lemma new_names_keep_order_witness :
  let names := [txt "a.jpg"; txt "b.png"; txt "c.jpg"; txt "d.jpg"; txt "e.jpg";
                txt "f.jpg"; txt "g.jpg"; txt "h.jpg"; txt "i.jpg"; txt "j.jpg"] in
  str_le (target (txt "image") 1 names 1 (txt "b.png"))
         (target (txt "image") 1 names 9 (txt "j.jpg"))
  ∧ target (txt "image") 1 names 1 (txt "b.png")
    ≠ target (txt "image") 1 names 9 (txt "j.jpg").
Proof.
  intros names. apply new_names_keep_order.
  - lia.
  - reflexivity.
  - reflexivity.
  - lia.
Defined.

(** ** Files that already carry their number *)

Section same_names.

Lemma rename_loop_same (directory : path) (start_number : Z) (pfx : str)
    (padding : nat) (names : list str) (i : Z) (count : nat) (out : list msg)
    (σ : fs) :
  (∀ k f, names !! k = Some f →
     new_name pfx padding (start_number + i + Z.of_nat k) f = f) →
  Forall (λ f, is_Some (σ !! child directory f)) names →
  Forall (λ f, has_nul f = false) names →
  rename_loop directory start_number pfx false padding i names count out σ
  = (σ, inr ((count + length names)%nat, out ++ ((λ f, Renamed f f) <$> names))).
Proof.
  revert i count out.
  induction names as [|f names IH]; intros i count out Hsame Hex Hnul.
  - simpl. by rewrite app_nil_r, Nat.add_0_r.
  - apply Forall_cons in Hex as [[src Hf] Hex].
    apply Forall_cons in Hnul as [Hnf Hnul].
    cbn [rename_loop]. rewrite bind_unfold. simpl.
    pose proof (Hsame 0%nat f eq_refl) as E. rewrite Z.add_0_r in E. rewrite E.
    rewrite (bool_decide_false (child directory f ≠ child directory f)) by (by intros ?).
    rewrite andb_false_r, bind_unfold. unfold try, os_rename.
    rewrite name_child, Hnf. simpl. rewrite Hf.
    rewrite decide_True by done.
    rewrite IH; [|intros k g Hk|done|done].
    + rewrite <- app_assoc. simpl. do 3 f_equal. lia.
    + rewrite <- (Hsame (S k) g Hk) at 2. f_equal. lia.
Qed.

End same_names.

(** X18.  On a directory whose image files already carry the names the run
    would give them, a run changes nothing, and yet reports each file as
    renamed (to its own name) and counts it in the summary. *)
Theorem rename_images_already_numbered (directory : path) (start_number : Z)
    (pfx : str) (σ : fs) :
  plain_prefix pfx →
  is_dir σ directory = true →
  image_files σ directory ≠ [] →
  (∀ i f, image_files σ directory !! i = Some f →
     target pfx start_number (image_files σ directory) i f = f) →
  rename_images directory start_number pfx false σ
  = (σ, inr (Found (length (image_files σ directory)) directory
             :: ((λ f, Renamed f f) <$> image_files σ directory)
             ++ [RenamingComplete (length (image_files σ directory))])).
Proof.
  intros Hplain Hd Himgs Hsame.
  destruct (image_files_spec σ directory) as (_ & _ & Hin).
  assert (Forall (λ f, has_nul f = false) (image_files σ directory)) as Hnul.
  { apply Forall_forall. intros f Hf.
    pose proof Hf as [i Hi]%list_elem_of_lookup.
    rewrite <- (Hsame i f Hi). apply has_nul_new_name; [done|].
    by apply Hin in Hf as [_ Hf]. }
  revert Himgs Hsame Hin Hnul. unfold rename_images. rewrite bind_unfold.
  unfold try, os_listdir. unfold is_dir in Hd.
  destruct (σ !! directory) as [[c|]|]; try done.
  rewrite bind_unfold. simpl. unfold image_files.
  set (imgs := filter (λ file, is_image file = true)
                 (filter (λ f, is_file σ (child directory f) = true)
                    (listdir σ directory))).
  intros Himgs Hsame Hin Hnul.
  destruct imgs as [|f0 imgs0] eqn:Eimgs; [done|].
  rewrite bind_unfold, rename_loop_same.
  - done.
  - intros k f Hk. rewrite Z.add_0_r. by apply Hsame.
  - apply Forall_forall. intros f Hf. apply Hin in Hf as [Hf _].
    unfold is_file in Hf. by destruct (σ !! child directory f).
  - done.
Qed.

Lemma rename_images_already_numbered_witness :
  let σ0 := images_fs [txt "image_1.jpg"; txt "image_2.png"; txt "notes.txt"] in
  rename_images p_imgs 1 (txt "image") false σ0
  = (σ0, inr (Found (length (image_files σ0 p_imgs)) p_imgs
              :: ((λ f, Renamed f f) <$> image_files σ0 p_imgs)
              ++ [RenamingComplete (length (image_files σ0 p_imgs))])).
Proof.
  intros σ0.
  assert (image_files σ0 p_imgs = [txt "image_1.jpg"; txt "image_2.png"]) as E
    by (vm_compute; reflexivity).
  apply rename_images_already_numbered.
  - vm_compute. reflexivity.
  - vm_compute. reflexivity.
  - rewrite E. discriminate.
  - rewrite E. intros [|[|i]] f Hf; [| |discriminate Hf];
      injection Hf as <-; vm_compute; reflexivity.
Defined.

(** X19.  Whatever the class file holds, the names [read_classes] returns
    are not empty and hold no line end ("\n" or "\r"), and reading leaves
    the file system as it is. *)
Theorem read_classes_gives_names (p : path) (σ : fs) (names : list str) :
  (read_classes p σ).2 = inr names →
  (read_classes p σ).1 = σ ∧ Forall class_name names.
Proof.
  unfold read_classes. rewrite bind_unfold. unfold read_text.
  destruct (σ !! p) as [[c|]|]; try done.
  unfold mret, io_ret. cbn [fst snd]. intros [= <-]. split; [done|].
  apply classes_of_text_names.
Qed.

Lemma read_classes_gives_names_witness :
  let σ0 : fs :=
    {[ [txt "c.txt"] := File (txt "cat" ++ [CR; LF; LF] ++ txt " dog " ++ [CR]) ]} in
  (read_classes [txt "c.txt"] σ0).1 = σ0
  ∧ Forall class_name [txt "cat"; txt " dog "].
Proof.
  intros σ0. apply (read_classes_gives_names [txt "c.txt"] σ0).
  vm_compute. reflexivity.
Defined.

(** ** Runs that return *)

Section returns.

Lemma child_not_prefix (p : path) (f : str) : ¬ child p f `prefix_of` p.
Proof.
  intros H. apply prefix_length in H. unfold child in H.
  rewrite length_app in H. simpl in H. lia.
Qed.

(** With the output directory in place and no directory among its entries,
    the loop over the label directory returns and keeps both facts. *)
Lemma remap_files_returns (labels_dir out_dir : path)
    (d_old : gmap Z str) (d_new : gmap str Z) (names : list str) (st : stats)
    (σ : fs) :
  is_dir σ out_dir = true →
  (∀ f, σ !! child out_dir f ≠ Some Dir) →
  ∃ σ' st',
    remap_files labels_dir out_dir d_old d_new st names σ = (σ', inr st')
    ∧ is_dir σ' out_dir = true
    ∧ ∀ f, σ' !! child out_dir f ≠ Some Dir.
Proof.
  revert st σ. induction names as [|f names IH]; intros st σ Hout Hnd.
  - by exists σ, st.
  - cbn [remap_files]. rewrite bind_unfold.
    assert (∃ σ1 st1,
              remap_file labels_dir out_dir d_old d_new st f σ = (σ1, inr st1)
              ∧ is_dir σ1 out_dir = true
              ∧ ∀ g, σ1 !! child out_dir g ≠ Some Dir) as (σ1 & st1 & -> & H1 & H2).
    { unfold remap_file. rewrite bind_unfold. simpl.
      destruct (is_file σ (child labels_dir f)) eqn:Hf; simpl; [|by exists σ, st].
      destruct (bool_decide _); simpl; [|by exists σ, st].
      rewrite bind_unfold. unfold read_text, is_file in *.
      destruct (σ !! child labels_dir f) as [[c|]|]; try done.
      destruct (foldl _ _ _) as [out_lines st1].
      rewrite bind_unfold. unfold write_text.
      rewrite parent_child, Hout.
      exists (<[child out_dir f := File (file_text out_lines)]> σ), st1.
      split; [|split].
      - pose proof (Hnd f) as Hf'.
        by destruct (σ !! child out_dir f) as [[c'|]|].
      - unfold is_dir in *. rewrite lookup_insert_ne; [done|].
        apply not_eq_sym, child_ne.
      - intros g. destruct (decide (child out_dir f = child out_dir g)) as [->|Hne].
        + by rewrite lookup_insert_eq.
        + by rewrite lookup_insert_ne. }
    by apply IH.
Qed.

End returns.

(** X20.  A sufficient condition for a run to return: the label directory
    exists, the output directory can be created and holds no directory, both
    class files are regular files, and the backup directory lies apart from
    the output directory and the class files.  Then the run raises nothing
    and returns its statistics, with or without backup. *)
Theorem remap_run_returns
    (labels_dir out_dir old_classes_path new_classes_path : path)
    (create_backup : bool) (σ : fs) :
  is_dir σ labels_dir = true →
  (mkdir_parents out_dir σ).2 = inr tt →
  (∀ f, σ !! child out_dir f ≠ Some Dir) →
  is_file σ old_classes_path = true →
  is_file σ new_classes_path = true →
  out_dir ≠ parent labels_dir →
  ¬ backup_dir_of labels_dir `prefix_of` out_dir →
  ¬ backup_dir_of labels_dir `prefix_of` old_classes_path →
  ¬ backup_dir_of labels_dir `prefix_of` new_classes_path →
  ∃ st,
    (remap_by_name labels_dir out_dir old_classes_path new_classes_path
       create_backup σ).2 = inr st.
Proof.
  intros Hd Hmk Hnd Hold Hnew Hpar Hbo Hbold Hbnew.
  assert (exists_ σ labels_dir = true) as He
    by (unfold exists_, is_dir in *; by destruct (σ !! labels_dir)).
  unfold remap_by_name. rewrite bind_unfold. simpl. rewrite Hd, He. simpl.
  rewrite bind_unfold.
  destruct (mkdir_parents out_dir σ) as [σ1 r1] eqn:Emk. simpl in Hmk. subst r1.
  rewrite bind_unfold.
  pose proof (backup_step_unchanged labels_dir create_backup σ1) as H2.
  destruct (backup_step_ok labels_dir create_backup σ1) as [σ2 E2].
  rewrite E2 in H2 |- *. simpl in H2.
  assert (∀ q, ¬ backup_dir_of labels_dir `prefix_of` q → σ2 !! q = σ1 !! q) as H21.
  { intros q Hq. apply H2. by intros (_ & _ & ?). }
  assert (∀ f, ¬ backup_dir_of labels_dir `prefix_of` child out_dir f) as Hbf.
  { intros f [k E]. destruct k as [|x k _] using rev_ind.
    - rewrite app_nil_r in E. apply Hpar.
      rewrite <- (parent_child out_dir f), E. unfold backup_dir_of.
      by rewrite parent_child.
    - unfold child in E. rewrite app_assoc in E.
      apply app_inj_tail in E as [-> _]. apply Hbo. by exists k. }
  assert (is_dir σ2 out_dir = true) as Hout2.
  { unfold is_dir. rewrite H21 by done.
    by rewrite (mkdir_from_dirs out_dir [] σ σ1 out_dir Emk (prefix_nil _)). }
  assert (∀ f, σ2 !! child out_dir f ≠ Some Dir) as Hnd2.
  { intros f. rewrite H21 by done.
    rewrite (mkdir_parents_unchanged out_dir σ σ1 (inr tt)); [done|done|].
    right. apply child_not_prefix. }
  assert (∀ q, is_file σ q = true → ¬ backup_dir_of labels_dir `prefix_of` q →
            ∃ l, read_classes q σ2 = (σ2, inr l)) as Hrc.
  { intros q Hq Hb. unfold read_classes. rewrite bind_unfold. unfold read_text.
    rewrite H21 by done.
    rewrite (mkdir_parents_unchanged out_dir σ σ1 (inr tt)); [|done|].
    - unfold is_file in Hq. destruct (σ !! q) as [[c|]|]; try done. by eexists.
    - left. unfold is_file in Hq. by destruct (σ !! q). }
  destruct (Hrc old_classes_path Hold Hbold) as [old Eo].
  destruct (Hrc new_classes_path Hnew Hbnew) as [new En].
  rewrite bind_unfold, Eo, bind_unfold, En.
  rewrite bind_unfold. simpl. rewrite bind_unfold.
  destruct (remap_files_returns labels_dir out_dir (old_index_to_name old)
              (name_to_new new) (sorted (listdir σ2 labels_dir)) stats0 σ2 Hout2 Hnd2)
    as (σ5 & st5 & -> & Hout5 & Hnd5).
  rewrite bind_unfold. unfold write_text. rewrite parent_child, Hout5.
  exists st5.
  destruct (σ5 !! child out_dir _) as [[c|]|] eqn:Ecm; try done.
  destruct (Hnd5 _ Ecm).
Qed.

Lemma remap_run_returns_witness :
  ∃ st,
    (remap_by_name p_labels p_out p_old p_new true
       (sample_fs [txt "cat"; txt "dog"] [txt "dog"; txt "cat"]
          [txt "1 0.1 0.2 0.3 0.4"])).2 = inr st.
Proof.
  apply remap_run_returns.
  - vm_compute. reflexivity.
  - vm_compute. reflexivity.
  - intros f. unfold sample_fs. cbn [list_to_map foldr fst snd uncurry].
    rewrite !lookup_insert_ne by (by vm_compute).
    by rewrite lookup_empty.
  - vm_compute. reflexivity.
  - vm_compute. reflexivity.
  - by vm_compute.
  - intros [k E]. vm_compute in E. discriminate E.
  - intros [k E]. vm_compute in E. discriminate E.
  - intros [k E]. vm_compute in E. discriminate E.
Defined.

(** ** The counters of a run *)

Section run_counters.

(** One round of the loop adds the lines of its file to the counters. *)
Lemma remap_file_counts (labels_dir out_dir : path) (old new : list str)
    (st st' : stats) (f : str) (σ σ' : fs) :
  remap_file labels_dir out_dir (old_index_to_name old) (name_to_new new) st f σ
  = (σ', inr st') →
  let ls := if MinimalApp.is_label_file σ labels_dir f
            then file_lines σ labels_dir f else [] in
  lines st'
  = (lines st + length (filter (λ raw, strip (rstrip_lf raw) ≠ []) ls))%nat
  ∧ changed st'
    = (changed st + length (filter (λ raw, differs old new raw = true) ls))%nat
  ∧ unchanged st'
    = (unchanged st + length (filter (λ raw, same old new raw = true) ls))%nat.
Proof.
  unfold remap_file, MinimalApp.is_label_file, file_lines.
  rewrite bind_unfold. simpl.
  destruct (is_file σ (child labels_dir f)) eqn:Hf; simpl;
    [|intros [= _ <-]; simpl; lia].
  destruct (bool_decide _); simpl; [|intros [= _ <-]; simpl; lia].
  rewrite bind_unfold. unfold read_text, is_file in *.
  destruct (σ !! child labels_dir f) as [[c|]|]; try done.
  pose proof (remap_lines_lines (old_index_to_name old) (name_to_new new)
                (splitlines (universal_newlines c)) [] (inc_files st)) as H1.
  pose proof (remap_lines_differ old new (splitlines (universal_newlines c))
                [] (inc_files st)) as H2.
  cbv zeta in H2.
  destruct (foldl _ _ _) as [out_lines st1]. simpl in H1, H2.
  rewrite bind_unfold.
  destruct (write_text _ _ σ) as [σ2 [e|[]]]; [done|].
  intros [= _ <-]. destruct H2 as [H2 H3]. by rewrite H1, H2, H3.
Qed.

(** The loop adds the lines of the label files of its list. *)
Lemma remap_files_counts (labels_dir out_dir : path) (old new : list str)
    (names : list str) (st st' : stats) (σ σ' : fs) :
  remap_files labels_dir out_dir (old_index_to_name old) (name_to_new new)
    st names σ = (σ', inr st') →
  NoDup names →
  let ls := filter (λ f, MinimalApp.is_label_file σ labels_dir f = true) names
            ≫= file_lines σ labels_dir in
  lines st'
  = (lines st + length (filter (λ raw, strip (rstrip_lf raw) ≠ []) ls))%nat
  ∧ changed st'
    = (changed st + length (filter (λ raw, differs old new raw = true) ls))%nat
  ∧ unchanged st'
    = (unchanged st + length (filter (λ raw, same old new raw = true) ls))%nat.
Proof.
  cbv zeta. revert st σ. induction names as [|f names IH]; intros st σ Hret Hnd.
  - injection Hret as _ <-. simpl. lia.
  - apply NoDup_cons in Hnd as [Hf Hnd]. revert Hret.
    cbn [remap_files]. rewrite bind_unfold.
    destruct (remap_file _ _ _ _ _ f σ) as [σ1 [e|st1]] eqn:E1; [done|].
    intros Hret.
    pose proof (remap_file_counts _ _ _ _ _ _ _ _ _ E1) as (H1 & H2 & H3).
    cbv zeta in H1, H2, H3.
    destruct (IH st1 σ1 Hret Hnd) as (I1 & I2 & I3).
    assert (filter (λ g, MinimalApp.is_label_file σ1 labels_dir g = true) names
            ≫= file_lines σ1 labels_dir
            = filter (λ g, MinimalApp.is_label_file σ labels_dir g = true) names
              ≫= file_lines σ labels_dir) as Erest.
    { assert (∀ g, g ∈ names → σ1 !! child labels_dir g = σ !! child labels_dir g)
        as Hsame.
      { intros g Hg.
        pose proof (remap_file_unchanged labels_dir out_dir (old_index_to_name old)
                      (name_to_new new) st f σ (child labels_dir g)) as Hu.
        rewrite E1 in Hu. apply Hu. intros E.
        apply app_inj_tail in E as [_ ->]. done. }
      clear -Hsame. induction names as [|g names IH]; [done|].
      assert (MinimalApp.is_label_file σ1 labels_dir g
              = MinimalApp.is_label_file σ labels_dir g) as Eg.
      { unfold MinimalApp.is_label_file, is_file. rewrite Hsame; [done|left]. }
      rewrite !filter_cons, Eg.
      destruct (decide _).
      - rewrite !bind_cons, IH by (intros g' Hg'; apply Hsame; by right).
        unfold file_lines. rewrite Hsame; [done|left].
      - apply IH. intros g' Hg'. apply Hsame. by right. }
    rewrite Erest in I1, I2, I3. rewrite filter_cons.
    destruct (MinimalApp.is_label_file σ labels_dir f) eqn:El.
    + rewrite decide_True by done. rewrite bind_cons, !filter_app, !length_app. lia.
    + rewrite decide_False by done. simpl in H1, H2, H3. lia.
Qed.

(** The label files keep their content while the output directory and the
    backup are made. *)
Lemma setup_file_lines (labels_dir out_dir : path) (create_backup : bool)
    (σ σ1 σ2 : fs) (g : str) :
  is_dir σ labels_dir = true →
  mkdir_parents out_dir σ = (σ1, inr tt) →
  backup_step labels_dir create_backup σ1 = (σ2, inr tt) →
  is_file σ (child labels_dir g) = true →
  σ2 !! child labels_dir g = σ !! child labels_dir g.
Proof.
  intros Hd Emk E2 Hf.
  assert (is_Some (σ !! child labels_dir g)) as Hs
    by (unfold is_file in Hf; by destruct (σ !! child labels_dir g)).
  pose proof (mkdir_parents_unchanged out_dir σ σ1 (inr tt) (child labels_dir g)
                Emk (or_introl Hs)) as H1.
  rewrite <- H1.
  pose proof (backup_step_unchanged labels_dir create_backup σ1
                (child labels_dir g)) as H2.
  fold (backup_step labels_dir create_backup) in H2. rewrite E2 in H2.
  apply H2. intros (_ & Hnone & Hpre).
  apply backup_dir_not_above_child in Hpre. rewrite <- Hpre, H1 in Hnone.
  rewrite Hnone in Hs. by destruct Hs.
Qed.

(** Each line counts for exactly one of the two counters, or is blank. *)
Lemma differs_or_same (old new : list str) (raw : str) :
  if decide (strip (rstrip_lf raw) = [])
  then differs old new raw = false ∧ same old new raw = false
  else differs old new raw = negb (same old new raw).
Proof.
  unfold differs, same. destruct (decide _) as [Hb|Hb].
  - apply (emitted_None old new) in Hb. by rewrite Hb.
  - destruct (emitted old new raw) as [ln1|] eqn:E; [done|].
    by apply emitted_None in E.
Qed.

End run_counters.

(** C9.  The statistics of a completed run: [lines] is the number of lines
    that are not blank in the label files of the label directory, [changed]
    the number of those emitted otherwise than read and [unchanged] the
    number of those emitted as read, for the class lists the run has read;
    every line that is not blank counts for exactly one of the two, a blank
    line for none, and so [lines = changed + unchanged]. *)
Theorem remap_counters_balanced
    (labels_dir out_dir old_classes_path new_classes_path : path)
    (create_backup : bool) (σ : fs) (st : stats) :
  (remap_by_name labels_dir out_dir old_classes_path new_classes_path
     create_backup σ).2 = inr st →
  ∃ old new,
    (read_classes old_classes_path (setup labels_dir out_dir create_backup σ)).2
    = inr old
    ∧ (read_classes new_classes_path (setup labels_dir out_dir create_backup σ)).2
      = inr new
    ∧ lines st
      = length (filter (λ raw, strip (rstrip_lf raw) ≠ []) (label_lines σ labels_dir))
    ∧ changed st
      = length (filter (λ raw, differs old new raw = true) (label_lines σ labels_dir))
    ∧ unchanged st
      = length (filter (λ raw, same old new raw = true) (label_lines σ labels_dir))
    ∧ (∀ raw, strip (rstrip_lf raw) ≠ [] →
         differs old new raw = negb (same old new raw))
    ∧ (∀ raw, strip (rstrip_lf raw) = [] →
         differs old new raw = false ∧ same old new raw = false)
    ∧ lines st = (changed st + unchanged st)%nat.
Proof.
  intros Hst.
  destruct (remap_by_name_returns _ _ _ _ _ _ _ Hst)
    as (σ1 & σ2 & σ5 & old & new & Hd & Emk & E2 & Eo & En & E5 & _).
  assert (setup labels_dir out_dir create_backup σ = σ2) as ->.
  { unfold setup. rewrite Emk. cbn [fst]. by rewrite E2. }
  exists old, new. rewrite Eo, En.
  split; [done|]. split; [done|].
  pose proof (remap_files_counts _ _ _ _ _ _ _ _ _ E5) as Hc.
  cbv zeta in Hc.
  destruct Hc as (H1 & H2 & H3);
    [rewrite sorted_Permutation; apply NoDup_listdir|].
  assert (filter (λ f, MinimalApp.is_label_file σ2 labels_dir f = true)
            (sorted (listdir σ2 labels_dir)) ≫= file_lines σ2 labels_dir
          ≡ₚ label_lines σ labels_dir) as Hperm.
  { unfold label_lines.
    assert (∀ g, is_file σ2 (child labels_dir g) = is_file σ (child labels_dir g))
      as Hfile
      by (intros g; by apply (setup_is_file labels_dir out_dir create_backup σ σ1 σ2)).
    rewrite !sorted_Permutation, (label_files_Permutation σ σ2 labels_dir Hfile).
    erewrite Forall_bind_ext; [done|].
    apply Forall_forall. intros g [Hg _]%list_elem_of_filter.
    apply andb_true_iff in Hg as [Hg _]. unfold file_lines.
    by rewrite (setup_file_lines labels_dir out_dir create_backup σ σ1 σ2 g). }
  rewrite Hperm in H1, H2, H3. simpl in H1, H2, H3.
  split; [done|]. split; [done|]. split; [done|].
  split; [|split].
  - intros raw Hraw. pose proof (differs_or_same old new raw) as H.
    by rewrite decide_False in H.
  - intros raw Hraw. pose proof (differs_or_same old new raw) as H.
    by rewrite decide_True in H.
  - apply (remap_files_balanced labels_dir out_dir (old_index_to_name old)
             (name_to_new new) (sorted (listdir σ2 labels_dir)) stats0 st σ2);
      [done|by rewrite E5].
Qed.

Lemma remap_counters_balanced_witness :
  let σ0 := sample_fs [txt "cat"; txt "dog"; txt "bird"]
              [txt "dog"; txt "bird"; txt "cat"]
              [txt "2 0.1 0.2 0.3 0.4"; txt "  "; txt "7 0.1 0.2 0.3 0.4"] in
  let st := Stats 1 2 1 1 in
  ∃ old new,
    (read_classes p_old (setup p_labels p_out true σ0)).2 = inr old
    ∧ (read_classes p_new (setup p_labels p_out true σ0)).2 = inr new
    ∧ lines st
      = length (filter (λ raw, strip (rstrip_lf raw) ≠ []) (label_lines σ0 p_labels))
    ∧ changed st
      = length (filter (λ raw, differs old new raw = true) (label_lines σ0 p_labels))
    ∧ unchanged st
      = length (filter (λ raw, same old new raw = true) (label_lines σ0 p_labels))
    ∧ (∀ raw, strip (rstrip_lf raw) ≠ [] →
         differs old new raw = negb (same old new raw))
    ∧ (∀ raw, strip (rstrip_lf raw) = [] →
         differs old new raw = false ∧ same old new raw = false)
    ∧ lines st = (changed st + unchanged st)%nat.
Proof.
  apply (remap_counters_balanced p_labels p_out p_old p_new true).
  vm_compute. reflexivity.
Defined.
